(** * oc-data-be-challenge: collection pipeline, wire decoder, query
      streamer and periodic trigger

    A shallow embedding of the Go sources
      - internal/client      (DataPoint, Value, DataPointTime, DataPointValue,
                              DataServerClient)
      - internal/data/dto    (DataPoint)
      - internal/data/repository (DataPoint.write / Write / WriteDiscard / Query)
      - internal/data/iter   (DataPointIter)
      - internal/usecase     (DataPointUseCase.Collect / Read / Query)
      - internal/transport/http (ChiServer.DataPointQuery / parseTime)
      - internal/collector   (PeriodicTrigger)
    together with the fragments of the Go standard library they call
    (strconv.ParseInt, time, encoding/binary, math.Float32frombits,
    encoding/base64, encoding/json, sync.Once, channels).

    Conventions.
      - a Go [error] is a value of [error]; a function returning [(T, error)]
        returns [Result T];
      - a [float32] is its IEEE-754 bit pattern, a [Z] in [0, 2^32):
        the program only moves measurements around and never computes on them;
      - a [time.Time] is its internal second count (seconds since year 1, an
        int64) and its nanosecond part;
      - effects (clock, log, storage writes, response writer) are threaded
        explicitly through a world record;
      - the periodic trigger is an interleaving semantics over threads, with a
        heap of channels, once-guards, contexts and tickers. *)

From Stdlib Require Import ZArith String Ascii List Lia QArith.
From Stdlib.Strings Require Import Byte.
From Stdlib Require Import DecimalString DecimalPos.
From stdpp Require Import base gmap strings list.
Import ListNotations.

Open Scope string_scope.
Open Scope list_scope.
Open Scope Z_scope.

(* ===================================================================== *)
(** ** Go values shared by all packages                                   *)
(* ===================================================================== *)

(** Go errors.  [New msg] is [errors.New(msg)] or a [fmt.Errorf] that wraps
    nothing; [Errorf msg e] is [fmt.Errorf(msg + verb, e)] with the verb
    [%w] or [%v] last: the formatted text up to the wrapped error, then the
    wrapped error.  [LibErr] is an error made by a library, whose text is not
    modelled; [Join] is [errors.Join]. *)
Inductive error : Type :=
| LibErr (origin : string)
| New (msg : string)
| Errorf (msg : string) (wrapped : error)
| Join (e1 e2 : error).

Fixpoint error_message (e : error) : string :=
  match e with
  | LibErr o => o
  | New msg => msg
  | Errorf msg e' => msg +:+ error_message e'
  | Join e1 e2 => error_message e1 +:+ String (ascii_of_nat 10) (error_message e2)
  end.

Inductive Result (T : Type) : Type :=
| Ok (v : T)
| Err (e : error).
Arguments Ok {T} v.
Arguments Err {T} e.

(** [%d] of a non-negative number. *)
Definition show_nat (n : nat) : string := NilEmpty.string_of_uint (Nat.to_uint n).

Definition float32 : Type := Z.

(** The real number denoted by a float32 bit pattern, when it is finite:
    sign bit 31, biased exponent bits 30..23, fraction bits 22..0. *)
Definition float32_to_Q (f : float32) : option Q :=
  let s := Z.testbit f 31 in
  let e := Z.land (Z.shiftr f 23) 255 in
  let m := Z.land f 8388607 in
  let sign (q : Q) := if s then Qopp q else q in
  if e =? 255 then None
  else if e =? 0 then Some (sign (inject_Z m * Qpower (2 # 1) (-149))%Q)
  else Some (sign (inject_Z (8388608 + m) * Qpower (2 # 1) (e - 150))%Q).

Module ascii_class.

Definition code (c : ascii) : nat := nat_of_ascii c.

Definition is_digit (c : ascii) : bool :=
  (Nat.leb 48 (code c) && Nat.leb (code c) 57)%bool.

Definition digit_value (c : ascii) : Z := Z.of_nat (code c) - 48.

(** JSON white space: space, tab, line feed, carriage return. *)
Definition is_space (c : ascii) : bool :=
  (Nat.eqb (code c) 32 || Nat.eqb (code c) 9 || Nat.eqb (code c) 10
   || Nat.eqb (code c) 13)%bool.

Definition is_hex (c : ascii) : bool :=
  (is_digit c
   || (Nat.leb 97 (code c) && Nat.leb (code c) 102)
   || (Nat.leb 65 (code c) && Nat.leb (code c) 70))%bool.

(** ASCII lower-casing, for the case-insensitive match of object keys. *)
Definition lower (c : ascii) : ascii :=
  if (Nat.leb 65 (code c) && Nat.leb (code c) 90)%bool
  then ascii_of_nat (code c + 32) else c.

Fixpoint lower_string (s : string) : string :=
  match s with
  | EmptyString => EmptyString
  | String c r => String (lower c) (lower_string r)
  end.

End ascii_class.

(* ===================================================================== *)
(** ** strconv                                                            *)
(* ===================================================================== *)

Module strconv.
Import ascii_class.

Fixpoint all_digits (s : string) : bool :=
  match s with
  | EmptyString => true
  | String c r => (is_digit c && all_digits r)%bool
  end.

(** Value of a digit string, most significant digit first. *)
Fixpoint digits_value (acc : Z) (s : string) : Z :=
  match s with
  | EmptyString => acc
  | String c r => digits_value (10 * acc + digit_value c) r
  end.

Definition ErrSyntax : error := LibErr "strconv: invalid syntax".
Definition ErrRange : error := LibErr "strconv: value out of range".

(** [strconv.ParseUint(s, 10, bits)]: one or more decimal digits, nothing
    else, value below [2^bits]. *)
Definition ParseUint (s : string) (bits : Z) : Result Z :=
  match s with
  | EmptyString => Err ErrSyntax
  | _ =>
      if all_digits s then
        let un := digits_value 0 s in
        if un <? 2 ^ bits then Ok un else Err ErrRange
      else Err ErrSyntax
  end.

(** [strconv.ParseInt(s, 10, 64)]: an optional sign, then [ParseUint];
    the magnitude is checked against the int64 range. *)
Definition ParseInt (s : string) : Result Z :=
  match s with
  | EmptyString => Err ErrSyntax
  | String c r =>
      let '(neg, ds) :=
        if Ascii.eqb c "+" then (false, r)
        else if Ascii.eqb c "-" then (true, r)
        else (false, s) in
      match ParseUint ds 64 with
      | Err e => Err e
      | Ok un =>
          let cutoff := 2 ^ 63 in
          if (negb neg && (cutoff <=? un))%bool then Err ErrRange
          else if (neg && (cutoff <? un))%bool then Err ErrRange
          else Ok (if neg then - un else un)
      end
  end.

End strconv.

(* ===================================================================== *)
(** ** time                                                               *)
(* ===================================================================== *)

Module time.

(** Internal seconds (since January 1, year 1) and nanoseconds within the
    second.  Monotonic clock readings are not modelled: the program only
    compares a [time.Unix] value, which has none, with wall-clock times. *)
Record Time : Type := mkTime { sec : Z; nsec : Z }.

Definition unixToInternal : Z := 62135596800.

Definition wrap_int64 (x : Z) : Z := (x + 2 ^ 63) mod 2 ^ 64 - 2 ^ 63.

(** [time.Unix(sec, 0)]: [sec + unixToInternal] in int64 arithmetic. *)
Definition Unix (s : Z) : Time :=
  {| sec := wrap_int64 (s + unixToInternal); nsec := 0 |}.

(** Durations are nanosecond counts. *)
Definition Duration : Type := Z.
Definition Second : Duration := 1000000000.
Definition Hour : Duration := 3600 * Second.

(** [t.Add(d)]: Go's split of [d] into whole seconds and a nanosecond
    remainder (truncated division), with the carry into the seconds.
    The saturation that Go applies at the ends of the int64 range is left
    out; clock readings are nowhere near them. *)
Definition Add (t : Time) (d : Duration) : Time :=
  let dsec := Z.quot d 1000000000 in
  let n := nsec t + Z.rem d 1000000000 in
  if 1000000000 <=? n then {| sec := sec t + dsec + 1; nsec := n - 1000000000 |}
  else if n <? 0 then {| sec := sec t + dsec - 1; nsec := n + 1000000000 |}
  else {| sec := sec t + dsec; nsec := n |}.

(** [t.Before(u)]: strictly earlier. *)
Definition Before (t u : Time) : bool :=
  ((sec t <? sec u) || ((sec t =? sec u) && (nsec t <? nsec u)))%bool.

End time.

(* ===================================================================== *)
(** ** encoding/binary and math                                           *)
(* ===================================================================== *)

Module binary.

Definition b2z (b : byte) : Z := Z.of_N (Byte.to_N b).

(** [binary.LittleEndian.Uint32(b)], for a slice of at least four bytes
    (Go panics on a shorter one: [None]). *)
Definition LittleEndian_Uint32 (b : list byte) : option Z :=
  match b with
  | b0 :: b1 :: b2 :: b3 :: _ =>
      Some (Z.lor (b2z b0)
             (Z.lor (Z.shiftl (b2z b1) 8)
                (Z.lor (Z.shiftl (b2z b2) 16) (Z.shiftl (b2z b3) 24))))
  | _ => None
  end.

End binary.

Module math.
(** [math.Float32frombits] is a bit cast; a float32 is its bit pattern. *)
Definition Float32frombits (bits : Z) : float32 := bits.
Definition Float32bits (f : float32) : Z := f.
End math.

(* ===================================================================== *)
(** ** encoding/base64                                                    *)
(* ===================================================================== *)

Module base64.
Import ascii_class.

Definition z2b (z : Z) : byte :=
  match Byte.of_N (Z.to_N (z mod 256)) with
  | Some b => b
  | None => x00
  end.

(** Value of a character of the standard alphabet. *)
Definition sextet (c : ascii) : option Z :=
  let n := code c in
  if (Nat.leb 65 n && Nat.leb n 90)%bool then Some (Z.of_nat n - 65)
  else if (Nat.leb 97 n && Nat.leb n 122)%bool then Some (Z.of_nat n - 71)
  else if (Nat.leb 48 n && Nat.leb n 57)%bool then Some (Z.of_nat n + 4)
  else if Nat.eqb n 43 then Some 62
  else if Nat.eqb n 47 then Some 63
  else None.

Definition is_pad (c : ascii) : bool := Nat.eqb (code c) 61.

Definition is_empty (s : string) : bool :=
  match s with EmptyString => true | _ => false end.

(** [base64.StdEncoding.Decode]: quanta of four characters, padding only
    in the last one. *)
Fixpoint decode (s : string) : option (list byte) :=
  match s with
  | EmptyString => Some []
  | String c1 (String c2 (String c3 (String c4 r))) =>
      match sextet c1, sextet c2 with
      | Some v1, Some v2 =>
          let o1 := z2b (Z.lor (Z.shiftl v1 2) (Z.shiftr v2 4)) in
          if is_pad c3 then
            if (is_pad c4 && is_empty r)%bool then Some [o1] else None
          else
            match sextet c3 with
            | None => None
            | Some v3 =>
                let o2 := z2b (Z.lor (Z.shiftl v2 4) (Z.shiftr v3 2)) in
                if is_pad c4 then
                  if is_empty r then Some [o1; o2] else None
                else
                  match sextet c4 with
                  | None => None
                  | Some v4 =>
                      let o3 := z2b (Z.lor (Z.shiftl v3 6) v4) in
                      match decode r with
                      | Some t => Some (o1 :: o2 :: o3 :: t)
                      | None => None
                      end
                  end
            end
      | _, _ => None
      end
  | _ => None
  end.

End base64.

(* ===================================================================== *)
(** ** encoding/json                                                      *)
(* ===================================================================== *)

Module json.
Import ascii_class.

Definition SyntaxError : error := LibErr "json: syntax error".
Definition UnmarshalTypeError : error :=
  LibErr "json: cannot unmarshal value into Go value of that type".
Definition EOF : error := LibErr "EOF".
Definition UnmodelledEscape : error :=
  LibErr "json: unicode escape (outside the modelled fragment)".

Definition dquote : ascii := ascii_of_nat 34.
Definition backslash : ascii := ascii_of_nat 92.

Definition str1 (c : ascii) : string := String c EmptyString.

(** A scanned JSON value.  Every child carries its raw text, the slice of
    the input that [encoding/json] hands to an [UnmarshalJSON] method. *)
#[warnings="-register-all"]
Inductive tree : Type :=
| TNull
| TTrue
| TFalse
| TNumber (lit : string)
| TString (body : string)
| TArray (elems : list (string * tree))
| TObject (members : list (string * (string * tree))).

(** Leading white space, and what follows it. *)
Fixpoint span_space (s : string) : string * string :=
  match s with
  | String c r =>
      if is_space c then let '(w, r') := span_space r in (String c w, r')
      else (EmptyString, s)
  | EmptyString => (EmptyString, EmptyString)
  end.

Definition skip_space (s : string) : string := snd (span_space s).

Fixpoint span_digits (s : string) : string * string :=
  match s with
  | String c r =>
      if is_digit c then let '(d, r') := span_digits r in (String c d, r')
      else (EmptyString, s)
  | EmptyString => (EmptyString, EmptyString)
  end.

(** One or more digits. *)
Definition scan_digits1 (s : string) : option (string * string) :=
  match span_digits s with
  | (EmptyString, _) => None
  | (d, r) => Some (d, r)
  end.

(** Integer part of a number: a single 0, or a non-zero digit and digits. *)
Definition scan_int (s : string) : option (string * string) :=
  match s with
  | String c r =>
      if Ascii.eqb c "0" then Some (str1 c, r)
      else if is_digit c then
        let '(d, r') := span_digits r in Some (String c d, r')
      else None
  | EmptyString => None
  end.

Definition scan_frac (s : string) : option (string * string) :=
  match s with
  | String c r =>
      if Ascii.eqb c "." then
        match scan_digits1 r with
        | Some (d, r') => Some (String c d, r')
        | None => None
        end
      else Some (EmptyString, s)
  | EmptyString => Some (EmptyString, s)
  end.

Definition scan_exp (s : string) : option (string * string) :=
  match s with
  | String c r =>
      if (Ascii.eqb c "e" || Ascii.eqb c "E")%bool then
        let '(sg, r1) :=
          match r with
          | String c1 r1 =>
              if (Ascii.eqb c1 "+" || Ascii.eqb c1 "-")%bool
              then (str1 c1, r1) else (EmptyString, r)
          | EmptyString => (EmptyString, r)
          end in
        match scan_digits1 r1 with
        | Some (d, r2) => Some (String c (sg +:+ d), r2)
        | None => None
        end
      else Some (EmptyString, s)
  | EmptyString => Some (EmptyString, s)
  end.

(** A number literal: [-? int frac? exp?]. *)
Definition scan_number (s : string) : option (string * string) :=
  let '(m, s1) :=
    match s with
    | String c r => if Ascii.eqb c "-" then (str1 c, r) else (EmptyString, s)
    | EmptyString => (EmptyString, s)
    end in
  match scan_int s1 with
  | None => None
  | Some (i, s2) =>
      match scan_frac s2 with
      | None => None
      | Some (f, s3) =>
          match scan_exp s3 with
          | None => None
          | Some (e, s4) => Some (m +:+ i +:+ f +:+ e, s4)
          end
      end
  end.

Definition is_simple_escape (c : ascii) : bool :=
  (Ascii.eqb c dquote || Ascii.eqb c backslash || Ascii.eqb c "/"
   || Ascii.eqb c "b" || Ascii.eqb c "f" || Ascii.eqb c "n"
   || Ascii.eqb c "r" || Ascii.eqb c "t")%bool.

(** Body of a string literal, after the opening quote: the raw body (with
    its escapes) and what follows the closing quote. *)
Fixpoint scan_string_body (s : string) : option (string * string) :=
  match s with
  | EmptyString => None
  | String c r =>
      if Ascii.eqb c dquote then Some (EmptyString, r)
      else if Ascii.eqb c backslash then
        match r with
        | String e r1 =>
            if is_simple_escape e then
              match scan_string_body r1 with
              | Some (b, r2) => Some (String c (String e b), r2)
              | None => None
              end
            else if Ascii.eqb e "u" then
              match r1 with
              | String h1 (String h2 (String h3 (String h4 r2))) =>
                  if (is_hex h1 && is_hex h2 && is_hex h3 && is_hex h4)%bool then
                    match scan_string_body r2 with
                    | Some (b, r3) =>
                        Some (String c (String e (String h1 (String h2
                                (String h3 (String h4 b))))), r3)
                    | None => None
                    end
                  else None
              | _ => None
              end
            else None
        | EmptyString => None
        end
      else if Nat.ltb (code c) 32 then None
      else
        match scan_string_body r with
        | Some (b, r1) => Some (String c b, r1)
        | None => None
        end
  end.

(** The text of a string literal's body; [None] on a unicode escape. *)
Fixpoint unquote (body : string) : option string :=
  match body with
  | EmptyString => Some EmptyString
  | String c r =>
      if Ascii.eqb c backslash then
        match r with
        | String e r1 =>
            let put (x : ascii) := option_map (String x) (unquote r1) in
            if (Ascii.eqb e dquote || Ascii.eqb e backslash || Ascii.eqb e "/")%bool
            then put e
            else if Ascii.eqb e "b" then put (ascii_of_nat 8)
            else if Ascii.eqb e "f" then put (ascii_of_nat 12)
            else if Ascii.eqb e "n" then put (ascii_of_nat 10)
            else if Ascii.eqb e "r" then put (ascii_of_nat 13)
            else if Ascii.eqb e "t" then put (ascii_of_nat 9)
            else None
        | EmptyString => None
        end
      else option_map (String c) (unquote r)
  end.

Fixpoint strip_prefix (p s : string) : option string :=
  match p, s with
  | EmptyString, _ => Some s
  | String a p', String b s' => if Ascii.eqb a b then strip_prefix p' s' else None
  | String _ _, EmptyString => None
  end.

Definition scan_literal (lit : string) (t : tree) (s : string)
  : option (tree * string * string) :=
  match strip_prefix lit s with
  | Some rest => Some (t, lit, rest)
  | None => None
  end.

(** The scanner: one value at the head of [s], its raw text and the rest
    of the input.  [parse_items] and [parse_members] stand after the
    opening bracket and white space, with at least one element to come,
    and read through the closing bracket. *)
Fixpoint parse_value (fuel : nat) (s : string) {struct fuel}
  : option (tree * string * string) :=
  match fuel with
  | O => None
  | S fuel =>
      match s with
      | EmptyString => None
      | String c r =>
          if Ascii.eqb c dquote then
            match scan_string_body r with
            | Some (b, r1) => Some (TString b, String c (b +:+ str1 dquote), r1)
            | None => None
            end
          else if Ascii.eqb c "[" then
            let '(w, r1) := span_space r in
            match r1 with
            | String c1 r2 =>
                if Ascii.eqb c1 "]" then Some (TArray [], String c (w +:+ str1 c1), r2)
                else
                  match parse_items fuel r1 with
                  | Some (es, t, r3) => Some (TArray es, String c (w +:+ t), r3)
                  | None => None
                  end
            | EmptyString => None
            end
          else if Ascii.eqb c "{" then
            let '(w, r1) := span_space r in
            match r1 with
            | String c1 r2 =>
                if Ascii.eqb c1 "}" then Some (TObject [], String c (w +:+ str1 c1), r2)
                else
                  match parse_members fuel r1 with
                  | Some (ms, t, r3) => Some (TObject ms, String c (w +:+ t), r3)
                  | None => None
                  end
            | EmptyString => None
            end
          else if Ascii.eqb c "t" then scan_literal "true" TTrue s
          else if Ascii.eqb c "f" then scan_literal "false" TFalse s
          else if Ascii.eqb c "n" then scan_literal "null" TNull s
          else
            match scan_number s with
            | Some (lit, r1) => Some (TNumber lit, lit, r1)
            | None => None
            end
      end
  end
with parse_items (fuel : nat) (s : string) {struct fuel}
  : option (list (string * tree) * string * string) :=
  match fuel with
  | O => None
  | S fuel =>
      match parse_value fuel s with
      | None => None
      | Some (t, raw, r) =>
          let '(w, r1) := span_space r in
          match r1 with
          | String c r2 =>
              if Ascii.eqb c "," then
                let '(w2, r3) := span_space r2 in
                match parse_items fuel r3 with
                | Some (es, txt, r4) =>
                    Some ((raw, t) :: es, raw +:+ w +:+ String c (w2 +:+ txt), r4)
                | None => None
                end
              else if Ascii.eqb c "]" then
                Some ([(raw, t)], raw +:+ w +:+ str1 c, r2)
              else None
          | EmptyString => None
          end
      end
  end
with parse_members (fuel : nat) (s : string) {struct fuel}
  : option (list (string * (string * tree)) * string * string) :=
  match fuel with
  | O => None
  | S fuel =>
      match s with
      | String q r =>
          if Ascii.eqb q dquote then
            match scan_string_body r with
            | None => None
            | Some (k, r1) =>
                let '(w1, r2) := span_space r1 in
                match r2 with
                | String cl r3 =>
                    if Ascii.eqb cl ":" then
                      let '(w2, r4) := span_space r3 in
                      match parse_value fuel r4 with
                      | None => None
                      | Some (t, raw, r5) =>
                          let '(w3, r6) := span_space r5 in
                          let head :=
                            String q (k +:+ str1 dquote) +:+ w1
                            +:+ String cl (w2 +:+ raw +:+ w3) in
                          match r6 with
                          | String c r7 =>
                              if Ascii.eqb c "," then
                                let '(w4, r8) := span_space r7 in
                                match parse_members fuel r8 with
                                | Some (ms, txt, r9) =>
                                    Some ((k, (raw, t)) :: ms,
                                          head +:+ String c (w4 +:+ txt), r9)
                                | None => None
                                end
                              else if Ascii.eqb c "}" then
                                Some ([(k, (raw, t))], head +:+ str1 c, r7)
                              else None
                          | EmptyString => None
                          end
                      end
                    else None
                | EmptyString => None
                end
            end
          else None
      | EmptyString => None
      end
  end.

(** Enough fuel for any input: a call either consumes a character or is
    followed by one that does. *)
Definition fuel_for (s : string) : nat := S (2 * String.length s).

Definition is_scalar (t : tree) : bool :=
  match t with
  | TArray _ | TObject _ | TString _ => false
  | _ => true
  end.

(** A string, an array or an object ends at its closing character; a
    number or a literal ends where something that cannot continue it
    begins, which must be white space, a comma or a closing bracket, or
    the end of the input. *)
Definition delimited (rest : string) : bool :=
  match rest with
  | EmptyString => true
  | String c _ =>
      (is_space c || Ascii.eqb c "," || Ascii.eqb c "]" || Ascii.eqb c "}")%bool
  end.

(** The whole of [data] is one value, white space around it allowed:
    what [json.Unmarshal] checks before it decodes. *)
Definition parse_document (data : string) : option tree :=
  match parse_value (fuel_for data) (skip_space data) with
  | Some (t, _, rest) =>
      match skip_space rest with
      | EmptyString => Some t
      | _ => None
      end
  | None => None
  end.

(** [json.Unmarshal(data, &b)] for [b []byte]: null leaves the slice nil,
    a string is base64, an array holds one number in 0..255 per element
    (a null element leaves the zero byte). *)
Definition decode_byte (e : string * tree) : Result byte :=
  match snd e with
  | TNull => Ok x00
  | TNumber lit =>
      match strconv.ParseUint lit 64 with
      | Ok n =>
          match Byte.of_N (Z.to_N n) with
          | Some b => Ok b
          | None => Err UnmarshalTypeError
          end
      | Err _ => Err UnmarshalTypeError
      end
  | _ => Err UnmarshalTypeError
  end.

Fixpoint decode_all {A B : Type} (f : A -> Result B) (l : list A)
  : Result (list B) :=
  match l with
  | [] => Ok []
  | x :: r =>
      match f x, decode_all f r with
      | Ok y, Ok ys => Ok (y :: ys)
      | Err e, _ => Err e
      | _, Err e => Err e
      end
  end.

Definition Unmarshal_bytes (data : string) : Result (list byte) :=
  match parse_document data with
  | None => Err SyntaxError
  | Some TNull => Ok []
  | Some (TString body) =>
      match unquote body with
      | None => Err UnmodelledEscape
      | Some s =>
          match base64.decode s with
          | Some b => Ok b
          | None => Err (LibErr "illegal base64 data")
          end
      end
  | Some (TArray es) => decode_all decode_byte es
  | Some _ => Err UnmarshalTypeError
  end.

(** [json.Unmarshal(data, &v)] for [v []string]. *)
Definition decode_string (e : string * tree) : Result string :=
  match snd e with
  | TNull => Ok EmptyString
  | TString body =>
      match unquote body with
      | Some s => Ok s
      | None => Err UnmodelledEscape
      end
  | _ => Err UnmarshalTypeError
  end.

Definition Unmarshal_strings (data : string) : Result (list string) :=
  match parse_document data with
  | None => Err SyntaxError
  | Some TNull => Ok []
  | Some (TArray es) => decode_all decode_string es
  | Some _ => Err UnmarshalTypeError
  end.

(** [Decoder.Decode]: the first value of the stream; what follows it is
    left unread. *)
Definition read_value (body : string) : Result tree :=
  match skip_space body with
  | EmptyString => Err EOF
  | s =>
      match parse_value (fuel_for s) s with
      | Some (t, _, rest) =>
          if (negb (is_scalar t) || delimited rest)%bool then Ok t
          else Err SyntaxError
      | None => Err SyntaxError
      end
  end.

End json.

(** Test bodies are written with an apostrophe where the wire has a double
    quote; [wire] puts the double quotes in. *)
Fixpoint wire (s : string) : string :=
  match s with
  | EmptyString => EmptyString
  | String c r => String (if Ascii.eqb c "'" then json.dquote else c) (wire r)
  end.

Definition show_Z (z : Z) : string := NilEmpty.string_of_int (Z.to_int z).

(** Go's [any]: the dynamically typed values that occur as log attributes,
    point fields and row cells. *)
Inductive any : Type :=
| AnyNil
| AnyString (s : string)
| AnyStrings (l : list string)
| AnyInt (n : Z)
| AnyFloat32 (f : float32)
| AnyFloat64 (bits : Z)
| AnyTime (t : time.Time)
| AnyError (e : error).

(* ===================================================================== *)
(** ** package client                                                     *)
(* ===================================================================== *)

Module client.
Import ascii_class.

(** [Value[T]]: a value and whether it has been processed. *)
Record Value (T : Type) : Type := mkValue {
  Value_Value : T;
  Value_Processed : bool
}.
Arguments mkValue {T} _ _.
Arguments Value_Value {T} _.
Arguments Value_Processed {T} _.

Definition DataPointTime : Type := Value time.Time.
Definition DataPointValue : Type := Value float32.

Record DataPoint : Type := mkDataPoint {
  DataPoint_Time : DataPointTime;
  DataPoint_Value : DataPointValue;
  DataPoint_Tags : Value (list string)
}.

(** The zero value [DataPoint{}]. *)
Definition zero : DataPoint :=
  {| DataPoint_Time := mkValue (time.mkTime 0 0) false;
     DataPoint_Value := mkValue 0 false;
     DataPoint_Tags := mkValue [] false |}.

Definition IsValid (dp : DataPoint) : bool * option error :=
  if negb (Value_Processed (DataPoint_Time dp)) then
    (false, Some (New "time field is not Processed"))
  else if negb (Value_Processed (DataPoint_Value dp)) then
    (false, Some (New "value field is not Processed"))
  else if negb (Value_Processed (DataPoint_Tags dp)) then
    (false, Some (New "tags field is not Processed"))
  else (true, None).

(** [Value[[]string].UnmarshalJSON] *)
Definition Value_UnmarshalJSON (data : string) : Result (Value (list string)) :=
  match json.Unmarshal_strings data with
  | Err err =>
      Err (Errorf ("failed to unmarshal value, raw: " +:+ data +:+ ", err:") err)
  | Ok v => Ok {| Value_Value := v; Value_Processed := true |}
  end.

Definition DataPointTime_UnmarshalJSON (data : string) : Result DataPointTime :=
  match strconv.ParseInt data with
  | Err err =>
      Err (Errorf ("failed to parse DataPointTime, raw: " +:+ data +:+ ", err:") err)
  | Ok ts => Ok {| Value_Value := time.Unix ts; Value_Processed := true |}
  end.

Definition DataPointValue_UnmarshalJSON (data : string) : Result DataPointValue :=
  match json.Unmarshal_bytes data with
  | Err err =>
      Err (Errorf ("failed to unmarshal DataPointValue, raw: " +:+ data +:+ ", err:") err)
  | Ok b =>
      if negb (Nat.eqb (List.length b) 4) then
        Err (New ("invalid data length for DataPointValue, expected 4 bytes, got "
                  +:+ show_nat (String.length data) +:+ " bytes"))
      else
        match binary.LittleEndian_Uint32 b with
        | Some bits =>
            Ok {| Value_Value := math.Float32frombits bits; Value_Processed := true |}
        | None => Err (LibErr "panic: index out of range")
        end
  end.

(** What [encoding/json] does with one member of the object when it
    decodes into a [DataPoint]: the key selects a field without regard to
    case, the field's [UnmarshalJSON] gets the member's raw text, and a
    member that matches no field is skipped. *)
Definition decode_member (dp : DataPoint) (m : string * (string * json.tree))
  : Result DataPoint :=
  match json.unquote (fst m) with
  | None => Err json.UnmodelledEscape
  | Some key =>
      let k := lower_string key in
      let raw := fst (snd m) in
      if String.eqb k "time" then
        match DataPointTime_UnmarshalJSON raw with
        | Ok t => Ok {| DataPoint_Time := t;
                        DataPoint_Value := DataPoint_Value dp;
                        DataPoint_Tags := DataPoint_Tags dp |}
        | Err e => Err e
        end
      else if String.eqb k "value" then
        match DataPointValue_UnmarshalJSON raw with
        | Ok v => Ok {| DataPoint_Time := DataPoint_Time dp;
                        DataPoint_Value := v;
                        DataPoint_Tags := DataPoint_Tags dp |}
        | Err e => Err e
        end
      else if String.eqb k "tags" then
        match Value_UnmarshalJSON raw with
        | Ok tg => Ok {| DataPoint_Time := DataPoint_Time dp;
                         DataPoint_Value := DataPoint_Value dp;
                         DataPoint_Tags := tg |}
        | Err e => Err e
        end
      else Ok dp
  end.

Fixpoint decode_members (dp : DataPoint) (ms : list (string * (string * json.tree)))
  : Result DataPoint :=
  match ms with
  | [] => Ok dp
  | m :: rest =>
      match decode_member dp m with
      | Ok dp' => decode_members dp' rest
      | Err e => Err e
      end
  end.

(** [json.NewDecoder(r).Decode(&datapoint)] *)
Definition Decode (body : string) (dp : DataPoint) : Result DataPoint :=
  match json.read_value body with
  | Err e => Err e
  | Ok (json.TObject ms) => decode_members dp ms
  | Ok json.TNull => Ok dp
  | Ok _ => Err json.UnmarshalTypeError
  end.

Definition decodeDatapointBody (r : string) : Result DataPoint :=
  let datapoint := zero in
  match Decode r datapoint with
  | Err err => Err (Errorf "failed to decode response body, " err)
  | Ok datapoint =>
      match IsValid datapoint with
      | (false, Some err) => Err (Errorf "invalid datapoint received: " err)
      | (false, None) => Err (Errorf "invalid datapoint received: " (LibErr "<nil>"))
      | (true, _) => Ok datapoint
      end
  end.

(** What the transport gives back for the one GET of a fetch. *)
Inductive http_outcome : Type :=
| RequestError (err : error)
| TransportError (err : error)
| Response (StatusCode : Z) (Body : string).

Definition StatusOK : Z := 200.

(** [DataServerClient.DataPoint] *)
Definition DataPoint_fetch (o : http_outcome) : Result DataPoint :=
  match o with
  | RequestError err => Err (Errorf "failed to create request, " err)
  | TransportError err => Err (Errorf "failed to perform request, " err)
  | Response code body =>
      if negb (code =? StatusOK) then
        Err (New ("unexpected status code: " +:+ show_Z code))
      else
        match decodeDatapointBody body with
        | Err err => Err (Errorf "failed to decode datapoint body, " err)
        | Ok datapoint =>
            match IsValid datapoint with
            | (false, Some err) => Err (Errorf "invalid datapoint received: " err)
            | (false, None) => Err (Errorf "invalid datapoint received: " (LibErr "<nil>"))
            | (true, _) => Ok datapoint
            end
        end
  end.

End client.

(* ===================================================================== *)
(** ** package dto                                                        *)
(* ===================================================================== *)

Module dto.

Record DataPoint : Type := mkDataPoint {
  Time : time.Time;
  Value : float32;
  Tags : list string;
  ReceivedAt : time.Time
}.

End dto.

(* ===================================================================== *)
(** ** The world the pipeline runs in                                     *)
(* ===================================================================== *)

Module influxdb3.

(** [influxdb3.NewPoint(measurement, tags, fields, ts)] *)
Record Point : Type := NewPoint {
  Measurement : string;
  PointTags : gmap string string;
  Fields : gmap string any;
  Timestamp : time.Time
}.

Definition Row : Type := gmap string any.

End influxdb3.

Record LogRecord : Type := mkLog {
  log_level : string;
  log_msg : string;
  log_attrs : list (string * any)
}.

(** What the surroundings answer: the producer, the wall clock (its n-th
    reading), and the store (whether the n-th [WritePoints] call fails, and
    what a query returns). *)
Record Env : Type := mkEnv {
  producer : client.http_outcome;
  wall_clock : nat -> time.Time;
  store_write : nat -> list influxdb3.Point -> option error;
  store_query : string -> gmap string time.Time -> Result (list influxdb3.Row)
}.

(** What the program has done so far. *)
Record World : Type := mkWorld {
  clock_reads : nat;
  writes : list (list influxdb3.Point);
  logs : list LogRecord
}.

Definition world0 : World := {| clock_reads := 0; writes := []; logs := [] |}.

Definition M (A : Type) : Type := Env -> World -> A * World.

Definition ret {A : Type} (a : A) : M A := fun _ w => (a, w).

Definition bind {A B : Type} (m : M A) (k : A -> M B) : M B :=
  fun env w => let '(a, w') := m env w in k a env w'.

Notation "x <- m ;; k" := (bind m (fun x => k))
  (at level 100, m at next level, right associativity).

(** [time.Now()] *)
Definition Now : M time.Time :=
  fun env w =>
    (wall_clock env (clock_reads w),
     {| clock_reads := S (clock_reads w); writes := writes w; logs := logs w |}).

(** [logger.InfoContext(ctx, msg, attrs...)] *)
Definition InfoContext (msg : string) (attrs : list (string * any)) : M unit :=
  fun _ w =>
    (tt, {| clock_reads := clock_reads w; writes := writes w;
            logs := logs w ++ [mkLog "INFO" msg attrs] |}).

(** [client.WritePoints(ctx, points)] *)
Definition WritePoints (points : list influxdb3.Point) : M (option error) :=
  fun env w =>
    (store_write env (List.length (writes w)) points,
     {| clock_reads := clock_reads w; writes := writes w ++ [points];
        logs := logs w |}).

(** [client.QueryWithParameters(ctx, query, parameters)] *)
Definition QueryWithParameters (query : string) (parameters : gmap string time.Time)
  : M (Result (list influxdb3.Row)) :=
  fun env w => (store_query env query parameters, w).

(** [dataServerClient.DataPoint(ctx)] *)
Definition fetch : M (Result client.DataPoint) :=
  fun env w => (client.DataPoint_fetch (producer env), w).

(* ===================================================================== *)
(** ** package iter                                                       *)
(* ===================================================================== *)

Module iter.

(** The rows that the query iterator has still to deliver, in its order:
    [Next] steps to the following one. *)
Definition DataPointIter : Type := list influxdb3.Row.

Definition NewDataPointIter (rows : list influxdb3.Row) : DataPointIter := rows.

Section Value.
(** The conversion [float32(val)] of a float64. *)
Variable narrow : Z -> float32.

(** [DataPointIter.Value], on the current row. *)
Definition Value (row : influxdb3.Row) : Result dto.DataPoint :=
  match row !! "time" with
  | Some (AnyTime t) =>
      match row !! "value" with
      | Some (AnyFloat64 val) =>
          Ok {| dto.Time := t; dto.Value := narrow val;
                dto.Tags := []; dto.ReceivedAt := time.mkTime 0 0 |}
      | _ => Err (New "failed to parse value from iterator")
      end
  | _ => Err (New "failed to parse time from iterator")
  end.
End Value.

End iter.

(* ===================================================================== *)
(** ** package repository                                                 *)
(* ===================================================================== *)

Module repository.

Definition write (point : dto.DataPoint) (table : string) : M (option error) :=
  err <- WritePoints
           [influxdb3.NewPoint table ∅
              (<["value" := AnyFloat32 (dto.Value point)]>
                 (<["tags" := AnyStrings (dto.Tags point)]>
                    (<["received_at" := AnyTime (dto.ReceivedAt point)]> ∅)))
              (dto.Time point)] ;;
  match err with
  | Some err => ret (Some (Join (New "failed to write datapoint") err))
  | None => ret None
  end.

Definition Write (point : dto.DataPoint) : M (option error) :=
  write point "datapoint".

Definition WriteDiscard (point : dto.DataPoint) : M (option error) :=
  write point "datapoint_discarded".

(** The statement and the parameters that [Query] hands to the store. *)
Definition Query_statement (start until : option time.Time)
  : string * gmap string time.Time :=
  let query := "SELECT * FROM datapoint" in
  let parameters : gmap string time.Time := ∅ in
  let '(query, parameters) :=
    match start with
    | Some t => (query +:+ " WHERE time >= $start", <["start" := t]> parameters)
    | None => (query, parameters)
    end in
  let '(query, parameters) :=
    match until with
    | Some t => (query +:+ " AND time <= $until", <["until" := t]> parameters)
    | None => (query, parameters)
    end in
  (query +:+ " ORDER BY time DESC", parameters).

Definition Query (start until : option time.Time) : M (Result iter.DataPointIter) :=
  let '(query, parameters) := Query_statement start until in
  r <- QueryWithParameters query parameters ;;
  match r with
  | Err err => ret (Err (Join (New "failed to execute query") err))
  | Ok resultIter => ret (Ok (iter.NewDataPointIter resultIter))
  end.

End repository.

(* ===================================================================== *)
(** ** package usecase                                                    *)
(* ===================================================================== *)

Module usecase.

Definition Read : M (Result client.DataPoint) :=
  r <- fetch ;;
  match r with
  | Err err => ret (Err (Errorf "failed to get datapoint from data server: " err))
  | Ok dp => ret (Ok dp)
  end.

Definition point_of (dp : client.DataPoint) (received : time.Time) : dto.DataPoint :=
  {| dto.Time := client.Value_Value (client.DataPoint_Time dp);
     dto.Value := client.Value_Value (client.DataPoint_Value dp);
     dto.Tags := client.Value_Value (client.DataPoint_Tags dp);
     dto.ReceivedAt := received |}.

(** The loop of [Collect] over the tags that are still to be looked at,
    and the write that follows it. *)
Fixpoint Collect_tags (dp : client.DataPoint) (tags : list string) : M (option error) :=
  match tags with
  | value :: rest =>
      if (String.eqb value "system" || String.eqb value "suspect")%bool then
        _ <- InfoContext "Dropping datapoint"
               [("tag", AnyString value);
                ("t", AnyTime (client.Value_Value (client.DataPoint_Time dp)))] ;;
        now <- Now ;;
        repository.WriteDiscard (point_of dp now)
      else Collect_tags dp rest
  | [] =>
      now <- Now ;;
      repository.Write (point_of dp now)
  end.

Definition Collect : M (option error) :=
  r <- Read ;;
  match r with
  | Err err => ret (Some (Errorf "failed to read datapoint: " err))
  | Ok dp =>
      now <- Now ;;
      if time.Before (client.Value_Value (client.DataPoint_Time dp))
                     (time.Add now (-1 * time.Hour)) then
        _ <- InfoContext "Dropping datapoint"
               [("reason", AnyString "timestamp too old");
                ("t", AnyTime (client.Value_Value (client.DataPoint_Time dp)))] ;;
        now' <- Now ;;
        repository.WriteDiscard (point_of dp now')
      else
        Collect_tags dp (client.Value_Value (client.DataPoint_Tags dp))
  end.

Definition Query (start until : option time.Time) : M (Result iter.DataPointIter) :=
  r <- repository.Query start until ;;
  match r with
  | Err err => ret (Err (Errorf "failed to query datapoints: " err))
  | Ok resultIter => ret (Ok resultIter)
  end.

End usecase.

(* ===================================================================== *)
(** ** package http (transport)                                           *)
(* ===================================================================== *)

Module http.

Record DataPointModel : Type := mkModel { Time : string; Value : float32 }.

Record DataPointQueryParams : Type := mkParams {
  Start : option string;
  Until : option string
}.

Definition StatusBadRequest : Z := 400.
Definition StatusInternalServerError : Z := 500.

(** The response writer: the content type set on it, the bytes it has
    taken, and how many [Write] calls it has seen. *)
Record ResponseWriter : Type := mkWriter {
  content_type : option string;
  body : string;
  write_calls : nat
}.

Definition writer0 : ResponseWriter :=
  {| content_type := None; body := EmptyString; write_calls := 0 |}.

(** How a request ends: an error envelope rendered with a status, or
    whatever reached the writer when the handler returned. *)
Inductive Reply : Type :=
| ReplyError (status : Z) (message : string)
| ReplyStream (w : ResponseWriter).

Section handler.
(** [time.Parse(time.RFC3339, s)] and [t.Format(time.RFC3339)]. *)
Variable parse_rfc3339 : string -> Result time.Time.
Variable format_rfc3339 : time.Time -> string.
(** The sonic encoder, configured without the trailing newline: the
    bytes of one item, or an encoding error. *)
Variable marshal : DataPointModel -> option string.
Variable narrow : Z -> float32.
(** Whether the n-th [Write] on the response writer goes through. *)
Variable write_ok : nat -> bool.

Definition Write (w : ResponseWriter) (data : string) : Result ResponseWriter :=
  if write_ok (write_calls w) then
    Ok {| content_type := content_type w; body := body w +:+ data;
          write_calls := S (write_calls w) |}
  else Err (LibErr "write failed").

Definition Encode (w : ResponseWriter) (v : DataPointModel) : Result ResponseWriter :=
  match marshal v with
  | None => Err (LibErr "sonic: unsupported value")
  | Some bytes => Write w bytes
  end.

Definition parseTime (timeStr : option string) : Result (option time.Time) :=
  match timeStr with
  | None => Ok None
  | Some s =>
      match parse_rfc3339 s with
      | Err err => Err (Errorf "failed to parse time: " err)
      | Ok t => Ok (Some t)
      end
  end.

Definition ErrorContext (msg : string) (attrs : list (string * any)) : M unit :=
  fun _ w =>
    (tt, {| clock_reads := clock_reads w; writes := writes w;
            logs := logs w ++ [mkLog "ERROR" msg attrs] |}).

(** The loop [for resultIter.Next() { ... }] over the rows still to come,
    with the counter [i] and the writer.  The flag of the result says
    whether the loop ran to its end ([true]) or the handler returned
    from inside it ([false]). *)
Fixpoint stream_rows (resultIter : iter.DataPointIter) (i : nat) (w : ResponseWriter)
  : M (ResponseWriter * bool) :=
  match resultIter with
  | [] => ret (w, true)
  | row :: rest =>
      match iter.Value narrow row with
      | Err err =>
          _ <- ErrorContext "Error retrieving item"
                 [("iter_counter", AnyInt (Z.of_nat i)); ("error", AnyError err)] ;;
          stream_rows rest i w
      | Ok dp =>
          let comma :=
            if Nat.ltb 0 i then Write w "," else Ok w in
          match comma with
          | Err err =>
              _ <- ErrorContext "Error writing response comma"
                     [("error", AnyError err)] ;;
              ret (w, false)
          | Ok w1 =>
              match Encode w1 {| Time := format_rfc3339 (dto.Time dp);
                                 Value := dto.Value dp |} with
              | Err err =>
                  _ <- ErrorContext "Error encoding response item"
                         [("error", AnyError err)] ;;
                  ret (w1, false)
              | Ok w2 => stream_rows rest (S i) w2
              end
          end
      end
  end.

Definition DataPointQuery (params : DataPointQueryParams) : M Reply :=
  match parseTime (Start params) with
  | Err err =>
      ret (ReplyError StatusBadRequest
             (error_message (Errorf "failed to parse start time: " err)))
  | Ok start =>
      match parseTime (Until params) with
      | Err err =>
          ret (ReplyError StatusBadRequest
                 (error_message (Errorf "failed to parse until time: " err)))
      | Ok until =>
          r <- usecase.Query start until ;;
          match r with
          | Err err =>
              ret (ReplyError StatusInternalServerError
                     (error_message (Errorf "failed to query datapoints: " err)))
          | Ok resultIter =>
              let w := {| content_type := Some "application/json";
                          body := body writer0;
                          write_calls := write_calls writer0 |} in
              match Write w "[" with
              | Err err =>
                  _ <- ErrorContext "Error writing response start"
                         [("error", AnyError err)] ;;
                  ret (ReplyStream w)
              | Ok w1 =>
                  res <- stream_rows resultIter 0 w1 ;;
                  let '(w2, finished) := res in
                  if finished then
                    match Write w2 "]" with
                    | Err err =>
                        _ <- ErrorContext "Error writing response end"
                               [("error", AnyError err)] ;;
                        ret (ReplyStream w2)
                    | Ok w3 => ret (ReplyStream w3)
                    end
                  else ret (ReplyStream w2)
              end
          end
      end
  end.
End handler.

End http.

(* ===================================================================== *)
(** ** The shape of a SELECT statement                                    *)
(* ===================================================================== *)

(** The statement language of the store, as far as [repository.Query] uses
    it: [SELECT * FROM table [WHERE cond {AND cond}] ORDER BY column DESC],
    a condition being [column op $parameter].  This is the yardstick for a
    well-formed statement; it is not code of the repository. *)
Module sql.

Fixpoint words_aux (cur : string) (s : string) : list string :=
  match s with
  | EmptyString => [cur]
  | String c r =>
      if Ascii.eqb c " " then cur :: words_aux EmptyString r
      else words_aux (cur +:+ String c EmptyString) r
  end.

Definition words (s : string) : list string := words_aux EmptyString s.

Definition is_keyword (w : string) : bool :=
  (String.eqb w "SELECT" || String.eqb w "FROM" || String.eqb w "WHERE"
   || String.eqb w "AND" || String.eqb w "ORDER" || String.eqb w "BY"
   || String.eqb w "DESC" || String.eqb w "ASC")%bool.

Definition is_name (w : string) : bool :=
  match w with
  | EmptyString => false
  | String c _ =>
      (negb (is_keyword w) && negb (Ascii.eqb c "$") && negb (Ascii.eqb c "*"))%bool
  end.

Definition is_operator (w : string) : bool :=
  (String.eqb w ">=" || String.eqb w "<=" || String.eqb w "<"
   || String.eqb w ">" || String.eqb w "=")%bool.

Definition parameter_of (w : string) : option string :=
  match w with
  | String c r => if (Ascii.eqb c "$" && is_name r)%bool then Some r else None
  | EmptyString => None
  end.

Definition is_order_by (ws : list string) : bool :=
  match ws with
  | [o; b; col; dir] =>
      (String.eqb o "ORDER" && String.eqb b "BY" && is_name col
       && (String.eqb dir "DESC" || String.eqb dir "ASC"))%bool
  | _ => false
  end.

(** Conditions joined by AND, then the ORDER BY clause: the parameters
    the conditions name, or [None] when the words are not of that form. *)
Fixpoint conditions (ws : list string) : option (list string) :=
  match ws with
  | col :: op :: par :: rest =>
      if (is_name col && is_operator op)%bool then
        match parameter_of par with
        | None => None
        | Some p =>
            match rest with
            | a :: rest' =>
                if String.eqb a "AND" then option_map (cons p) (conditions rest')
                else if is_order_by rest then Some [p] else None
            | [] => None
            end
        end
      else None
  | _ => None
  end.

(** The parameters of a well-formed statement; [None] for anything else. *)
Definition select_parameters (q : string) : option (list string) :=
  match words q with
  | s :: star :: f :: table :: rest =>
      if (String.eqb s "SELECT" && String.eqb star "*" && String.eqb f "FROM"
          && is_name table)%bool then
        match rest with
        | w :: rest' =>
            if String.eqb w "WHERE" then conditions rest'
            else if is_order_by rest then Some [] else None
        | [] => None
        end
      else None
  | _ => None
  end.

(** Well formed, and every parameter it names is bound and every bound
    parameter is named. *)
Definition well_formed (q : string) (parameters : gmap string time.Time) : bool :=
  match select_parameters q with
  | None => false
  | Some ps =>
      (forallb (fun p => bool_decide (is_Some (parameters !! p))) ps
       && forallb (fun k => existsb (String.eqb k) ps)
            (List.map fst (map_to_list parameters)))%bool
  end.

End sql.

(* ===================================================================== *)
(** ** package collector: PeriodicTrigger                                 *)
(* ===================================================================== *)

(** An interleaving semantics.  Goroutines and the callers of [Start] and
    [Stop] are threads with a program point each; a schedule says which
    thread takes the next step.  A step is one statement of the source, so
    that a field of the trigger is read when the statement that names it
    runs.  Channels, once-guards, contexts and tickers live in a heap and
    are named by their location. *)
Module collector.

Local Open Scope nat_scope.

Definition loc : Type := nat.

(** A channel of [struct{}]: capacity, number of buffered elements,
    closed or not. *)
Record chan : Type := mkChan {
  chan_cap : nat;
  chan_len : nat;
  chan_closed : bool
}.

(** A [sync.Once]: untouched; its function running (the mutex is held);
    done. *)
Inductive once : Type := OnceIdle | OnceRunning | OnceDone.

#[global] Instance chan_eq_dec : EqDecision chan := ltac:(solve_decision).
#[global] Instance once_eq_dec : EqDecision once := ltac:(solve_decision).

Record PeriodicTrigger : Type := mkTrigger {
  interval : Z;
  stopCh : loc;
  startOnce : loc;
  stopOnce : loc;
  triggerCtx : loc;
  (** the context that the stored cancel function cancels *)
  triggerCtxCancelFunc : loc
}.

Inductive event : Type :=
| StartCalled (tid : nat)
| StartReturned (tid : nat)
| StopCalled (tid : nat)
| StopReturned (tid : nat)
(** the task is invoked, with a context that is already cancelled or not *)
| TaskBegin (tid : nat) (ctx : loc) (cancelled : bool)
| TaskEnd (tid : nat) (failed : bool)
| Panic (tid : nat).

(** Program points.  [o] is the once-guard the call went through, [t] and
    [d] the ticker and the done channel of a [start], [ch] the channel a
    select has settled on. *)
Inductive pc : Type :=
(* Start() *)
| AtStartDo                                  (* pt.startOnce.Do(pt.start) *)
| AtFirstCall (o : loc)                      (* err := pt.triggerFn(pt.triggerCtx) *)
| InFirstCall (o : loc)
| AtNewTicker (o : loc)                      (* NewTicker; make(chan struct{}) *)
| AtGo (o t d : loc)                         (* go func() {...}() *)
| AtLoopSelect (o t d : loc)                 (* for { select {...} } *)
| InTickCall (o t d : loc)
(* the goroutine of start *)
| AtListenSelect (t d : loc)                 (* select { case <-pt.stopCh: *)
| AtListenRecv (ch t d : loc)
| AtListenCancel (t d : loc)                 (* pt.triggerCtxCancelFunc() *)
| AtListenTickerStop (t d : loc)             (* ticker.Stop() *)
| AtListenDone (t d : loc)                   (* <-doneCh *)
(* Stop() *)
| AtStopDo                                   (* pt.stopOnce.Do(pt.stop) *)
| AtStopSend (o : loc)                       (* pt.stopCh <- struct{}{} *)
| AtStopClose (o : loc)                      (* close(pt.stopCh) *)
| AtReset1 (o : loc)                         (* pt.stopCh = make(chan struct{}, 1) *)
| AtReset2 (o : loc)                         (* pt.startOnce = &sync.Once{} *)
| AtReset3 (o : loc)                         (* pt.stopOnce = &sync.Once{} *)
| AtReset4 (o : loc)                         (* pt.triggerCtx, ... = WithCancel *)
| AtStopUnlock (o : loc)                     (* stop returned: the guard is done *)
(* all *)
| Returned
| Panicked.

Record State : Type := mkState {
  pt : PeriodicTrigger;
  chans : gmap loc chan;
  onces : gmap loc once;
  ctxs : gmap loc bool;          (* cancelled? *)
  tickers : gmap loc bool;       (* stopped? *)
  next : loc;
  threads : list pc;
  trace : list event;
  crashed : bool
}.

Definition set_pt (f : PeriodicTrigger -> PeriodicTrigger) (st : State) : State :=
  mkState (f (pt st)) (chans st) (onces st) (ctxs st) (tickers st) (next st)
          (threads st) (trace st) (crashed st).
Definition set_chans (m : gmap loc chan) (st : State) : State :=
  mkState (pt st) m (onces st) (ctxs st) (tickers st) (next st)
          (threads st) (trace st) (crashed st).
Definition set_onces (m : gmap loc once) (st : State) : State :=
  mkState (pt st) (chans st) m (ctxs st) (tickers st) (next st)
          (threads st) (trace st) (crashed st).
Definition set_ctxs (m : gmap loc bool) (st : State) : State :=
  mkState (pt st) (chans st) (onces st) m (tickers st) (next st)
          (threads st) (trace st) (crashed st).
Definition set_tickers (m : gmap loc bool) (st : State) : State :=
  mkState (pt st) (chans st) (onces st) (ctxs st) m (next st)
          (threads st) (trace st) (crashed st).
Definition bump (st : State) : State :=
  mkState (pt st) (chans st) (onces st) (ctxs st) (tickers st) (S (next st))
          (threads st) (trace st) (crashed st).
Definition goto (tid : nat) (p : pc) (st : State) : State :=
  mkState (pt st) (chans st) (onces st) (ctxs st) (tickers st) (next st)
          (<[tid := p]> (threads st)) (trace st) (crashed st).
Definition spawn (p : pc) (st : State) : State :=
  mkState (pt st) (chans st) (onces st) (ctxs st) (tickers st) (next st)
          (threads st ++ [p]) (trace st) (crashed st).
Definition emit (e : event) (st : State) : State :=
  mkState (pt st) (chans st) (onces st) (ctxs st) (tickers st) (next st)
          (threads st) (trace st ++ [e]) (crashed st).
(** A panic that nothing recovers ends the process. *)
Definition panic (tid : nat) (st : State) : State :=
  let st := goto tid Panicked (emit (Panic tid) st) in
  mkState (pt st) (chans st) (onces st) (ctxs st) (tickers st) (next st)
          (threads st) (trace st) true.

(** The four statements of [reset]. *)
Definition reset1 (st : State) : State :=
  let l := next st in
  bump (set_chans (<[l := mkChan 1 0 false]> (chans st))
          (set_pt (fun p => mkTrigger (interval p) l (startOnce p) (stopOnce p)
                              (triggerCtx p) (triggerCtxCancelFunc p)) st)).
Definition reset2 (st : State) : State :=
  let l := next st in
  bump (set_onces (<[l := OnceIdle]> (onces st))
          (set_pt (fun p => mkTrigger (interval p) (stopCh p) l (stopOnce p)
                              (triggerCtx p) (triggerCtxCancelFunc p)) st)).
Definition reset3 (st : State) : State :=
  let l := next st in
  bump (set_onces (<[l := OnceIdle]> (onces st))
          (set_pt (fun p => mkTrigger (interval p) (stopCh p) (startOnce p) l
                              (triggerCtx p) (triggerCtxCancelFunc p)) st)).
Definition reset4 (st : State) : State :=
  let l := next st in
  bump (set_ctxs (<[l := false]> (ctxs st))
          (set_pt (fun p => mkTrigger (interval p) (stopCh p) (startOnce p)
                              (stopOnce p) l l) st)).

Definition reset (st : State) : State := reset4 (reset3 (reset2 (reset1 st))).

(** [NewPeriodicTrigger(name, triggerFn, interval)]; the task itself is
    left abstract, its invocations are events. *)
Definition NewPeriodicTrigger (interval : Z) : State :=
  reset {| pt := mkTrigger interval 0 0 0 0 0;
           chans := ∅; onces := ∅; ctxs := ∅; tickers := ∅;
           next := 0; threads := []; trace := []; crashed := false |}.

(** Entering [o.Do(f)]: [f] runs if the guard is untouched, the call
    returns at once if it is done, and waits while [f] is running. *)
Definition enter_once (tid : nat) (o : loc) (body : pc) (ret : event) (st : State)
  : option State :=
  match onces st !! o with
  | Some OnceIdle => Some (goto tid body (set_onces (<[o := OnceRunning]> (onces st)) st))
  | Some OnceDone => Some (goto tid Returned (emit ret st))
  | _ => None
  end.

Definition can_receive (c : chan) : bool :=
  (Nat.ltb 0 (chan_len c) || chan_closed c)%bool.

(** A receive takes a buffered element if there is one; on a closed and
    drained channel it yields the zero value. *)
Definition receive (c : chan) : chan :=
  if Nat.ltb 0 (chan_len c)
  then mkChan (chan_cap c) (pred (chan_len c)) (chan_closed c)
  else c.

Definition invoke (tid : nat) (st : State) : State :=
  let c := triggerCtx (pt st) in
  emit (TaskBegin tid c (default false (ctxs st !! c))) st.

(** One step of thread [tid].  [choice] picks the outcome of a task that
    ends (it failed or not: both are only logged) and, in the select of
    the loop, the case (the tick or the done channel). *)
Definition step_thread (tid : nat) (choice : bool) (st : State) : option State :=
  match threads st !! tid with
  | None => None
  | Some p =>
      match p with
      | AtStartDo =>
          let o := startOnce (pt st) in
          enter_once tid o (AtFirstCall o) (StartReturned tid) st
      | AtFirstCall o => Some (goto tid (InFirstCall o) (invoke tid st))
      | InFirstCall o => Some (goto tid (AtNewTicker o) (emit (TaskEnd tid choice) st))
      | AtNewTicker o =>
          if (interval (pt st) <=? 0)%Z then Some (panic tid st)
          else
            let t := next st in
            let d := S (next st) in
            Some (goto tid (AtGo o t d)
                    (bump (bump
                       (set_chans (<[d := mkChan 0 0 false]> (chans st))
                          (set_tickers (<[t := false]> (tickers st)) st)))))
      | AtGo o t d => Some (goto tid (AtLoopSelect o t d) (spawn (AtListenSelect t d) st))
      | AtLoopSelect o t d =>
          if choice then
            (* case <-doneCh: break -- leaves the select, not the loop *)
            match chans st !! d with
            | Some c =>
                if can_receive c
                then Some (set_chans (<[d := receive c]> (chans st)) st)
                else None
            | None => None
            end
          else
            (* case <-ticker.C *)
            match tickers st !! t with
            | Some false => Some (goto tid (InTickCall o t d) (invoke tid st))
            | _ => None
            end
      | InTickCall o t d =>
          Some (goto tid (AtLoopSelect o t d) (emit (TaskEnd tid choice) st))
      | AtListenSelect t d => Some (goto tid (AtListenRecv (stopCh (pt st)) t d) st)
      | AtListenRecv ch t d =>
          match chans st !! ch with
          | Some c =>
              if can_receive c
              then Some (goto tid (AtListenCancel t d)
                           (set_chans (<[ch := receive c]> (chans st)) st))
              else None
          | None => None
          end
      | AtListenCancel t d =>
          Some (goto tid (AtListenTickerStop t d)
                  (set_ctxs (<[triggerCtxCancelFunc (pt st) := true]> (ctxs st)) st))
      | AtListenTickerStop t d =>
          Some (goto tid (AtListenDone t d)
                  (set_tickers (<[t := true]> (tickers st)) st))
      | AtListenDone t d =>
          match chans st !! d with
          | Some c =>
              if can_receive c
              then Some (goto tid Returned
                           (set_chans (<[d := receive c]> (chans st)) st))
              else None
          | None => None
          end
      | AtStopDo =>
          let o := stopOnce (pt st) in
          enter_once tid o (AtStopSend o) (StopReturned tid) st
      | AtStopSend o =>
          let ch := stopCh (pt st) in
          match chans st !! ch with
          | Some c =>
              if chan_closed c then Some (panic tid st)
              else if Nat.ltb (chan_len c) (chan_cap c) then
                Some (goto tid (AtStopClose o)
                        (set_chans (<[ch := mkChan (chan_cap c) (S (chan_len c)) false]>
                                      (chans st)) st))
              else None
          | None => None
          end
      | AtStopClose o =>
          let ch := stopCh (pt st) in
          match chans st !! ch with
          | Some c =>
              if chan_closed c then Some (panic tid st)
              else Some (goto tid (AtReset1 o)
                           (set_chans (<[ch := mkChan (chan_cap c) (chan_len c) true]>
                                         (chans st)) st))
          | None => None
          end
      | AtReset1 o => Some (goto tid (AtReset2 o) (reset1 st))
      | AtReset2 o => Some (goto tid (AtReset3 o) (reset2 st))
      | AtReset3 o => Some (goto tid (AtReset4 o) (reset3 st))
      | AtReset4 o => Some (goto tid (AtStopUnlock o) (reset4 st))
      | AtStopUnlock o =>
          Some (goto tid Returned
                  (emit (StopReturned tid) (set_onces (<[o := OnceDone]> (onces st)) st)))
      | Returned => None
      | Panicked => None
      end
  end.

Inductive action : Type :=
| CallStart                       (* somebody calls pt.Start() *)
| CallStop                        (* somebody calls pt.Stop() *)
| Run (tid : nat) (choice : bool).

Definition step (a : action) (st : State) : option State :=
  if crashed st then None
  else
    match a with
    | CallStart =>
        Some (spawn AtStartDo (emit (StartCalled (List.length (threads st))) st))
    | CallStop =>
        Some (spawn AtStopDo (emit (StopCalled (List.length (threads st))) st))
    | Run tid choice => step_thread tid choice st
    end.

(** A schedule, run from a state: [None] when it asks for a step that is
    not enabled. *)
Fixpoint run (sched : list action) (st : State) : option State :=
  match sched with
  | [] => Some st
  | a :: rest =>
      match step a st with
      | Some st' => run rest st'
      | None => None
      end
  end.

(** No task invocation between a [Stop] that has returned and the next
    call of [Start]: [quiet] is set while the trace is in such a gap. *)
Fixpoint quiet_gaps (quiet : bool) (tr : list event) : bool :=
  match tr with
  | [] => true
  | StopReturned _ :: r => quiet_gaps true r
  | StartCalled _ :: r => quiet_gaps false r
  | TaskBegin _ _ _ :: r => if quiet then false else quiet_gaps quiet r
  | _ :: r => quiet_gaps quiet r
  end.

(** Invocations that have begun and not ended. *)
Fixpoint in_flight (n : nat) (tr : list event) : nat :=
  match tr with
  | [] => n
  | TaskBegin _ _ _ :: r => in_flight (S n) r
  | TaskEnd _ _ :: r => in_flight (pred n) r
  | _ :: r => in_flight n r
  end.

(** The synchronization state as [reset] leaves it: an open, empty stop
    channel of capacity 1, two untouched guards, a context that is not
    cancelled and is the one the cancel function cancels. *)
Definition fresh (st : State) : bool :=
  let p := pt st in
  (bool_decide (chans st !! stopCh p = Some (mkChan 1 0 false))
   && bool_decide (onces st !! startOnce p = Some OnceIdle)
   && bool_decide (onces st !! stopOnce p = Some OnceIdle)
   && bool_decide (ctxs st !! triggerCtx p = Some false)
   && Nat.eqb (triggerCtxCancelFunc p) (triggerCtx p)
   && negb (Nat.eqb (startOnce p) (stopOnce p)))%bool.

End collector.

(* ===================================================================== *)
(** ** The vocabulary of the specification                                *)
(* ===================================================================== *)

(** The definitions of this module follow the words of the specification;
    the theorems below compare them with the code. *)
Module spec.

(** Admission (section 4.3): the verdict on a decoded record. *)
Inductive verdict : Type :=
| Accept
| Reject (reason : string).

Definition blocked (tag : string) : bool :=
  (String.eqb tag "system" || String.eqb tag "suspect")%bool.

Definition classify (timestamp : time.Time) (tags : list string) (now : time.Time)
  : verdict :=
  if time.Before timestamp (time.Add now (-1 * time.Hour)) then Reject "stale"
  else if existsb blocked tags then Reject "blocked-tag"
  else Accept.

(** The two destinations: the table of accepted records and the table of
    rejected ones. *)
Definition destination (v : verdict) : string :=
  match v with
  | Accept => "datapoint"
  | Reject _ => "datapoint_discarded"
  end.

(** What the pipeline logs with a verdict: nothing on acceptance, the
    reason on staleness, the first blocked tag otherwise. *)
Definition drop_log (timestamp : time.Time) (tags : list string) (v : verdict)
  : list LogRecord :=
  match v with
  | Accept => []
  | Reject reason =>
      if String.eqb reason "stale" then
        [mkLog "INFO" "Dropping datapoint"
           [("reason", AnyString "timestamp too old"); ("t", AnyTime timestamp)]]
      else
        match List.find blocked tags with
        | Some tag =>
            [mkLog "INFO" "Dropping datapoint"
               [("tag", AnyString tag); ("t", AnyTime timestamp)]]
        | None => []
        end
  end.

(** Completeness (section 4.1): the required fields in the order in which
    they are verified, and the first of them that is not marked decoded. *)
Definition required_fields (dp : client.DataPoint) : list (string * bool) :=
  [("time", client.Value_Processed (client.DataPoint_Time dp));
   ("value", client.Value_Processed (client.DataPoint_Value dp));
   ("tags", client.Value_Processed (client.DataPoint_Tags dp))].

Definition first_missing (dp : client.DataPoint) : option string :=
  option_map fst (List.find (fun f => negb (snd f)) (required_fields dp)).

(** The wire form of a measurement (sections 3 and 6): the four bytes of
    the bit pattern, least significant first, as a JSON array of numbers.
    [float32ToBytes] is the helper of the client's tests. *)
Definition float32ToBytes (f : float32) : list byte :=
  let bits := math.Float32bits f in
  [base64.z2b (Z.land bits 255);
   base64.z2b (Z.land (Z.shiftr bits 8) 255);
   base64.z2b (Z.land (Z.shiftr bits 16) 255);
   base64.z2b (Z.land (Z.shiftr bits 24) 255)].

Definition show_byte (b : byte) : string := show_nat (N.to_nat (Byte.to_N b)).

Fixpoint json_items (b : byte) (bs : list byte) : string :=
  match bs with
  | [] => show_byte b +:+ "]"
  | b' :: bs' => show_byte b +:+ String "," (json_items b' bs')
  end.

Definition json_array (bs : list byte) : string :=
  match bs with
  | [] => "[]"
  | b :: bs' => String "[" (json_items b bs')
  end.

(** The query streamer (section 4.5): the rows whose value extraction
    succeeds, in cursor order, and an array of items. *)
Fixpoint extracted (narrow : Z -> float32) (rows : list influxdb3.Row)
  : list dto.DataPoint :=
  match rows with
  | [] => []
  | row :: rest =>
      match iter.Value narrow row with
      | Ok dp => dp :: extracted narrow rest
      | Err _ => extracted narrow rest
      end
  end.

Fixpoint comma_separated (items : list string) : string :=
  match items with
  | [] => EmptyString
  | [x] => x
  | x :: rest => x +:+ "," +:+ comma_separated rest
  end.

Definition array_of (items : list string) : string :=
  "[" +:+ comma_separated items +:+ "]".

Fixpoint encode_all (marshal : http.DataPointModel -> option string)
  (ms : list http.DataPointModel) : option (list string) :=
  match ms with
  | [] => Some []
  | m :: rest =>
      match marshal m, encode_all marshal rest with
      | Some s, Some ss => Some (s :: ss)
      | _, _ => None
      end
  end.

End spec.

(** A body with the time as a string, as section 6 words it, and the
    bytes of the float32 nearest to 3.14 (bit pattern 0x4048F5C3). *)
Definition body_string_time : string :=
  wire "{'time':'1700000000','value':[195,245,72,64],'tags':['ok']}".

(** The same record with the time as an integer literal. *)
Definition body_integer_time : string :=
  wire "{'time':1700000000,'value':[195,245,72,64],'tags':['ok']}".

Definition bits_3_14 : float32 := 1078523331.

(** A producer that answers 200 with [body], a clock that stands at
    [now], a store that takes every write and has no rows. *)
Definition quiet_env (body : string) (now : time.Time) : Env :=
  {| producer := client.Response 200 body;
     wall_clock := fun _ => now;
     store_write := fun _ _ => None;
     store_query := fun _ _ => Ok [] |}.

(** 100 seconds after the record's timestamp. *)
Definition shortly_after : time.Time := time.Unix 1700000100.

(** The point that a run of [Collect] hands to the store for the record
    [dp], when the clock reads [now] at the staleness check and [received]
    when the record is built. *)
Definition collected_point (dp : client.DataPoint) (now received : time.Time)
  : influxdb3.Point :=
  let ts := client.Value_Value (client.DataPoint_Time dp) in
  let tags := client.Value_Value (client.DataPoint_Tags dp) in
  influxdb3.NewPoint
    (spec.destination (spec.classify ts tags now)) ∅
    (<["value" := AnyFloat32 (client.Value_Value (client.DataPoint_Value dp))]>
       (<["tags" := AnyStrings tags]>
          (<["received_at" := AnyTime received]> ∅)))
    ts.

Definition write_result (r : option error) : option error :=
  match r with
  | Some err => Some (Join (New "failed to write datapoint") err)
  | None => None
  end.

(** The elements that the scanner finds in a rendered array of bytes. *)
Definition byte_elems (bs : list byte) : list (string * json.tree) :=
  List.map (fun b => (spec.show_byte b, json.TNumber (spec.show_byte b))) bs.

(** The item that the streamer encodes for an extracted row. *)
Definition model_of (format_rfc3339 : time.Time -> string) (dp : dto.DataPoint)
  : http.DataPointModel :=
  {| http.Time := format_rfc3339 (dto.Time dp); http.Value := dto.Value dp |}.

(** What the loop of the streamer adds to the body for the items that are
    still to come, when [i] items have been written. *)
Fixpoint continuation (i : nat) (items : list string) : string :=
  match items with
  | [] => EmptyString
  | x :: rest =>
      (if Nat.ltb 0 i then "," else EmptyString) +:+ x +:+ continuation (S i) rest
  end.

(** A cell map with the two columns the streamer reads. *)
Definition row_of (t : time.Time) (v : Z) : influxdb3.Row :=
  <["time" := AnyTime t]> (<["value" := AnyFloat64 v]> ∅).

(** Stand-ins for the formatter, the encoder and the float conversion, and
    a cursor of four rows, the second of which has no time cell of the
    right type. *)
Definition demo_format (t : time.Time) : string := show_Z (time.sec t).

Definition demo_marshal (m : http.DataPointModel) : option string :=
  Some (wire "{'time':'" +:+ http.Time m +:+ wire "','value':"
        +:+ show_Z (http.Value m) +:+ "}").

Definition demo_rows : list influxdb3.Row :=
  [row_of (time.mkTime 3 0) 30;
   <["time" := AnyString "yesterday"]> (<["value" := AnyFloat64 25]> ∅);
   row_of (time.mkTime 2 0) 20;
   row_of (time.mkTime 1 0) 10].

Definition demo_store (rows : list influxdb3.Row) : Env :=
  {| producer := client.TransportError (LibErr "unused");
     wall_clock := fun _ => time.mkTime 0 0;
     store_write := fun _ _ => None;
     store_query := fun _ _ => Ok rows |}.

(** Schedules of the periodic trigger.  Thread 0 is the first caller. *)

(** [Stop] is called while the first, synchronous invocation of [Start] is
    still running, and runs to its return. *)
Definition stop_during_first_call : list collector.action :=
  [collector.CallStart; collector.Run 0 false; collector.Run 0 false;
   collector.CallStop]
  ++ repeat (collector.Run 1 false) 8.

(** Then the invocation ends, [start] makes its ticker and its goroutine,
    the goroutine settles on the channel it will wait for, and a tick
    arrives. *)
Definition then_the_loop_goes_on : list collector.action :=
  [collector.Run 0 false; collector.Run 0 false; collector.Run 0 false;
   collector.Run 2 false; collector.Run 0 false].

(** [Start] reaches its loop and the goroutine waits on the stop channel;
    [Stop] is called and runs to its return before the goroutine wakes. *)
Definition stop_while_waiting : list collector.action :=
  [collector.CallStart] ++ repeat (collector.Run 0 false) 5
  ++ [collector.Run 1 false; collector.CallStop]
  ++ repeat (collector.Run 2 false) 8.

(** Then the goroutine wakes, cancels, stops the ticker and waits for the
    done channel; and [Start] is called again. *)
Definition then_the_goroutine_wakes : list collector.action :=
  [collector.Run 1 false; collector.Run 1 false; collector.Run 1 false;
   collector.CallStart; collector.Run 3 false; collector.Run 3 false].

(** [Stop] on a trigger that was never started: the call and its eight
    steps, whatever the choices. *)
Definition stop_alone (choices : list bool) : list collector.action :=
  collector.CallStop :: List.map (collector.Run 0) choices.

(** The once-guard that a thread inside [Stop] went through. *)
Definition stop_guard (p : collector.pc) : option collector.loc :=
  match p with
  | collector.AtStopSend o | collector.AtStopClose o | collector.AtReset1 o
  | collector.AtReset2 o | collector.AtReset3 o | collector.AtReset4 o
  | collector.AtStopUnlock o => Some o
  | _ => None
  end.


(** The task that [NewDataServerCollector] gives to the trigger: one
    [Collect], its error wrapped. *)
Definition DataServerCollector_task : M (option error) :=
  err <- usecase.Collect ;;
  match err with
  | Some err => ret (Some (Errorf "failed to collect data point: " err))
  | None => ret None
  end.

(** [n] invocations of the task, one after the other, as the trigger makes
    them; the results in order. *)
Fixpoint tasks (n : nat) : M (list (option error)) :=
  match n with
  | O => ret []
  | S n' =>
      r <- DataServerCollector_task ;;
      rs <- tasks n' ;;
      ret (r :: rs)
  end.

(** The point that an invocation hands to the store when it starts in the
    world [w]. *)
Definition point_in (env : Env) (w : World) (dp : client.DataPoint) : influxdb3.Point :=
  collected_point dp (wall_clock env (clock_reads w)) (wall_clock env (S (clock_reads w))).

(** The log lines of the streamer for the rows whose extraction fails, when
    [i] items have been written: each carries the number of items written
    before it, not the position of the row. *)
Fixpoint skip_log (narrow : Z -> float32) (rows : list influxdb3.Row) (i : nat)
  : list LogRecord :=
  match rows with
  | [] => []
  | row :: rest =>
      match iter.Value narrow row with
      | Ok _ => skip_log narrow rest (S i)
      | Err err =>
          mkLog "ERROR" "Error retrieving item"
            [("iter_counter", AnyInt (Z.of_nat i)); ("error", AnyError err)]
          :: skip_log narrow rest i
      end
  end.

(** The keys that [Query] binds for the bounds it is given. *)
Definition bound_names (start until : option time.Time) : gset string :=
  (match start with Some _ => {["start"]} | None => ∅ end)
  ∪ (match until with Some _ => {["until"]} | None => ∅ end).


(** ** What the guard of [Stop] protects *)

Section stop_safety_definitions.
Import collector.
Local Open Scope nat_scope.

(** The statements of [stop] up to the one that installs the new stop
    guard: from the send to the third statement of [reset]. *)
Definition in_stop (p : pc) : bool :=
  match p with
  | AtStopSend _ | AtStopClose _ | AtReset1 _ | AtReset2 _ | AtReset3 _ => true
  | _ => false
  end.

(** A channel as [reset] makes it, and a channel that is not closed. *)
Definition has_room (c : option chan) : Prop := c = Some (mkChan 1 0 false).
Definition is_open (c : option chan) : Prop :=
  exists x, c = Some x /\ chan_closed x = false.

(** What holds of a thread inside [stop], given the current stop guard
    [sp], the next free location, the guards and the current stop
    channel: up to the third statement of [reset] it holds the current
    guard, and the stop channel is what its next statement needs; after it,
    its guard is an old one.  And no thread has panicked. *)
Definition thread_ok (sp next : loc) (onces : gmap loc once) (c : option chan)
  (p : pc) : Prop :=
  match p with
  | AtStopSend o | AtReset2 o | AtReset3 o =>
      o = sp /\ onces !! sp = Some OnceRunning /\ has_room c
  | AtStopClose o => o = sp /\ onces !! sp = Some OnceRunning /\ is_open c
  | AtReset1 o => o = sp /\ onces !! sp = Some OnceRunning
  | AtReset4 o | AtStopUnlock o => o <> sp /\ o < next
  | Panicked => False
  | _ => True
  end.

(** At most one thread is between the send and the third statement of
    [reset]. *)
Definition exclusive (threads : list pc) : Prop :=
  forall t1 t2 p1 p2,
    threads !! t1 = Some p1 -> threads !! t2 = Some p2 ->
    in_stop p1 = true -> in_stop p2 = true -> t1 = t2.

Record stop_invariant (st : State) : Prop := mkStopInvariant {
  si_interval : (0 < interval (pt st))%Z;
  si_alive : crashed st = false;
  si_no_panic : forall tid, ~ In (Panic tid) (trace st);
  si_channel_allocated : stopCh (pt st) < next st;
  si_start_allocated : startOnce (pt st) < next st;
  si_stop_allocated : stopOnce (pt st) < next st;
  si_guards_differ : startOnce (pt st) <> stopOnce (pt st);
  si_guard_live :
    onces st !! stopOnce (pt st) = Some OnceIdle
    \/ onces st !! stopOnce (pt st) = Some OnceRunning;
  si_idle :
    onces st !! stopOnce (pt st) = Some OnceIdle ->
    has_room (chans st !! stopCh (pt st));
  si_threads :
    forall tid p,
      threads st !! tid = Some p ->
      thread_ok (stopOnce (pt st)) (next st) (onces st)
        (chans st !! stopCh (pt st)) p;
  si_exclusive : exclusive (threads st)
}.

(** The statement of [stop] that follows, for a thread inside it. *)
Definition after (p : pc) : pc :=
  match p with
  | AtStopSend o => AtStopClose o
  | AtStopClose o => AtReset1 o
  | AtReset1 o => AtReset2 o
  | AtReset2 o => AtReset3 o
  | AtReset3 o => AtReset4 o
  | AtReset4 o => AtStopUnlock o
  | AtStopUnlock o => Returned
  | p => p
  end.

(** How many statements a thread inside [stop] has left, the unlocking of
    the guard included. *)
Definition statements_left (p : pc) : nat :=
  match p with
  | AtStopSend _ => 7
  | AtStopClose _ => 6
  | AtReset1 _ => 5
  | AtReset2 _ => 4
  | AtReset3 _ => 3
  | AtReset4 _ => 2
  | AtStopUnlock _ => 1
  | _ => 0
  end.

(** The threads that are about to assign the context and its cancel
    function, the last statement of [reset]. *)
Definition assigning_context (st : State) : list nat :=
  List.map fst
    (List.filter (fun x => match snd x with AtReset4 _ => true | _ => false end)
       (imap (fun i p => (i, p)) (threads st))).

End stop_safety_definitions.

(* ===================================================================== *)
(** ** package main: the configuration and the life of the process       *)
(* ===================================================================== *)

Module cmd.
Import ascii_class.

Record InfluxDBClientConfig : Type := mkInfluxDBClientConfig {
  InfluxDBClient_Host : string;
  InfluxDBClient_Token : string;
  InfluxDBClient_Database : string;
  InfluxDBClient_Org : string
}.

Record DataServerClientConfig : Type := mkDataServerClientConfig {
  DataServerClient_Host : string
}.

Record HTTPServerConfig : Type := mkHTTPServerConfig {
  HTTPServer_Port : string
}.

Record DataServerCollectorConfig : Type := mkDataServerCollectorConfig {
  PollIntervalMs : Z
}.

Record Config : Type := mkConfig {
  InfluxDBClient : InfluxDBClientConfig;
  DataServerClient : DataServerClientConfig;
  HTTPServer : HTTPServerConfig;
  DataServerCollector : DataServerCollectorConfig
}.

Definition DefaultInfluxDBClientConfig : InfluxDBClientConfig :=
  {| InfluxDBClient_Host := "http://influxdb3-core:8181";
     InfluxDBClient_Token := EmptyString;
     InfluxDBClient_Database := "dev";
     InfluxDBClient_Org := EmptyString |}.

Definition DefaultDataServerConfig : DataServerClientConfig :=
  {| DataServerClient_Host := "http://localhost:28462" |}.

Definition DefaultHTTPServerConfig : HTTPServerConfig :=
  {| HTTPServer_Port := ":8080" |}.

Definition DefaultDataServerCollectorConfig : DataServerCollectorConfig :=
  {| PollIntervalMs := 1000 |}.

Definition DefaultConfig : Config :=
  {| InfluxDBClient := DefaultInfluxDBClientConfig;
     DataServerClient := DefaultDataServerConfig;
     HTTPServer := DefaultHTTPServerConfig;
     DataServerCollector := DefaultDataServerCollectorConfig |}.

(** The zero value [Config{}]. *)
Definition zero : Config :=
  {| InfluxDBClient := mkInfluxDBClientConfig EmptyString EmptyString EmptyString EmptyString;
     DataServerClient := mkDataServerClientConfig EmptyString;
     HTTPServer := mkHTTPServerConfig EmptyString;
     DataServerCollector := mkDataServerCollectorConfig 0 |}.

(** What [encoding/json] does with a value for a field of type [string]
    and of type [int]: null leaves the field as it is, a value of another
    kind is a type error, and so is a number that is not an int64. *)
Definition decode_string (t : json.tree) (old : string) : Result string :=
  match t with
  | json.TNull => Ok old
  | json.TString body =>
      match json.unquote body with
      | Some s => Ok s
      | None => Err json.UnmodelledEscape
      end
  | _ => Err json.UnmarshalTypeError
  end.

Definition decode_int (t : json.tree) (old : Z) : Result Z :=
  match t with
  | json.TNull => Ok old
  | json.TNumber lit =>
      match strconv.ParseInt lit with
      | Ok n => Ok n
      | Err _ => Err json.UnmarshalTypeError
      end
  | _ => Err json.UnmarshalTypeError
  end.

(** The members of an object, one after the other, into a struct: the key
    selects a field without regard to case, a member that matches no field
    is skipped, and a later member for the same field wins. *)
Fixpoint decode_fields {T : Type} (field : string -> json.tree -> T -> Result T)
  (ms : list (string * (string * json.tree))) (v : T) : Result T :=
  match ms with
  | [] => Ok v
  | m :: rest =>
      match json.unquote (fst m) with
      | None => Err json.UnmodelledEscape
      | Some key =>
          match field (lower_string key) (snd (snd m)) v with
          | Ok v' => decode_fields field rest v'
          | Err e => Err e
          end
      end
  end.

Definition decode_struct {T : Type} (field : string -> json.tree -> T -> Result T)
  (t : json.tree) (v : T) : Result T :=
  match t with
  | json.TNull => Ok v
  | json.TObject ms => decode_fields field ms v
  | _ => Err json.UnmarshalTypeError
  end.

Definition InfluxDBClientConfig_field (k : string) (t : json.tree)
  (c : InfluxDBClientConfig) : Result InfluxDBClientConfig :=
  if String.eqb k "host" then
    match decode_string t (InfluxDBClient_Host c) with
    | Ok s => Ok (mkInfluxDBClientConfig s (InfluxDBClient_Token c)
                    (InfluxDBClient_Database c) (InfluxDBClient_Org c))
    | Err e => Err e
    end
  else if String.eqb k "token" then
    match decode_string t (InfluxDBClient_Token c) with
    | Ok s => Ok (mkInfluxDBClientConfig (InfluxDBClient_Host c) s
                    (InfluxDBClient_Database c) (InfluxDBClient_Org c))
    | Err e => Err e
    end
  else if String.eqb k "database" then
    match decode_string t (InfluxDBClient_Database c) with
    | Ok s => Ok (mkInfluxDBClientConfig (InfluxDBClient_Host c) (InfluxDBClient_Token c)
                    s (InfluxDBClient_Org c))
    | Err e => Err e
    end
  else if String.eqb k "org" then
    match decode_string t (InfluxDBClient_Org c) with
    | Ok s => Ok (mkInfluxDBClientConfig (InfluxDBClient_Host c) (InfluxDBClient_Token c)
                    (InfluxDBClient_Database c) s)
    | Err e => Err e
    end
  else Ok c.

Definition DataServerClientConfig_field (k : string) (t : json.tree)
  (c : DataServerClientConfig) : Result DataServerClientConfig :=
  if String.eqb k "host" then
    match decode_string t (DataServerClient_Host c) with
    | Ok s => Ok (mkDataServerClientConfig s)
    | Err e => Err e
    end
  else Ok c.

Definition HTTPServerConfig_field (k : string) (t : json.tree)
  (c : HTTPServerConfig) : Result HTTPServerConfig :=
  if String.eqb k "port" then
    match decode_string t (HTTPServer_Port c) with
    | Ok s => Ok (mkHTTPServerConfig s)
    | Err e => Err e
    end
  else Ok c.

Definition DataServerCollectorConfig_field (k : string) (t : json.tree)
  (c : DataServerCollectorConfig) : Result DataServerCollectorConfig :=
  if String.eqb k "poll_interval_ms" then
    match decode_int t (PollIntervalMs c) with
    | Ok n => Ok (mkDataServerCollectorConfig n)
    | Err e => Err e
    end
  else Ok c.

Definition Config_field (k : string) (t : json.tree) (c : Config) : Result Config :=
  if String.eqb k "influxdb_client" then
    match decode_struct InfluxDBClientConfig_field t (InfluxDBClient c) with
    | Ok x => Ok (mkConfig x (DataServerClient c) (HTTPServer c) (DataServerCollector c))
    | Err e => Err e
    end
  else if String.eqb k "data_server_client" then
    match decode_struct DataServerClientConfig_field t (DataServerClient c) with
    | Ok x => Ok (mkConfig (InfluxDBClient c) x (HTTPServer c) (DataServerCollector c))
    | Err e => Err e
    end
  else if String.eqb k "http_server" then
    match decode_struct HTTPServerConfig_field t (HTTPServer c) with
    | Ok x => Ok (mkConfig (InfluxDBClient c) (DataServerClient c) x (DataServerCollector c))
    | Err e => Err e
    end
  else if String.eqb k "data_server_collector" then
    match decode_struct DataServerCollectorConfig_field t (DataServerCollector c) with
    | Ok x => Ok (mkConfig (InfluxDBClient c) (DataServerClient c) (HTTPServer c) x)
    | Err e => Err e
    end
  else Ok c.

(** [json.Unmarshal(b, &cfg)] *)
Definition Unmarshal (b : string) (cfg : Config) : Result Config :=
  match json.parse_document b with
  | None => Err json.SyntaxError
  | Some t => decode_struct Config_field t cfg
  end.

(** [mergo.Merge(&dst, src)] without options: a field of the destination
    that holds the zero value of its type takes the value of the source,
    field by field through the nested structs; every other field stays. *)
Definition merge_string (dst src : string) : string :=
  match dst with
  | EmptyString => src
  | _ => dst
  end.

Definition merge_int (dst src : Z) : Z := if dst =? 0 then src else dst.

Definition Merge (dst src : Config) : Config :=
  {| InfluxDBClient :=
       {| InfluxDBClient_Host :=
            merge_string (InfluxDBClient_Host (InfluxDBClient dst))
              (InfluxDBClient_Host (InfluxDBClient src));
          InfluxDBClient_Token :=
            merge_string (InfluxDBClient_Token (InfluxDBClient dst))
              (InfluxDBClient_Token (InfluxDBClient src));
          InfluxDBClient_Database :=
            merge_string (InfluxDBClient_Database (InfluxDBClient dst))
              (InfluxDBClient_Database (InfluxDBClient src));
          InfluxDBClient_Org :=
            merge_string (InfluxDBClient_Org (InfluxDBClient dst))
              (InfluxDBClient_Org (InfluxDBClient src)) |};
     DataServerClient :=
       {| DataServerClient_Host :=
            merge_string (DataServerClient_Host (DataServerClient dst))
              (DataServerClient_Host (DataServerClient src)) |};
     HTTPServer :=
       {| HTTPServer_Port :=
            merge_string (HTTPServer_Port (HTTPServer dst))
              (HTTPServer_Port (HTTPServer src)) |};
     DataServerCollector :=
       {| PollIntervalMs :=
            merge_int (PollIntervalMs (DataServerCollector dst))
              (PollIntervalMs (DataServerCollector src)) |} |}.

(** [LoadConfigFromFile(path)], given what [os.ReadFile(path)] returns. *)
Definition LoadConfigFromFile (file : Result string) : Result Config :=
  match file with
  | Err err => Err err
  | Ok b =>
      let cfg := zero in
      match Unmarshal b cfg with
      | Err err => Err err
      | Ok cfg => Ok (Merge cfg DefaultConfig)
      end
  end.

(** The interval that [main] gives to the collector:
    [time.Millisecond * time.Duration(cfg.DataServerCollector.PollIntervalMs)],
    a product of two int64. *)
Definition Millisecond : time.Duration := 1000000.

Definition collector_interval (cfg : Config) : time.Duration :=
  time.wrap_int64 (Millisecond * PollIntervalMs (DataServerCollector cfg)).

End cmd.

(** A configuration file that sets the poll interval and nothing else,
    and the configuration with that poll interval and the defaults. *)
Definition poll_interval_file (n : Z) : string :=
  wire "{'data_server_collector':{'poll_interval_ms':" +:+ show_Z n +:+ "}}".

Definition with_poll_interval (n : Z) : cmd.Config :=
  cmd.mkConfig cmd.DefaultInfluxDBClientConfig cmd.DefaultDataServerConfig
    cmd.DefaultHTTPServerConfig (cmd.mkDataServerCollectorConfig n).

(** ** [main]: the collector goroutine, the wait group and the shutdown *)

Module process.
Import collector.
Local Open Scope nat_scope.

#[global] Instance event_eq_dec : EqDecision event := ltac:(solve_decision).

(** The goroutine that [main] starts for the collector:
    [dataCollectorWg.Add(1)], the deferred [Done], [dataCollector.Start()]. *)
Inductive collector_pc : Type :=
| AtAdd                            (* dataCollectorWg.Add(1) *)
| AtStart                          (* dataCollector.Start() *)
| InStart (tid : nat)              (* inside Start, as thread [tid] of the trigger *)
| AtDeferredDone                   (* Start has returned: dataCollectorWg.Done() *)
| Exited.

(** [main] from its select on: a server error makes it panic, a signal
    makes it stop the collector, wait for the wait group and shut the rest
    down. *)
Inductive main_pc : Type :=
| AtSelect                         (* select { case err := <-serverErrors: ... *)
| AtStop                           (* dataCollector.Stop() *)
| InStop (tid : nat)
| AtWait                           (* dataCollectorWg.Wait() *)
| AtShutdown                       (* server.Shutdown, influxdb3Client.Close *)
| Complete                         (* "Application shutdown complete" *)
| MainPanicked.

Record Process : Type := mkProcess {
  trigger : State;
  wg : Z;
  collector_goroutine : collector_pc;
  main_goroutine : main_pc
}.


Inductive action : Type :=
| Collector                        (* a statement of the collector goroutine *)
| Main (server_error : bool)       (* a statement of main; the case its select takes *)
| Inside (tid : nat) (choice : bool).  (* a step of a thread inside the trigger *)

Definition dead (p : Process) : bool :=
  (crashed (trigger p)
   || match main_goroutine p with MainPanicked => true | _ => false end)%bool.

Definition step (a : action) (p : Process) : option Process :=
  if dead p then None
  else
    match a with
    | Collector =>
        match collector_goroutine p with
        | AtAdd => Some (mkProcess (trigger p) (wg p + 1)%Z AtStart (main_goroutine p))
        | AtStart =>
            match collector.step CallStart (trigger p) with
            | Some t =>
                Some (mkProcess t (wg p) (InStart (List.length (threads (trigger p))))
                        (main_goroutine p))
            | None => None
            end
        | InStart tid =>
            if bool_decide (StartReturned tid ∈ trace (trigger p))
            then Some (mkProcess (trigger p) (wg p) AtDeferredDone (main_goroutine p))
            else None
        | AtDeferredDone =>
            Some (mkProcess (trigger p) (wg p - 1)%Z Exited (main_goroutine p))
        | Exited => None
        end
    | Main server_error =>
        match main_goroutine p with
        | AtSelect =>
            Some (mkProcess (trigger p) (wg p) (collector_goroutine p)
                    (if server_error then MainPanicked else AtStop))
        | AtStop =>
            match collector.step CallStop (trigger p) with
            | Some t =>
                Some (mkProcess t (wg p) (collector_goroutine p)
                        (InStop (List.length (threads (trigger p)))))
            | None => None
            end
        | InStop tid =>
            if bool_decide (StopReturned tid ∈ trace (trigger p))
            then Some (mkProcess (trigger p) (wg p) (collector_goroutine p) AtWait)
            else None
        | AtWait =>
            if (wg p =? 0)%Z
            then Some (mkProcess (trigger p) (wg p) (collector_goroutine p) AtShutdown)
            else None
        | AtShutdown =>
            Some (mkProcess (trigger p) (wg p) (collector_goroutine p) Complete)
        | Complete => None
        | MainPanicked => None
        end
    | Inside tid choice =>
        match collector.step (Run tid choice) (trigger p) with
        | Some t => Some (mkProcess t (wg p) (collector_goroutine p) (main_goroutine p))
        | None => None
        end
    end.

Fixpoint run (sched : list action) (p : Process) : option Process :=
  match sched with
  | [] => Some p
  | a :: rest =>
      match step a p with
      | Some p' => run rest p'
      | None => None
      end
  end.



End process.

(** ** The value member as the data server's tests send it *)

(** [base64.StdEncoding.EncodeToString], the encoder that [json.Marshal]
    applies to a [[]byte] and that the helper [toJSONByteArray] of the
    client's tests relies on.  It is written out here from the definition
    of the encoding (RFC 4648, section 4), to state the round trip with
    [base64.decode]; the program itself only decodes. *)
Definition base64_alphabet : string :=
  "ABCDEFGHIJKLMNOPQRSTUVWXYZabcdefghijklmnopqrstuvwxyz0123456789+/".

Definition base64_char (v : Z) : ascii :=
  match String.get (Z.to_nat v) base64_alphabet with
  | Some c => c
  | None => "="%char
  end.

Fixpoint base64_EncodeToString (bs : list byte) : string :=
  match bs with
  | [] => EmptyString
  | [a] =>
      let x := binary.b2z a in
      String (base64_char (x / 4)) (String (base64_char (x mod 4 * 16)) "==")
  | [a; b] =>
      let x := binary.b2z a in
      let y := binary.b2z b in
      String (base64_char (x / 4))
        (String (base64_char (x mod 4 * 16 + y / 16))
           (String (base64_char (y mod 16 * 4)) "="))
  | a :: b :: c :: rest =>
      let x := binary.b2z a in
      let y := binary.b2z b in
      let z := binary.b2z c in
      String (base64_char (x / 4))
        (String (base64_char (x mod 4 * 16 + y / 16))
           (String (base64_char (y mod 16 * 4 + z / 64))
              (String (base64_char (z mod 64)) (base64_EncodeToString rest))))
  end.

(** [json.Marshal(b)] for a [[]byte] that is not nil, as in
    [toJSONByteArray]: the base64 text between quotes. *)
Definition toJSONByteArray (b : list byte) : string :=
  String json.dquote (base64_EncodeToString b +:+ json.str1 json.dquote).

(** The characters that a JSON string holds as they are. *)
Definition plain (c : ascii) : bool :=
  (negb (Ascii.eqb c json.dquote) && negb (Ascii.eqb c json.backslash)
   && negb (Nat.ltb (ascii_class.code c) 32))%bool.

Fixpoint all_plain (s : string) : bool :=
  match s with
  | EmptyString => true
  | String c r => (plain c && all_plain r)%bool
  end.

(** The numbers below [n], for the checks that run through all of them. *)
Definition below (n : nat) : list Z := List.map Z.of_nat (seq 0 n).
(* ===================================================================== *)
(** * Theorems                                                            *)
(* ===================================================================== *)

(** ** The collection workflow *)

Lemma existsb_find {A : Type} (f : A -> bool) (l : list A) :
  existsb f l = match List.find f l with Some _ => true | None => false end.
Proof.
  induction l as [|x l IH]; simpl; [reflexivity|].
  destruct (f x); simpl; [reflexivity | exact IH].
Qed.

(** The loop over the tags stops at the first blocked tag. *)
Lemma Collect_tags_find (dp : client.DataPoint) (tags : list string) (env : Env) (w : World) :
  usecase.Collect_tags dp tags env w =
  match List.find spec.blocked tags with
  | Some value =>
      (_ <- InfoContext "Dropping datapoint"
              [("tag", AnyString value);
               ("t", AnyTime (client.Value_Value (client.DataPoint_Time dp)))] ;;
       now <- Now ;;
       repository.WriteDiscard (usecase.point_of dp now)) env w
  | None =>
      (now <- Now ;; repository.Write (usecase.point_of dp now)) env w
  end.
Proof.
  induction tags as [|value rest IH]; simpl; [reflexivity|].
  unfold spec.blocked at 1.
  destruct (String.eqb value "system" || String.eqb value "suspect")%bool;
    [reflexivity | exact IH].
Qed.

(** A run of [Collect] on a record that was fetched and decoded: two clock
    readings, one [WritePoints] call with one point, and the log line of a
    rejection. *)
Lemma Collect_run (env : Env) (dp : client.DataPoint) :
  client.DataPoint_fetch (producer env) = Ok dp ->
  let ts := client.Value_Value (client.DataPoint_Time dp) in
  let tags := client.Value_Value (client.DataPoint_Tags dp) in
  let p := collected_point dp (wall_clock env 0%nat) (wall_clock env 1%nat) in
  usecase.Collect env world0 =
  (write_result (store_write env 0%nat [p]),
   {| clock_reads := 2;
      writes := [[p]];
      logs := spec.drop_log ts tags (spec.classify ts tags (wall_clock env 0%nat)) |}).
Proof.
  intros Hfetch ts tags p.
  unfold usecase.Collect, usecase.Read, bind, fetch. rewrite Hfetch.
  unfold ret, Now at 1, world0. cbn [clock_reads writes logs].
  subst p. unfold collected_point, spec.classify. fold ts tags.
  destruct (time.Before ts (time.Add (wall_clock env 0%nat) (-1 * time.Hour))) eqn:Hstale.
  - cbn. destruct (store_write env 0%nat _); reflexivity.
  - rewrite Collect_tags_find. fold tags. rewrite existsb_find.
    destruct (List.find spec.blocked tags) as [value|] eqn:Hfind.
    + cbn. rewrite Hfind. destruct (store_write env 0%nat _); reflexivity.
    + cbn. destruct (store_write env 0%nat _); reflexivity.
Qed.

(** A run of [Collect] whose fetch fails does nothing but report it. *)
Lemma Collect_fetch_error (env : Env) (err : error) :
  client.DataPoint_fetch (producer env) = Err err ->
  usecase.Collect env world0 =
  (Some (Errorf "failed to read datapoint: "
           (Errorf "failed to get datapoint from data server: " err)), world0).
Proof.
  intros Hfetch.
  unfold usecase.Collect, usecase.Read, bind, fetch. rewrite Hfetch. reflexivity.
Qed.

(** C5.  For every record that was fetched and decoded, [Collect] applies
    the admission policy of the specification: "stale" when the timestamp
    is strictly before the clock reading minus one hour, whatever the tags;
    otherwise "blocked-tag" when some tag equals "system" or "suspect"
    (the log names the first such tag in the given order); otherwise
    accepted.  Whatever the verdict, the run makes exactly one [WritePoints]
    call with exactly one point, to the table of the verdict, and the
    received-at field is a reading of the pipeline's clock. *)
Theorem Collect_classifies_and_writes_once (env : Env) (dp : client.DataPoint)
  (Hfetch : client.DataPoint_fetch (producer env) = Ok dp) :
  let ts := client.Value_Value (client.DataPoint_Time dp) in
  let tags := client.Value_Value (client.DataPoint_Tags dp) in
  let now := wall_clock env 0%nat in
  let verdict := spec.classify ts tags now in
  exists p : influxdb3.Point,
    writes (snd (usecase.Collect env world0)) = [[p]]
    /\ influxdb3.Measurement p = spec.destination verdict
    /\ (influxdb3.Measurement p = "datapoint"
        \/ influxdb3.Measurement p = "datapoint_discarded")
    /\ influxdb3.Fields p !! "received_at" = Some (AnyTime (wall_clock env 1%nat))
    /\ logs (snd (usecase.Collect env world0)) = spec.drop_log ts tags verdict
    /\ (time.Before ts (time.Add now (-1 * time.Hour)) = true ->
        verdict = spec.Reject "stale")
    /\ (time.Before ts (time.Add now (-1 * time.Hour)) = false ->
        forall tag, List.find spec.blocked tags = Some tag ->
        verdict = spec.Reject "blocked-tag"
        /\ logs (snd (usecase.Collect env world0)) =
           [mkLog "INFO" "Dropping datapoint"
              [("tag", AnyString tag); ("t", AnyTime ts)]])
    /\ (time.Before ts (time.Add now (-1 * time.Hour)) = false ->
        List.find spec.blocked tags = None -> verdict = spec.Accept).
Proof.
  intros ts tags now verdict.
  rewrite (Collect_run env dp Hfetch). cbn [snd writes logs].
  fold ts tags now verdict.
  exists (collected_point dp now (wall_clock env 1%nat)).
  split; [reflexivity|]. split; [reflexivity|].
  split; [cbn [collected_point influxdb3.Measurement]; fold ts tags;
          destruct (spec.classify ts tags now); [left | right]; reflexivity|].
  split; [reflexivity|]. split; [reflexivity|].
  subst verdict. unfold spec.classify.
  split; [intros ->; reflexivity|].
  split.
  - intros -> tag Hfind. rewrite existsb_find, Hfind.
    split; [reflexivity|]. cbn. rewrite Hfind. reflexivity.
  - intros -> Hfind. rewrite existsb_find, Hfind. reflexivity.
Qed.

Lemma Collect_classifies_and_writes_once_witness :
  client.DataPoint_fetch (producer (quiet_env body_integer_time shortly_after))
  = Ok {| client.DataPoint_Time := client.mkValue (time.Unix 1700000000) true;
          client.DataPoint_Value := client.mkValue bits_3_14 true;
          client.DataPoint_Tags := client.mkValue ["ok"] true |}
  /\ exists p : influxdb3.Point,
       writes (snd (usecase.Collect (quiet_env body_integer_time shortly_after) world0))
       = [[p]]
       /\ influxdb3.Measurement p = "datapoint".
Proof.
  assert (Hfetch :
    client.DataPoint_fetch (producer (quiet_env body_integer_time shortly_after))
    = Ok {| client.DataPoint_Time := client.mkValue (time.Unix 1700000000) true;
            client.DataPoint_Value := client.mkValue bits_3_14 true;
            client.DataPoint_Tags := client.mkValue ["ok"] true |})
    by (vm_compute; reflexivity).
  split; [exact Hfetch|].
  destruct (Collect_classifies_and_writes_once _ _ Hfetch) as (p & Hw & Hm & _).
  exists p. split; [exact Hw|]. rewrite Hm. vm_compute. reflexivity.
Defined.

(** C9.  The point that [Collect] persists for a fetched record carries the
    record's own timestamp, the one decoded from the producer's payload, as
    its timestamp, whatever the clock reads; the received-at time is one of
    exactly three ordinary fields, next to the value and the tags, and the
    point has no tag set. *)
Theorem persisted_timestamp_is_the_records (env : Env) (dp : client.DataPoint)
  (Hfetch : client.DataPoint_fetch (producer env) = Ok dp) :
  exists p : influxdb3.Point,
    writes (snd (usecase.Collect env world0)) = [[p]]
    /\ influxdb3.Timestamp p = client.Value_Value (client.DataPoint_Time dp)
    /\ influxdb3.Fields p =
       <["value" := AnyFloat32 (client.Value_Value (client.DataPoint_Value dp))]>
         (<["tags" := AnyStrings (client.Value_Value (client.DataPoint_Tags dp))]>
            (<["received_at" := AnyTime (wall_clock env 1%nat)]> ∅))
    /\ dom (influxdb3.Fields p) = ({["value"; "tags"; "received_at"]} : gset string)
    /\ influxdb3.PointTags p = ∅.
Proof.
  rewrite (Collect_run env dp Hfetch). cbn [snd writes].
  eexists. split; [reflexivity|].
  cbn [collected_point influxdb3.Timestamp influxdb3.Fields influxdb3.PointTags].
  split; [reflexivity|]. split; [reflexivity|]. split; [|reflexivity].
  rewrite !dom_insert_L, dom_empty_L. set_solver.
Qed.

Lemma persisted_timestamp_is_the_records_witness :
  exists p : influxdb3.Point,
    writes (snd (usecase.Collect (quiet_env body_integer_time shortly_after) world0))
    = [[p]]
    /\ influxdb3.Timestamp p = time.Unix 1700000000
    /\ influxdb3.Fields p !! "received_at" = Some (AnyTime shortly_after).
Proof.
  assert (Hfetch :
    client.DataPoint_fetch (producer (quiet_env body_integer_time shortly_after))
    = Ok {| client.DataPoint_Time := client.mkValue (time.Unix 1700000000) true;
            client.DataPoint_Value := client.mkValue bits_3_14 true;
            client.DataPoint_Tags := client.mkValue ["ok"] true |})
    by (vm_compute; reflexivity).
  destruct (persisted_timestamp_is_the_records _ _ Hfetch) as (p & Hw & Ht & Hf & _).
  exists p. split; [exact Hw|]. split; [exact Ht|].
  rewrite Hf. vm_compute. reflexivity.
Defined.

(** ** The end-to-end run on the 3.14 record *)

(** The bit pattern 0x4048F5C3 denotes a number within a millionth of 3.14. *)
Lemma bits_3_14_value :
  exists q : Q,
    float32_to_Q bits_3_14 = Some q
    /\ ((314 # 100) - (1 # 1000000) <= q)%Q
    /\ (q <= (314 # 100) + (1 # 1000000))%Q.
Proof.
  eexists. split; [vm_compute; reflexivity|].
  split; unfold Qle; vm_compute; discriminate.
Qed.

(** C2, as stated, fails.  [DataPointTime.UnmarshalJSON] gets the raw text
    of the member, quotes included, and [strconv.ParseInt] rejects it: with
    the time as a string the body does not decode, and the run of [Collect]
    reports the error and writes nothing, although the timestamp is 100
    seconds old. *)
Lemma Collect_string_time_writes_nothing :
  time.Before (time.Unix 1700000000) (time.Add shortly_after (-1 * time.Hour)) = false
  /\ client.DataPointTime_UnmarshalJSON (wire "'1700000000'")
     = Err (Errorf ("failed to parse DataPointTime, raw: " +:+ wire "'1700000000'"
                    +:+ ", err:") strconv.ErrSyntax)
  /\ writes (snd (usecase.Collect (quiet_env body_string_time shortly_after) world0)) = []
  /\ fst (usecase.Collect (quiet_env body_string_time shortly_after) world0)
     = Some (Errorf "failed to read datapoint: "
              (Errorf "failed to get datapoint from data server: "
                (Errorf "failed to decode datapoint body, "
                  (Errorf "failed to decode response body, "
                    (Errorf ("failed to parse DataPointTime, raw: "
                             +:+ wire "'1700000000'" +:+ ", err:")
                       strconv.ErrSyntax))))).
Proof. repeat split; vm_compute; reflexivity. Qed.

(** C2, amended.  With the time as an integer literal, and a clock whose
    reading at the staleness check is not more than an hour past the
    timestamp, a run of [Collect] makes exactly one write, of one point, to
    the table of accepted records; the point carries the bits of 3.14, the
    tags ["ok"] and the timestamp 1700000000. *)
Theorem Collect_integer_time_one_accepted_write (env : Env)
  (Hbody : producer env = client.Response 200 body_integer_time)
  (Hrecent : time.Before (time.Unix 1700000000)
               (time.Add (wall_clock env 0%nat) (-1 * time.Hour)) = false) :
  exists (p : influxdb3.Point) (q : Q),
    writes (snd (usecase.Collect env world0)) = [[p]]
    /\ influxdb3.Measurement p = "datapoint"
    /\ influxdb3.Fields p !! "value" = Some (AnyFloat32 bits_3_14)
    /\ float32_to_Q bits_3_14 = Some q
    /\ ((314 # 100) - (1 # 1000000) <= q)%Q
    /\ (q <= (314 # 100) + (1 # 1000000))%Q
    /\ influxdb3.Fields p !! "tags" = Some (AnyStrings ["ok"])
    /\ influxdb3.Timestamp p = time.Unix 1700000000.
Proof.
  assert (Hfetch :
    client.DataPoint_fetch (producer env)
    = Ok {| client.DataPoint_Time := client.mkValue (time.Unix 1700000000) true;
            client.DataPoint_Value := client.mkValue bits_3_14 true;
            client.DataPoint_Tags := client.mkValue ["ok"] true |})
    by (rewrite Hbody; vm_compute; reflexivity).
  destruct bits_3_14_value as (q & Hq & Hlo & Hhi).
  rewrite (Collect_run env _ Hfetch). cbn [snd writes].
  eexists. exists q. split; [reflexivity|].
  cbn [collected_point influxdb3.Measurement influxdb3.Fields influxdb3.Timestamp
       client.Value_Value client.DataPoint_Time client.DataPoint_Value
       client.DataPoint_Tags].
  unfold spec.classify. rewrite Hrecent.
  repeat split; try assumption; reflexivity.
Qed.

Lemma Collect_integer_time_one_accepted_write_witness :
  exists (p : influxdb3.Point),
    writes (snd (usecase.Collect (quiet_env body_integer_time shortly_after) world0))
    = [[p]]
    /\ influxdb3.Measurement p = "datapoint"
    /\ influxdb3.Fields p !! "value" = Some (AnyFloat32 bits_3_14)
    /\ influxdb3.Fields p !! "tags" = Some (AnyStrings ["ok"]).
Proof.
  destruct (Collect_integer_time_one_accepted_write
              (quiet_env body_integer_time shortly_after))
    as (p & q & Hw & Hm & Hv & _ & _ & _ & Ht & _).
  - reflexivity.
  - vm_compute. reflexivity.
  - exists p. repeat split; assumption.
Defined.

(** ** The wire decoder *)

(** C6.  After the structural decoding of a body, [decodeDatapointBody]
    verifies completeness in the order time, value, tags (the timestamp,
    the measurement and the tags of the specification): the first field
    that is not marked processed makes the error, which names it.  In
    particular a record whose time and value are processed and whose tags
    are not fails naming "tags". *)
Theorem completeness_checked_in_order (body : string) (dp : client.DataPoint)
  (Hdecode : client.Decode body client.zero = Ok dp) :
  client.IsValid dp =
    match spec.first_missing dp with
    | Some field => (false, Some (New (field +:+ " field is not Processed")))
    | None => (true, None)
    end
  /\ client.decodeDatapointBody body =
       match spec.first_missing dp with
       | Some field =>
           Err (Errorf "invalid datapoint received: "
                  (New (field +:+ " field is not Processed")))
       | None => Ok dp
       end
  /\ (client.Value_Processed (client.DataPoint_Time dp) = true ->
      client.Value_Processed (client.DataPoint_Value dp) = true ->
      client.Value_Processed (client.DataPoint_Tags dp) = false ->
      client.decodeDatapointBody body =
        Err (Errorf "invalid datapoint received: " (New "tags field is not Processed"))).
Proof.
  unfold client.decodeDatapointBody. rewrite Hdecode.
  unfold client.IsValid, spec.first_missing, spec.required_fields.
  destruct dp as [[t pt] [v pv] [tg ptg]]; cbn.
  destruct pt, pv, ptg; cbn; repeat split; try reflexivity; intros; discriminate.
Qed.

Lemma completeness_checked_in_order_witness :
  client.decodeDatapointBody (wire "{'time':1700000000,'value':[195,245,72,64]}")
  = Err (Errorf "invalid datapoint received: " (New "tags field is not Processed")).
Proof.
  assert (Hdecode :
    client.Decode (wire "{'time':1700000000,'value':[195,245,72,64]}") client.zero
    = Ok {| client.DataPoint_Time := client.mkValue (time.Unix 1700000000) true;
            client.DataPoint_Value := client.mkValue bits_3_14 true;
            client.DataPoint_Tags := client.mkValue [] false |})
    by (vm_compute; reflexivity).
  destruct (completeness_checked_in_order _ _ Hdecode) as (_ & _ & Htags).
  apply Htags; reflexivity.
Defined.

(** The length error of [DataPointValue.UnmarshalJSON] is built from
    [len(data)], the length of the raw JSON text, whatever the number of
    bytes that were decoded from it. *)
Lemma length_error_reports_raw_length (data : string) (b : list byte) :
  json.Unmarshal_bytes data = Ok b ->
  List.length b <> 4%nat ->
  client.DataPointValue_UnmarshalJSON data =
    Err (New ("invalid data length for DataPointValue, expected 4 bytes, got "
              +:+ show_nat (String.length data) +:+ " bytes")).
Proof.
  intros Hb Hlen. unfold client.DataPointValue_UnmarshalJSON. rewrite Hb.
  destruct (Nat.eqb_spec (List.length b) 4) as [E|E]; [contradiction | reflexivity].
Qed.

(** C3 does not hold of the code.  The array [1,2,3] decodes to three
    bytes, and the error reports 7, the length of its text; the value null
    decodes to no byte at all, and the error reports 4. *)
Theorem three_bytes_are_reported_as_seven :
  json.Unmarshal_bytes "[1,2,3]" = Ok [x01; x02; x03]
  /\ client.DataPointValue_UnmarshalJSON "[1,2,3]" =
       Err (New "invalid data length for DataPointValue, expected 4 bytes, got 7 bytes")
  /\ json.Unmarshal_bytes "null" = Ok []
  /\ client.DataPointValue_UnmarshalJSON "null" =
       Err (New "invalid data length for DataPointValue, expected 4 bytes, got 4 bytes").
Proof. repeat split; vm_compute; reflexivity. Qed.

(** ** The range query *)

(** With a start, with both bounds, and with none, the statement is well
    formed and binds exactly the parameters it names. *)
Lemma Query_statement_well_formed (start : time.Time) (until : option time.Time) :
  sql.well_formed (fst (repository.Query_statement (Some start) until))
                  (snd (repository.Query_statement (Some start) until)) = true
  /\ sql.well_formed (fst (repository.Query_statement None None))
                     (snd (repository.Query_statement None None)) = true.
Proof. destruct until; split; vm_compute; reflexivity. Qed.

(** C4 does not hold of the code.  With an until bound and no start bound
    the statement gets its AND clause without a WHERE before it: it is not
    a well-formed SELECT, and that is what the store is asked to run. *)
Theorem Query_until_only_is_malformed (until : time.Time) :
  repository.Query_statement None (Some until) =
    ("SELECT * FROM datapoint AND time <= $until ORDER BY time DESC",
     <["until" := until]> ∅)
  /\ sql.select_parameters (fst (repository.Query_statement None (Some until))) = None
  /\ sql.well_formed (fst (repository.Query_statement None (Some until)))
                     (snd (repository.Query_statement None (Some until))) = false
  /\ forall env w,
       fst (repository.Query None (Some until) env w) =
       match store_query env
               "SELECT * FROM datapoint AND time <= $until ORDER BY time DESC"
               (<["until" := until]> ∅) with
       | Ok rows => Ok rows
       | Err err => Err (Join (New "failed to execute query") err)
       end.
Proof.
  split; [reflexivity|]. split; [vm_compute; reflexivity|].
  split; [vm_compute; reflexivity|].
  intros env w. unfold repository.Query, bind, QueryWithParameters. cbn.
  destruct (store_query env _ _); reflexivity.
Qed.

(** Seen from the service boundary: when the store refuses statements that
    are not well formed, a request with an until bound and no start bound
    is answered with status 500. *)
Lemma until_only_request_fails
  (parse_rfc3339 : string -> Result time.Time)
  (format_rfc3339 : time.Time -> string)
  (marshal : http.DataPointModel -> option string)
  (narrow : Z -> float32) (write_ok : nat -> bool)
  (env : Env) (wd : World) (text : string) (until : time.Time) :
  parse_rfc3339 text = Ok until ->
  (forall q ps, sql.well_formed q ps = false -> exists err, store_query env q ps = Err err) ->
  exists message,
    fst (http.DataPointQuery parse_rfc3339 format_rfc3339 marshal narrow write_ok
           (http.mkParams None (Some text)) env wd)
    = http.ReplyError http.StatusInternalServerError message.
Proof.
  intros Hparse Hstore.
  destruct (Hstore "SELECT * FROM datapoint AND time <= $until ORDER BY time DESC"
              (<["until" := until]> ∅)) as [err Herr]; [vm_compute; reflexivity|].
  unfold http.DataPointQuery, http.parseTime. cbn [http.Start http.Until].
  rewrite Hparse.
  unfold usecase.Query, repository.Query, bind, QueryWithParameters, ret.
  change (repository.Query_statement None (Some until))
    with ("SELECT * FROM datapoint AND time <= $until ORDER BY time DESC",
          (<["until" := until]> ∅ : gmap string time.Time)).
  cbv beta iota. rewrite Herr. eexists. reflexivity.
Qed.

(** ** The measurement: four bytes, least significant first *)

Lemma b2z_z2b (x : Z) : binary.b2z (base64.z2b x) = x mod 256.
Proof.
  unfold binary.b2z, base64.z2b.
  assert (Hr : 0 <= x mod 256 < 256) by (apply Z.mod_pos_bound; lia).
  destruct (Byte.of_N (Z.to_N (x mod 256))) as [b|] eqn:E.
  - apply Byte.to_of_N in E. rewrite E. lia.
  - apply Byte.of_N_None_iff in E. lia.
Qed.

Lemma b2z_z2b_land (x : Z) :
  binary.b2z (base64.z2b (Z.land x 255)) = Z.land x 255.
Proof.
  rewrite b2z_z2b. change 255 with (Z.ones 8). rewrite Z.land_ones by lia.
  change (2 ^ 8) with 256. apply Z.mod_mod. lia.
Qed.

Lemma testbit_byte_at (f k n : Z) :
  0 <= k -> 0 <= n ->
  Z.testbit (Z.shiftl (Z.land (Z.shiftr f k) (Z.ones 8)) k) n
  = (Z.testbit f n && (k <=? n) && (n <? k + 8))%bool.
Proof.
  intros Hk Hn.
  destruct (Z.leb_spec k n) as [Hle|Hlt].
  - rewrite Z.shiftl_spec_high by lia.
    rewrite Z.land_spec, Z.shiftr_spec by lia.
    rewrite Z.testbit_ones_nonneg by lia.
    replace (n - k + k) with n by lia.
    rewrite andb_true_r. f_equal.
    destruct (Z.ltb_spec (n - k) 8), (Z.ltb_spec n (k + 8)); try reflexivity; lia.
  - rewrite Z.shiftl_spec_low by lia.
    rewrite andb_false_r. reflexivity.
Qed.

Lemma testbit_above (f n : Z) : 0 <= f < 2 ^ 32 -> 32 <= n -> Z.testbit f n = false.
Proof.
  intros Hf Hn.
  destruct (Z.eq_dec f 0) as [->|Hne]; [apply Z.testbit_0_l|].
  apply Z.bits_above_log2; [lia|].
  apply Z.log2_lt_pow2; [lia|].
  assert (2 ^ 32 <= 2 ^ n) by (apply Z.pow_le_mono_r; lia). lia.
Qed.

Lemma le_bytes_round_trip (f : Z) :
  0 <= f < 2 ^ 32 ->
  binary.LittleEndian_Uint32 (spec.float32ToBytes f) = Some f.
Proof.
  intros Hf. unfold spec.float32ToBytes, binary.LittleEndian_Uint32, math.Float32bits.
  f_equal. rewrite !b2z_z2b_land.
  change 255 with (Z.ones 8).
  rewrite <- (Z.shiftr_0_r f) at 1.
  rewrite <- (Z.shiftl_0_r (Z.land (Z.shiftr f 0) (Z.ones 8))).
  apply Z.bits_inj'. intros n Hn.
  rewrite !Z.lor_spec, !testbit_byte_at by lia.
  destruct (Z.ltb_spec n 32) as [Hlt|Hge].
  - destruct (Z.testbit f n); cbn [andb]; [|reflexivity].
    destruct (Z.leb_spec 0 n), (Z.leb_spec 8 n), (Z.leb_spec 16 n), (Z.leb_spec 24 n),
      (Z.ltb_spec n (0 + 8)), (Z.ltb_spec n (8 + 8)), (Z.ltb_spec n (16 + 8)),
      (Z.ltb_spec n (24 + 8)); try reflexivity; lia.
  - rewrite (testbit_above f n) by lia. reflexivity.
Qed.

(** A byte's decimal text at the head of the input, before a comma or a
    closing bracket, scans as a number. *)
Lemma parse_value_byte (b : byte) (c : ascii) (rest : string) (fuel : nat) :
  (0 < fuel)%nat ->
  c = ","%char \/ c = "]"%char ->
  json.parse_value fuel (spec.show_byte b +:+ String c rest)
  = Some (json.TNumber (spec.show_byte b), spec.show_byte b, String c rest).
Proof.
  intros Hfuel Hc. destruct fuel as [|fuel]; [lia|].
  destruct Hc as [-> | ->]; destruct b; reflexivity.
Qed.

Lemma decode_byte_shown (b : byte) :
  json.decode_byte (spec.show_byte b, json.TNumber (spec.show_byte b)) = Ok b.
Proof. destruct b; vm_compute; reflexivity. Qed.

Lemma append_assoc (a b c : string) : (a +:+ b) +:+ c = a +:+ (b +:+ c).
Proof.
  induction a as [|x a IH]; [reflexivity|].
  change (String x ((a +:+ b) +:+ c) = String x (a +:+ (b +:+ c))).
  f_equal. exact IH.
Qed.

Lemma append_empty_r (a : string) : a +:+ EmptyString = a.
Proof.
  induction a as [|x a IH]; [reflexivity|].
  change (String x (a +:+ EmptyString) = String x a). f_equal. exact IH.
Qed.

Lemma length_append (a b : string) :
  String.length (a +:+ b) = (String.length a + String.length b)%nat.
Proof.
  induction a as [|x a IH]; [reflexivity|].
  change (S (String.length (a +:+ b)) = S (String.length a + String.length b)).
  f_equal. exact IH.
Qed.

(** The text of a byte starts with a digit. *)
Lemma span_space_byte (b : byte) (s : string) :
  json.span_space (spec.show_byte b +:+ s) = (EmptyString, spec.show_byte b +:+ s).
Proof. destruct b; reflexivity. Qed.

Lemma show_byte_head (b : byte) :
  exists c r, spec.show_byte b = String c r
              /\ ascii_class.is_space c = false
              /\ Ascii.eqb c "]" = false.
Proof. destruct b; eexists; eexists; repeat split. Qed.

Lemma show_byte_length (b : byte) : (1 <= String.length (spec.show_byte b))%nat.
Proof. destruct b; vm_compute; lia. Qed.

Lemma span_space_nonspace (c : ascii) (s : string) :
  ascii_class.is_space c = false ->
  json.span_space (String c s) = (EmptyString, String c s).
Proof. intros H. cbn [json.span_space]. rewrite H. reflexivity. Qed.

Lemma span_space_items (b : byte) (bs : list byte) (rest : string) :
  json.span_space (spec.json_items b bs +:+ rest)
  = (EmptyString, spec.json_items b bs +:+ rest).
Proof.
  destruct bs; cbn [spec.json_items]; rewrite append_assoc; apply span_space_byte.
Qed.

(** The items of a rendered array scan as one number per byte. *)
Lemma parse_items_bytes (bs : list byte) :
  forall (b : byte) (fuel : nat) (rest : string),
    (List.length bs + 1 < fuel)%nat ->
    exists raw,
      json.parse_items fuel (spec.json_items b bs +:+ rest)
      = Some (byte_elems (b :: bs), raw, rest).
Proof.
  induction bs as [|b' bs IH]; intros b fuel rest Hfuel.
  - destruct fuel as [|fuel]; [cbn in Hfuel; lia|].
    cbn [spec.json_items]. rewrite append_assoc.
    change ("]" +:+ rest) with (String "]" rest).
    cbn [json.parse_items].
    rewrite parse_value_byte by (cbn in Hfuel; first [lia | right; reflexivity]).
    rewrite span_space_nonspace by reflexivity.
    eexists. reflexivity.
  - destruct fuel as [|fuel]; [cbn in Hfuel; lia|].
    cbn [spec.json_items]. rewrite append_assoc.
    change (String "," (spec.json_items b' bs) +:+ rest)
      with (String "," (spec.json_items b' bs +:+ rest)).
    cbn [json.parse_items].
    rewrite parse_value_byte by (cbn in Hfuel; first [lia | left; reflexivity]).
    rewrite span_space_nonspace by reflexivity.
    change (Ascii.eqb "," ",") with true. cbv beta iota.
    rewrite span_space_items.
    destruct (IH b' fuel rest) as [raw Hraw]; [cbn in Hfuel; lia|].
    rewrite Hraw. eexists. reflexivity.
Qed.

Lemma json_items_length (bs : list byte) :
  forall b, (List.length bs + 2 <= String.length (spec.json_items b bs))%nat.
Proof.
  induction bs as [|b' bs IH]; intros b; cbn [spec.json_items].
  - rewrite length_append. pose proof (show_byte_length b). cbn. lia.
  - rewrite length_append. pose proof (show_byte_length b). specialize (IH b').
    cbn [String.length List.length]. lia.
Qed.

(** A rendered array of bytes is a document whose elements are the bytes. *)
Lemma parse_document_bytes (bs : list byte) :
  json.parse_document (spec.json_array bs) = Some (json.TArray (byte_elems bs)).
Proof.
  destruct bs as [|b bs]; [reflexivity|].
  unfold json.parse_document, json.fuel_for.
  cbn [spec.json_array String.length].
  destruct (parse_items_bytes bs b (2 * S (String.length (spec.json_items b bs))) EmptyString)
    as [raw Hraw].
  { pose proof (json_items_length bs b). lia. }
  rewrite append_empty_r in Hraw.
  destruct (show_byte_head b) as (c & r & Hhead & Hsp & Hbr).
  assert (Hitems : exists r', spec.json_items b bs = String c r').
  { destruct bs; cbn [spec.json_items]; rewrite Hhead; eexists; reflexivity. }
  destruct Hitems as [r' Hr'].
  unfold json.skip_space. rewrite span_space_nonspace by reflexivity.
  cbn [snd json.parse_value].
  change (Ascii.eqb "[" json.dquote) with false.
  change (Ascii.eqb "[" "[") with true. cbv beta iota.
  rewrite Hr' in *. rewrite span_space_nonspace by exact Hsp.
  rewrite Hbr, Hraw. reflexivity.
Qed.

Lemma decode_all_bytes (bs : list byte) :
  json.decode_all json.decode_byte (byte_elems bs) = Ok bs.
Proof.
  induction bs as [|b bs IH]; [reflexivity|].
  cbn [byte_elems List.map json.decode_all]. rewrite decode_byte_shown.
  fold (byte_elems bs). rewrite IH. reflexivity.
Qed.

Lemma Unmarshal_bytes_array (bs : list byte) :
  json.Unmarshal_bytes (spec.json_array bs) = Ok bs.
Proof.
  unfold json.Unmarshal_bytes. rewrite parse_document_bytes. apply decode_all_bytes.
Qed.

(** C7.  For every float32 [f], given by its bit pattern, the measurement
    decoded from the JSON array of the four little-endian bytes of [f] is
    [f] itself, bit for bit, and is marked processed; no bit pattern is
    excluded, the NaNs and the infinities included. *)
Theorem measurement_round_trip (f : float32) (Hf : 0 <= f < 2 ^ 32) :
  client.DataPointValue_UnmarshalJSON (spec.json_array (spec.float32ToBytes f))
  = Ok {| client.Value_Value := f; client.Value_Processed := true |}.
Proof.
  unfold client.DataPointValue_UnmarshalJSON.
  rewrite Unmarshal_bytes_array.
  change (List.length (spec.float32ToBytes f)) with 4%nat.
  cbn [Nat.eqb negb].
  rewrite (le_bytes_round_trip f Hf). reflexivity.
Qed.

(** The quiet NaN 0x7FC00000 travels as [0,0,192,127] and comes back. *)
Lemma measurement_round_trip_witness :
  spec.json_array (spec.float32ToBytes 2143289344) = "[0,0,192,127]"
  /\ float32_to_Q 2143289344 = None
  /\ client.DataPointValue_UnmarshalJSON "[0,0,192,127]"
     = Ok {| client.Value_Value := 2143289344; client.Value_Processed := true |}.
Proof.
  split; [vm_compute; reflexivity|]. split; [vm_compute; reflexivity|].
  change "[0,0,192,127]" with (spec.json_array (spec.float32ToBytes 2143289344)).
  apply measurement_round_trip. lia.
Defined.

(** The cases of the client's test of [DataPointValue.UnmarshalJSON], whose
    helper renders the bytes with [json.Marshal], that is as a base64
    string: 3.14, 0, -42.5 and 1e6 decode to their bit patterns; three
    bytes, five bytes and a string that is not base64 are errors. *)
Lemma DataPointValue_test_table :
  client.DataPointValue_UnmarshalJSON (wire "'w/VIQA=='")
  = Ok (client.mkValue bits_3_14 true)
  /\ client.DataPointValue_UnmarshalJSON (wire "'AAAAAA=='") = Ok (client.mkValue 0 true)
  /\ client.DataPointValue_UnmarshalJSON (wire "'AAAqwg=='")
     = Ok (client.mkValue 3257532416 true)
  /\ client.DataPointValue_UnmarshalJSON (wire "'ACR0SQ=='")
     = Ok (client.mkValue 1232348160 true)
  /\ (exists err, client.DataPointValue_UnmarshalJSON "[1,2,3]" = Err err)
  /\ (exists err, client.DataPointValue_UnmarshalJSON "[1,2,3,4,5]" = Err err)
  /\ (exists err, client.DataPointValue_UnmarshalJSON (wire "'not a byte array'") = Err err).
Proof.
  repeat split; try (vm_compute; reflexivity); eexists; vm_compute; reflexivity.
Qed.

(** For an array of a number of bytes other than four, the number in the
    error is the length of the array's text, which is always more than the
    number of bytes. *)
Lemma wrong_length_array_reports_text_length (bs : list byte) :
  List.length bs <> 4%nat ->
  client.DataPointValue_UnmarshalJSON (spec.json_array bs) =
    Err (New ("invalid data length for DataPointValue, expected 4 bytes, got "
              +:+ show_nat (String.length (spec.json_array bs)) +:+ " bytes"))
  /\ (List.length bs < String.length (spec.json_array bs))%nat.
Proof.
  intros Hlen. split.
  - apply (length_error_reports_raw_length _ bs); [apply Unmarshal_bytes_array | exact Hlen].
  - destruct bs as [|b bs]; [cbn; lia|].
    cbn [spec.json_array String.length List.length].
    pose proof (json_items_length bs b). lia.
Qed.

(** ** The query streamer *)

Lemma continuation_succ (i : nat) (items : list string) :
  continuation (S i) items = continuation 1 items.
Proof.
  revert i. induction items as [|x rest IH]; intros i; [reflexivity|].
  cbn [continuation]. rewrite (IH (S i)), (IH 1%nat). reflexivity.
Qed.

Lemma comma_separated_cons (x : string) (rest : list string) :
  spec.comma_separated (x :: rest) = x +:+ continuation 1 rest.
Proof.
  revert x. induction rest as [|y rest IH]; intros x.
  - cbn [spec.comma_separated continuation]. symmetry. apply append_empty_r.
  - change (spec.comma_separated (x :: y :: rest))
      with (x +:+ "," +:+ spec.comma_separated (y :: rest)).
    rewrite (IH y). cbn [continuation]. rewrite (continuation_succ 1). reflexivity.
Qed.

Lemma continuation_0 (items : list string) :
  continuation 0 items = spec.comma_separated items.
Proof.
  destruct items as [|x rest]; [reflexivity|].
  rewrite comma_separated_cons. cbn [continuation]. reflexivity.
Qed.

(** The loop of the streamer, when no write fails and every extracted row
    encodes: it runs to its end, skips the rows whose extraction fails, and
    adds the items of the others, a comma before each but the very first. *)
Lemma stream_rows_body
  (format_rfc3339 : time.Time -> string) (marshal : http.DataPointModel -> option string)
  (narrow : Z -> float32) (rows : list influxdb3.Row) :
  forall (items : list string) (i : nat) (w : http.ResponseWriter) (env : Env) (wd : World),
    spec.encode_all marshal (List.map (model_of format_rfc3339) (spec.extracted narrow rows))
    = Some items ->
    exists n wd',
      http.stream_rows format_rfc3339 marshal narrow (fun _ => true) rows i w env wd
      = ({| http.content_type := http.content_type w;
            http.body := http.body w +:+ continuation i items;
            http.write_calls := n |}, true, wd').
Proof.
  induction rows as [|row rest IH]; intros items i w env wd Hitems.
  - cbn in Hitems. injection Hitems as <-. cbn [http.stream_rows continuation ret].
    rewrite append_empty_r. destruct w. eexists. eexists. reflexivity.
  - cbn [http.stream_rows spec.extracted] in *.
    destruct (iter.Value narrow row) as [dp|err] eqn:Hrow.
    + cbn [List.map spec.encode_all] in Hitems.
      destruct (marshal (model_of format_rfc3339 dp)) as [s|] eqn:Hs; [|discriminate].
      destruct (spec.encode_all marshal _) as [ss|] eqn:Hss; [|discriminate].
      injection Hitems as <-.
      unfold http.Encode, http.Write.
      change {| http.Time := format_rfc3339 (dto.Time dp); http.Value := dto.Value dp |}
        with (model_of format_rfc3339 dp).
      destruct (Nat.ltb 0 i) eqn:Hi; cbn [http.write_calls http.body http.content_type];
        rewrite Hs; cbn [http.write_calls http.body http.content_type].
      * destruct (IH ss (S i)
                    {| http.content_type := http.content_type w;
                       http.body := (http.body w +:+ ",") +:+ s;
                       http.write_calls := S (S (http.write_calls w)) |}
                    env wd eq_refl) as (n & wd' & Hrun).
        exists n, wd'. rewrite Hrun. cbn [http.content_type http.body continuation].
        rewrite Hi. rewrite !append_assoc. reflexivity.
      * destruct (IH ss (S i)
                    {| http.content_type := http.content_type w;
                       http.body := http.body w +:+ s;
                       http.write_calls := S (http.write_calls w) |}
                    env wd eq_refl) as (n & wd' & Hrun).
        exists n, wd'. rewrite Hrun. cbn [http.content_type http.body continuation].
        rewrite Hi. rewrite !append_assoc. reflexivity.
    + unfold bind, http.ErrorContext.
      destruct (IH items i w env
                  {| clock_reads := clock_reads wd; writes := writes wd;
                     logs := logs wd ++
                       [mkLog "ERROR" "Error retrieving item"
                          [("iter_counter", AnyInt (Z.of_nat i)); ("error", AnyError err)]] |}
                  Hitems) as (n & wd' & Hrun).
      exists n, wd'. rewrite Hrun. reflexivity.
Qed.

(** C8.  For every cursor, when the range parses, the query succeeds, no
    write on the response fails and every extracted row encodes, the body
    of the response is an opening bracket, the items of exactly the rows
    whose extraction succeeds, in cursor order, with a comma between two
    items, and a closing bracket; the content type is application/json. *)
Theorem streamed_body_is_the_array_of_extracted_rows
  (parse_rfc3339 : string -> Result time.Time)
  (format_rfc3339 : time.Time -> string)
  (marshal : http.DataPointModel -> option string)
  (narrow : Z -> float32)
  (params : http.DataPointQueryParams) (env : Env) (wd : World)
  (start until : option time.Time) (rows : list influxdb3.Row) (items : list string)
  (Hstart : http.parseTime parse_rfc3339 (http.Start params) = Ok start)
  (Huntil : http.parseTime parse_rfc3339 (http.Until params) = Ok until)
  (Hquery : store_query env (fst (repository.Query_statement start until))
              (snd (repository.Query_statement start until)) = Ok rows)
  (Hitems : spec.encode_all marshal
              (List.map (model_of format_rfc3339) (spec.extracted narrow rows))
            = Some items) :
  exists n,
    fst (http.DataPointQuery parse_rfc3339 format_rfc3339 marshal narrow
           (fun _ => true) params env wd)
    = http.ReplyStream
        {| http.content_type := Some "application/json";
           http.body := spec.array_of items;
           http.write_calls := n |}.
Proof.
  unfold http.DataPointQuery. rewrite Hstart, Huntil.
  unfold usecase.Query, repository.Query, bind, QueryWithParameters, ret.
  destruct (repository.Query_statement start until) as [query parameters] eqn:Hstmt.
  cbn [fst snd] in Hquery. rewrite Hquery.
  unfold iter.NewDataPointIter, http.Write at 1.
  cbn [http.write_calls http.body http.content_type http.writer0].
  destruct (stream_rows_body format_rfc3339 marshal narrow rows items 0
              {| http.content_type := Some "application/json";
                 http.body := EmptyString +:+ "[";
                 http.write_calls := 1 |} env wd Hitems) as (n & wd' & Hrun).
  rewrite Hrun. unfold http.Write.
  cbn [http.write_calls http.body http.content_type fst].
  exists (S n). unfold spec.array_of. rewrite continuation_0.
  reflexivity.
Qed.

Lemma streamed_body_is_the_array_of_extracted_rows_witness :
  (exists n,
     fst (http.DataPointQuery (fun _ => Err (LibErr "unused")) demo_format demo_marshal
            (fun v => v) (fun _ => true) (http.mkParams None None)
            (demo_store []) world0)
     = http.ReplyStream (http.mkWriter (Some "application/json") "[]" n))
  /\ (exists n,
     fst (http.DataPointQuery (fun _ => Err (LibErr "unused")) demo_format demo_marshal
            (fun v => v) (fun _ => true) (http.mkParams None None)
            (demo_store demo_rows) world0)
     = http.ReplyStream
         (http.mkWriter (Some "application/json")
            (wire "[{'time':'3','value':30},{'time':'2','value':20},{'time':'1','value':10}]")
            n)).
Proof.
  split.
  - apply (streamed_body_is_the_array_of_extracted_rows
             (fun _ => Err (LibErr "unused")) demo_format demo_marshal (fun v => v)
             (http.mkParams None None) (demo_store []) world0 None None [] []);
      reflexivity.
  - apply (streamed_body_is_the_array_of_extracted_rows
             (fun _ => Err (LibErr "unused")) demo_format demo_marshal (fun v => v)
             (http.mkParams None None) (demo_store demo_rows) world0 None None demo_rows
             [wire "{'time':'3','value':30}"; wire "{'time':'2','value':20}";
              wire "{'time':'1','value':10}"]);
      vm_compute; reflexivity.
Defined.

(** ** The periodic trigger *)

(** From a state that [reset] has left fresh, a call of [Start] goes
    through the guard and invokes the task at once, with a context that is
    not cancelled. *)
Lemma Start_on_fresh_state (st : collector.State) :
  collector.crashed st = false ->
  collector.fresh st = true ->
  let tid := List.length (collector.threads st) in
  exists st',
    collector.run [collector.CallStart; collector.Run tid false; collector.Run tid false] st
    = Some st'
    /\ collector.trace st' =
       collector.trace st ++
         [collector.StartCalled tid;
          collector.TaskBegin tid (collector.triggerCtx (collector.pt st)) false]
    /\ collector.threads st' =
       collector.threads st ++ [collector.InFirstCall (collector.startOnce (collector.pt st))].
Proof.
  intros Hcrash Hfresh tid. unfold collector.fresh in Hfresh.
  apply andb_prop in Hfresh as [Hfresh Hne].
  apply andb_prop in Hfresh as [Hfresh Hcancel].
  apply andb_prop in Hfresh as [Hfresh Hctx].
  apply andb_prop in Hfresh as [Hfresh Hstop].
  apply andb_prop in Hfresh as [Hchan Hstart].
  apply bool_decide_eq_true in Hchan, Hstart, Hstop, Hctx.
  destruct st as [p chans onces ctxs tickers next threads trace crashed].
  cbn [collector.pt collector.chans collector.onces collector.ctxs collector.threads
       collector.trace collector.crashed] in *.
  subst crashed.
  subst tid.
  cbv [collector.run collector.step collector.spawn collector.emit
       collector.crashed collector.threads].
  set (tid := List.length threads).
  unfold collector.step_thread at 1. cbv [collector.threads].
  rewrite (lookup_app_r threads [collector.AtStartDo]) by lia.
  rewrite Nat.sub_diag. cbn [lookup list_lookup].
  cbv [collector.enter_once collector.onces collector.pt]. rewrite Hstart.
  cbv [collector.goto collector.set_onces collector.crashed collector.threads
       collector.pt collector.chans collector.onces collector.ctxs collector.tickers
       collector.next collector.trace].
  rewrite (insert_app_r_alt threads [collector.AtStartDo]) by lia.
  rewrite Nat.sub_diag. cbn [insert list_insert].
  unfold collector.step_thread at 1. cbv [collector.threads].
  rewrite (lookup_app_r threads) by lia.
  rewrite Nat.sub_diag. cbn [lookup list_lookup].
  cbv [collector.invoke collector.goto collector.emit collector.crashed collector.threads
       collector.pt collector.chans collector.onces collector.ctxs collector.tickers
       collector.next collector.trace].
  rewrite Hctx. cbn [default].
  rewrite (insert_app_r_alt threads) by lia.
  rewrite Nat.sub_diag. cbn [insert list_insert].
  eexists. split; [reflexivity|].
  cbv [collector.trace collector.threads]. split; [|reflexivity].
  rewrite <- app_assoc. reflexivity.
Qed.

(** C10.  [Stop] on a trigger that was never started: the call goes through
    its eight steps, none of which waits for anything (the send finds room
    in the buffer of the stop channel) and none of which panics, and
    returns.  It leaves fresh synchronization state, made of objects that
    did not exist before, and a following [Start] goes through the new
    guard and invokes the task at once with a context that is not
    cancelled, as on a new trigger. *)
Theorem Stop_on_a_trigger_never_started (interval : Z) (choices : list bool)
  (Hlen : List.length choices = 8%nat) :
  exists st,
    collector.run (stop_alone choices) (collector.NewPeriodicTrigger interval) = Some st
    /\ collector.threads st = [collector.Returned]
    /\ collector.trace st = [collector.StopCalled 0; collector.StopReturned 0]
    /\ collector.crashed st = false
    /\ collector.fresh st = true
    /\ collector.chans (collector.NewPeriodicTrigger interval)
         !! collector.stopCh (collector.pt st) = None
    /\ collector.onces (collector.NewPeriodicTrigger interval)
         !! collector.startOnce (collector.pt st) = None
    /\ collector.onces (collector.NewPeriodicTrigger interval)
         !! collector.stopOnce (collector.pt st) = None
    /\ collector.ctxs (collector.NewPeriodicTrigger interval)
         !! collector.triggerCtx (collector.pt st) = None
    /\ exists st',
         collector.run [collector.CallStart; collector.Run 1 false; collector.Run 1 false] st
         = Some st'
         /\ collector.trace st' =
            [collector.StopCalled 0; collector.StopReturned 0; collector.StartCalled 1;
             collector.TaskBegin 1 (collector.triggerCtx (collector.pt st)) false].
Proof.
  do 9 (destruct choices as [|? choices]; try discriminate Hlen).
  eexists. split; [vm_compute; reflexivity|].
  repeat (split; [vm_compute; reflexivity|]).
  match goal with
  | |- exists st', collector.run _ ?st = _ /\ _ =>
      destruct (Start_on_fresh_state st) as (st' & Hrun & Htrace & _);
        [vm_compute; reflexivity | vm_compute; reflexivity |]
  end.
  exists st'. split; [exact Hrun|]. rewrite Htrace. reflexivity.
Qed.

Lemma Stop_on_a_trigger_never_started_witness :
  exists st,
    collector.run (stop_alone (repeat false 8)) (collector.NewPeriodicTrigger 1000) = Some st
    /\ collector.threads st = [collector.Returned]
    /\ collector.fresh st = true.
Proof.
  destruct (Stop_on_a_trigger_never_started 1000 (repeat false 8) eq_refl)
    as (st & Hrun & Hthreads & _ & _ & Hfresh & _).
  exists st. repeat split; assumption.
Defined.

Open Scope nat_scope.

(** C1 does not hold of the code: [Stop] sends on the buffered channel,
    closes it, resets the fields and returns; it waits for nothing, and the
    cancelling and the stopping of the ticker are left to the goroutine of
    [start].
    First schedule: [Stop] is called during the first invocation.  It
    returns while the invocation is in flight; the goroutine, made later,
    waits on the new stop channel, nothing stops the ticker, and the loop
    invokes the task after [Stop] has returned and before any other
    [Start].
    Second schedule: [Stop] is called while the loop waits.  It returns
    with the loop alive, the ticker running and the context not cancelled,
    so that a tick still invokes the task; and when the goroutine wakes,
    the cancel function it finds in the trigger is the new one: the old
    context stays as it was and the next [Start] gets a cancelled one. *)
Theorem Stop_returns_while_the_loop_lives :
  (exists st st',
     collector.run stop_during_first_call (collector.NewPeriodicTrigger 1000) = Some st
     /\ collector.trace st =
        [collector.StartCalled 0; collector.TaskBegin 0 3 false;
         collector.StopCalled 1; collector.StopReturned 1]
     /\ collector.in_flight 0 (collector.trace st) = 1%nat
     /\ collector.threads st = [collector.InFirstCall 1; collector.Returned]
     /\ collector.run then_the_loop_goes_on st = Some st'
     /\ collector.trace st' =
        [collector.StartCalled 0; collector.TaskBegin 0 3 false;
         collector.StopCalled 1; collector.StopReturned 1;
         collector.TaskEnd 0 false; collector.TaskBegin 0 7 false]
     /\ collector.quiet_gaps false (collector.trace st') = false
     /\ collector.threads st' =
        [collector.InTickCall 1 8 9; collector.Returned; collector.AtListenRecv 4 8 9]
     /\ collector.stopCh (collector.pt st') = 4%nat
     /\ collector.tickers st' !! 8%nat = Some false
     /\ collector.ctxs st' !! 3%nat = Some false)
  /\ (exists st st' st'',
     collector.run stop_while_waiting (collector.NewPeriodicTrigger 1000) = Some st
     /\ collector.trace st =
        [collector.StartCalled 0; collector.TaskBegin 0 3 false; collector.TaskEnd 0 false;
         collector.StopCalled 2; collector.StopReturned 2]
     /\ collector.threads st =
        [collector.AtLoopSelect 1 4 5; collector.AtListenRecv 0 4 5; collector.Returned]
     /\ collector.tickers st !! 4%nat = Some false
     /\ collector.ctxs st !! 3%nat = Some false
     /\ collector.run [collector.Run 0 false] st = Some st'
     /\ collector.quiet_gaps false (collector.trace st') = false
     /\ collector.run then_the_goroutine_wakes st = Some st''
     /\ collector.trace st'' =
        [collector.StartCalled 0; collector.TaskBegin 0 3 false; collector.TaskEnd 0 false;
         collector.StopCalled 2; collector.StopReturned 2;
         collector.StartCalled 3; collector.TaskBegin 3 9 true]
     /\ collector.ctxs st'' !! 3%nat = Some false
     /\ collector.threads st'' =
        [collector.AtLoopSelect 1 4 5; collector.AtListenDone 4 5; collector.Returned;
         collector.InFirstCall 7]).
Proof.
  split.
  - eexists. eexists.
    split; [vm_compute; reflexivity|].
    repeat (split; [vm_compute; reflexivity|]). vm_compute. reflexivity.
  - eexists. eexists. eexists.
    split; [vm_compute; reflexivity|].
    repeat (split; [vm_compute; reflexivity|]). vm_compute. reflexivity.
Qed.

Close Scope nat_scope.

(** ** No [Start] ever returns *)



Lemma not_in_snoc {A : Type} (x y : A) (l : list A) :
  ~ In x l -> x <> y -> ~ In x (l ++ [y]).
Proof.
  intros Hl Hne Hin. apply in_app_or in Hin as [Hin | [Heq | []]]; [tauto | congruence].
Qed.









(* ===================================================================== *)
(** * Further properties of the code                                      *)
(* ===================================================================== *)

(** ** The producer client *)

Lemma decodeDatapointBody_complete (body : string) (dp : client.DataPoint) :
  client.decodeDatapointBody body = Ok dp ->
  client.Decode body client.zero = Ok dp /\ client.IsValid dp = (true, None).
Proof.
  unfold client.decodeDatapointBody.
  destruct (client.Decode body client.zero) as [dp'|e]; [|discriminate].
  destruct (client.IsValid dp') as [[|] [e|]] eqn:Hvalid; try discriminate.
  - unfold client.IsValid in Hvalid.
    destruct (client.Value_Processed (client.DataPoint_Time dp')); [|discriminate].
    destruct (client.Value_Processed (client.DataPoint_Value dp')); [|discriminate].
    destruct (client.Value_Processed (client.DataPoint_Tags dp')); discriminate.
  - intros H. injection H as <-. split; [reflexivity | exact Hvalid].
Qed.

(** X1.  Whatever the transport answers, a record that
    [DataServerClient.DataPoint] returns came from a response with status
    200 exactly and has all its three fields marked processed: the callers
    never see a half-decoded record. *)
Theorem fetched_record_is_complete (o : client.http_outcome) (dp : client.DataPoint)
  (Hfetch : client.DataPoint_fetch o = Ok dp) :
  (exists body, o = client.Response 200 body /\ client.Decode body client.zero = Ok dp)
  /\ client.Value_Processed (client.DataPoint_Time dp) = true
  /\ client.Value_Processed (client.DataPoint_Value dp) = true
  /\ client.Value_Processed (client.DataPoint_Tags dp) = true.
Proof.
  destruct o as [e|e|code body]; cbn in Hfetch; try discriminate.
  destruct (Z.eqb_spec code client.StatusOK) as [->|Hne]; cbn in Hfetch; [|discriminate].
  destruct (client.decodeDatapointBody body) as [dp'|e] eqn:Hbody; [|discriminate].
  apply decodeDatapointBody_complete in Hbody as [Hdec Hvalid].
  rewrite Hvalid in Hfetch. injection Hfetch as <-.
  split; [exists body; split; [reflexivity | exact Hdec]|].
  unfold client.IsValid in Hvalid.
  destruct (client.Value_Processed (client.DataPoint_Time dp')); [|discriminate].
  destruct (client.Value_Processed (client.DataPoint_Value dp')); [|discriminate].
  destruct (client.Value_Processed (client.DataPoint_Tags dp')); [|discriminate].
  repeat split.
Qed.

Lemma fetched_record_is_complete_witness :
  client.Value_Processed
    (client.DataPoint_Tags
       {| client.DataPoint_Time := client.mkValue (time.Unix 1700000000) true;
          client.DataPoint_Value := client.mkValue bits_3_14 true;
          client.DataPoint_Tags := client.mkValue ["ok"] true |}) = true.
Proof.
  assert (Hfetch :
    client.DataPoint_fetch (client.Response 200 body_integer_time)
    = Ok {| client.DataPoint_Time := client.mkValue (time.Unix 1700000000) true;
            client.DataPoint_Value := client.mkValue bits_3_14 true;
            client.DataPoint_Tags := client.mkValue ["ok"] true |})
    by (vm_compute; reflexivity).
  destruct (fetched_record_is_complete _ _ Hfetch) as (_ & _ & _ & Htags).
  exact Htags.
Defined.

(** X2.  The errors of [DataServerClient.DataPoint] are of four kinds only:
    the request could not be made, the transport failed, the status is not
    200 (201, 204 and the other 2xx included), or the body did not decode.
    Its own completeness check, made after [decodeDatapointBody] has made
    the same one, never fires: an incomplete record is always reported as
    a body that failed to decode. *)
Theorem fetch_errors_are_of_four_kinds (o : client.http_outcome) (err : error)
  (Hfetch : client.DataPoint_fetch o = Err err) :
  ((exists e, o = client.RequestError e /\ err = Errorf "failed to create request, " e)
   \/ (exists e, o = client.TransportError e /\ err = Errorf "failed to perform request, " e)
   \/ (exists code body, o = client.Response code body /\ code <> 200
         /\ err = New ("unexpected status code: " +:+ show_Z code))
   \/ (exists body e, o = client.Response 200 body
         /\ client.decodeDatapointBody body = Err e
         /\ err = Errorf "failed to decode datapoint body, " e))
  /\ (forall e, err <> Errorf "invalid datapoint received: " e).
Proof.
  assert (Hkinds :
    (exists e, o = client.RequestError e /\ err = Errorf "failed to create request, " e)
    \/ (exists e, o = client.TransportError e /\ err = Errorf "failed to perform request, " e)
    \/ (exists code body, o = client.Response code body /\ code <> 200
          /\ err = New ("unexpected status code: " +:+ show_Z code))
    \/ (exists body e, o = client.Response 200 body
          /\ client.decodeDatapointBody body = Err e
          /\ err = Errorf "failed to decode datapoint body, " e)).
  { destruct o as [e|e|code body]; cbn in Hfetch.
    - injection Hfetch as <-. left. exists e. split; reflexivity.
    - injection Hfetch as <-. right. left. exists e. split; reflexivity.
    - destruct (Z.eqb_spec code client.StatusOK) as [->|Hne]; cbn in Hfetch.
      + destruct (client.decodeDatapointBody body) as [dp|e] eqn:Hbody.
        * apply decodeDatapointBody_complete in Hbody as [_ Hvalid].
          rewrite Hvalid in Hfetch. discriminate.
        * injection Hfetch as <-. right. right. right. exists body, e.
          split; [reflexivity|]. split; [exact Hbody | reflexivity].
      + injection Hfetch as <-. right. right. left. exists code, body.
        split; [reflexivity|]. split; [exact Hne | reflexivity]. }
  split; [exact Hkinds|].
  intros e Heq.
  destruct Hkinds as [(x & _ & H) | [(x & _ & H) | [(c & b & _ & _ & H) | (b & x & _ & _ & H)]]];
    rewrite H in Heq; discriminate.
Qed.

Lemma fetch_errors_are_of_four_kinds_witness :
  client.DataPoint_fetch (client.Response 204 body_integer_time)
  = Err (New "unexpected status code: 204")
  /\ forall e, New "unexpected status code: 204" <> Errorf "invalid datapoint received: " e.
Proof.
  assert (Hfetch : client.DataPoint_fetch (client.Response 204 body_integer_time)
                   = Err (New "unexpected status code: 204"))
    by (vm_compute; reflexivity).
  split; [exact Hfetch|].
  exact (proj2 (fetch_errors_are_of_four_kinds _ _ Hfetch)).
Defined.

(** ** The collection task *)

(** A run of [Collect] from any world, on a record that was fetched. *)
Lemma Collect_run_from (env : Env) (w : World) (dp : client.DataPoint) :
  client.DataPoint_fetch (producer env) = Ok dp ->
  let ts := client.Value_Value (client.DataPoint_Time dp) in
  let tags := client.Value_Value (client.DataPoint_Tags dp) in
  let p := point_in env w dp in
  usecase.Collect env w =
  (write_result (store_write env (List.length (writes w)) [p]),
   {| clock_reads := S (S (clock_reads w));
      writes := writes w ++ [[p]];
      logs := logs w ++
              spec.drop_log ts tags
                (spec.classify ts tags (wall_clock env (clock_reads w))) |}).
Proof.
  intros Hfetch ts tags p.
  unfold usecase.Collect, usecase.Read, bind, fetch. rewrite Hfetch.
  unfold ret, Now at 1. cbn [clock_reads writes logs].
  subst p. unfold point_in, collected_point, spec.classify. fold ts tags.
  destruct (time.Before ts (time.Add (wall_clock env (clock_reads w)) (-1 * time.Hour)))
    eqn:Hstale.
  - cbn. destruct (store_write env _ _); reflexivity.
  - rewrite Collect_tags_find. fold tags. rewrite existsb_find.
    destruct (List.find spec.blocked tags) as [value|] eqn:Hfind.
    + cbn. rewrite Hfind. destruct (store_write env _ _); reflexivity.
    + cbn. rewrite app_nil_r. destruct (store_write env _ _); reflexivity.
Qed.

Lemma Collect_fetch_error_from (env : Env) (w : World) (err : error) :
  client.DataPoint_fetch (producer env) = Err err ->
  usecase.Collect env w =
  (Some (Errorf "failed to read datapoint: "
           (Errorf "failed to get datapoint from data server: " err)), w).
Proof.
  intros Hfetch.
  unfold usecase.Collect, usecase.Read, bind, fetch. rewrite Hfetch. reflexivity.
Qed.

(** X3.  An invocation of the collector's task whose fetch fails changes
    nothing: no clock reading, no log line, no write; it returns the error
    of the fetch under the three prefixes of the task, [Collect] and
    [Read]. *)
Theorem failed_fetch_touches_nothing (env : Env) (w : World) (err : error)
  (Hfetch : client.DataPoint_fetch (producer env) = Err err) :
  DataServerCollector_task env w =
  (Some (Errorf "failed to collect data point: "
           (Errorf "failed to read datapoint: "
              (Errorf "failed to get datapoint from data server: " err))), w).
Proof.
  unfold DataServerCollector_task, bind.
  rewrite (Collect_fetch_error_from env w err Hfetch). reflexivity.
Qed.

Lemma failed_fetch_touches_nothing_witness :
  DataServerCollector_task
    {| producer := client.Response 503 EmptyString;
       wall_clock := fun _ => shortly_after;
       store_write := fun _ _ => None;
       store_query := fun _ _ => Ok [] |} world0
  = (Some (Errorf "failed to collect data point: "
             (Errorf "failed to read datapoint: "
                (Errorf "failed to get datapoint from data server: "
                   (New "unexpected status code: 503")))), world0).
Proof.
  apply (failed_fetch_touches_nothing
           {| producer := client.Response 503 EmptyString;
              wall_clock := fun _ => shortly_after;
              store_write := fun _ _ => None;
              store_query := fun _ _ => Ok [] |} world0).
  vm_compute. reflexivity.
Defined.

(** X4.  The task returns nil exactly when the record was fetched and the
    store took the write; and it makes a write exactly when the record was
    fetched, whether the store takes it or not. *)
Theorem task_succeeds_iff_fetched_and_written (env : Env) (w : World) :
  (fst (DataServerCollector_task env w) = None <->
   exists dp, client.DataPoint_fetch (producer env) = Ok dp
              /\ store_write env (List.length (writes w)) [point_in env w dp] = None)
  /\ (writes (snd (DataServerCollector_task env w)) <> writes w <->
      exists dp, client.DataPoint_fetch (producer env) = Ok dp).
Proof.
  unfold DataServerCollector_task, bind.
  destruct (client.DataPoint_fetch (producer env)) as [dp|err] eqn:Hfetch.
  - rewrite (Collect_run_from env w dp Hfetch).
    destruct (store_write env (List.length (writes w)) [point_in env w dp]) as [e|] eqn:Hw;
      cbn [write_result ret fst snd writes]; split; split.
    + discriminate.
    + intros (dp' & Hdp' & Hnone). injection Hdp' as <-. congruence.
    + intros _. exists dp. reflexivity.
    + intros _ Heq. apply (f_equal (@List.length _)) in Heq.
      rewrite length_app in Heq. cbn in Heq. lia.
    + intros _. exists dp. split; [reflexivity | exact Hw].
    + reflexivity.
    + intros _. exists dp. reflexivity.
    + intros _ Heq. apply (f_equal (@List.length _)) in Heq.
      rewrite length_app in Heq. cbn in Heq. lia.
  - rewrite (Collect_fetch_error_from env w err Hfetch). cbn [ret fst snd].
    split; split.
    + discriminate.
    + intros (dp & Hdp & _). discriminate.
    + intros Hne. contradiction.
    + intros (dp & Hdp). discriminate.
Qed.

Lemma tasks_S (n : nat) (env : Env) (w : World) :
  tasks (S n) env w =
  (fst (DataServerCollector_task env w)
     :: fst (tasks n env (snd (DataServerCollector_task env w))),
   snd (tasks n env (snd (DataServerCollector_task env w)))).
Proof.
  cbn [tasks]. unfold bind, ret.
  destruct (DataServerCollector_task env w) as [r w1]. cbn [fst snd].
  destruct (tasks n env w1) as [rs w2]. reflexivity.
Qed.

Lemma task_world (env : Env) (w : World) (dp : client.DataPoint) :
  client.DataPoint_fetch (producer env) = Ok dp ->
  clock_reads (snd (DataServerCollector_task env w)) = S (S (clock_reads w))
  /\ writes (snd (DataServerCollector_task env w)) = writes w ++ [[point_in env w dp]].
Proof.
  intros Hfetch. unfold DataServerCollector_task, bind.
  rewrite (Collect_run_from env w dp Hfetch).
  destruct (write_result _); cbn; split; reflexivity.
Qed.

(** X5.  [n] invocations in a row, on a producer that keeps answering with
    the same record, read the clock [2 n] times and add exactly [n]
    batches to the store's log, after what was there, each of one point
    that carries the record's timestamp: the store is written to once per
    invocation, whether it takes the writes or not. *)
Theorem tasks_write_once_each (n : nat) (env : Env) (w : World) (dp : client.DataPoint)
  (Hfetch : client.DataPoint_fetch (producer env) = Ok dp) :
  exists batches,
    List.length (fst (tasks n env w)) = n
    /\ clock_reads (snd (tasks n env w)) = (clock_reads w + 2 * n)%nat
    /\ writes (snd (tasks n env w)) = writes w ++ batches
    /\ List.length batches = n
    /\ Forall (fun batch =>
                 exists p, batch = [p]
                   /\ influxdb3.Timestamp p = client.Value_Value (client.DataPoint_Time dp))
              batches.
Proof.
  revert w. induction n as [|n IH]; intros w.
  - exists []. cbn. rewrite app_nil_r. repeat split; [lia | constructor].
  - rewrite tasks_S. cbn [fst snd].
    destruct (task_world env w dp Hfetch) as [Hclock1 Hwrites1].
    destruct (IH (snd (DataServerCollector_task env w)))
      as (batches & Hlen & Hclock & Hwrites & Hblen & Hall).
    exists ([point_in env w dp] :: batches).
    split; [cbn [List.length]; rewrite Hlen; reflexivity|].
    split; [rewrite Hclock, Hclock1; lia|].
    split; [rewrite Hwrites, Hwrites1, <- app_assoc; reflexivity|].
    split; [cbn [List.length]; rewrite Hblen; reflexivity|].
    constructor; [exists (point_in env w dp); split; reflexivity | exact Hall].
Qed.

Lemma tasks_write_once_each_witness :
  exists batches,
    writes (snd (tasks 3 (quiet_env body_integer_time shortly_after) world0)) = batches
    /\ List.length batches = 3%nat.
Proof.
  assert (Hfetch :
    client.DataPoint_fetch (producer (quiet_env body_integer_time shortly_after))
    = Ok {| client.DataPoint_Time := client.mkValue (time.Unix 1700000000) true;
            client.DataPoint_Value := client.mkValue bits_3_14 true;
            client.DataPoint_Tags := client.mkValue ["ok"] true |})
    by (vm_compute; reflexivity).
  destruct (tasks_write_once_each 3 _ world0 _ Hfetch)
    as (batches & _ & _ & Hwrites & Hlen & _).
  exists batches. split; [exact Hwrites | exact Hlen].
Defined.

(** ** The timestamp *)

Lemma digit_is_no_sign (c : ascii) :
  ascii_class.is_digit c = true ->
  Ascii.eqb c "+" = false /\ Ascii.eqb c "-" = false.
Proof.
  destruct c as [[] [] [] [] [] [] [] []]; vm_compute; intros H;
    first [discriminate H | split; reflexivity].
Qed.

(** The digits of a decimal numeral, read back. *)
Lemma digits_value_acc (d : Decimal.uint) :
  forall p : positive,
    strconv.digits_value (Zpos p) (NilEmpty.string_of_uint d)
    = Zpos (Pos.of_uint_acc d p).
Proof.
  induction d; intros p; cbn [NilEmpty.string_of_uint strconv.digits_value Pos.of_uint_acc];
    try reflexivity; rewrite <- IHd; f_equal; vm_compute ascii_class.digit_value; lia.
Qed.

Lemma digits_value_uint (d : Decimal.uint) :
  strconv.digits_value 0 (NilEmpty.string_of_uint d) = Z.of_N (Pos.of_uint d).
Proof.
  induction d; cbn [NilEmpty.string_of_uint strconv.digits_value Pos.of_uint];
    try reflexivity; try exact IHd;
    cbn [Z.of_N]; rewrite <- digits_value_acc; f_equal.
Qed.

Lemma all_digits_uint (d : Decimal.uint) :
  strconv.all_digits (NilEmpty.string_of_uint d) = true.
Proof. induction d; cbn; try reflexivity; exact IHd. Qed.

Lemma string_of_pos_head (p : positive) :
  exists c r, NilEmpty.string_of_uint (Pos.to_uint p) = String c r
              /\ ascii_class.is_digit c = true.
Proof.
  pose proof (DecimalPos.Unsigned.to_uint_nonnil p) as Hnil.
  destruct (Pos.to_uint p); try contradiction; eexists; eexists; split; reflexivity.
Qed.

Lemma ParseUint_pos (p : positive) (bits : Z) :
  Zpos p < 2 ^ bits ->
  strconv.ParseUint (NilEmpty.string_of_uint (Pos.to_uint p)) bits = Ok (Zpos p).
Proof.
  intros Hlt. unfold strconv.ParseUint.
  destruct (string_of_pos_head p) as (c & r & Hs & _).
  rewrite all_digits_uint, digits_value_uint, DecimalPos.Unsigned.of_to.
  rewrite Hs. cbn [Z.of_N].
  destruct (Z.ltb_spec (Zpos p) (2 ^ bits)); [reflexivity | lia].
Qed.

(** Every int64, written in decimal, parses back to itself. *)
Lemma ParseInt_show_Z (ts : Z) :
  - 2 ^ 63 <= ts < 2 ^ 63 ->
  strconv.ParseInt (show_Z ts) = Ok ts.
Proof.
  intros Hrange. destruct ts as [|p|p].
  - reflexivity.
  - unfold show_Z. cbn [Z.to_int NilEmpty.string_of_int].
    destruct (string_of_pos_head p) as (c & r & Hs & Hd).
    destruct (digit_is_no_sign c Hd) as [Hplus Hminus].
    unfold strconv.ParseInt. rewrite Hs, Hplus, Hminus, <- Hs.
    rewrite ParseUint_pos by lia.
    cbn [negb andb]. destruct (Z.leb_spec (2 ^ 63) (Zpos p)); [lia | reflexivity].
  - unfold show_Z. cbn [Z.to_int NilEmpty.string_of_int].
    unfold strconv.ParseInt.
    change (Ascii.eqb "-" "+") with false. change (Ascii.eqb "-" "-") with true.
    cbv beta iota.
    rewrite ParseUint_pos by lia.
    cbn [negb andb]. destruct (Z.ltb_spec (2 ^ 63) (Zpos p)); [lia | reflexivity].
Qed.

(** X6.  The time member round-trips every int64: for every number of
    seconds [ts] in the int64 range, [DataPointTime.UnmarshalJSON] of its
    decimal text is [time.Unix(ts, 0)], marked processed. *)
Theorem time_literal_round_trip (ts : Z) (Hrange : - 2 ^ 63 <= ts < 2 ^ 63) :
  client.DataPointTime_UnmarshalJSON (show_Z ts)
  = Ok {| client.Value_Value := time.Unix ts; client.Value_Processed := true |}.
Proof.
  unfold client.DataPointTime_UnmarshalJSON. rewrite (ParseInt_show_Z ts Hrange).
  reflexivity.
Qed.

Lemma time_literal_round_trip_witness :
  show_Z (- 9223372036854775808) = "-9223372036854775808"
  /\ client.DataPointTime_UnmarshalJSON "-9223372036854775808"
     = Ok {| client.Value_Value := time.Unix (- 9223372036854775808);
             client.Value_Processed := true |}.
Proof.
  split; [vm_compute; reflexivity|].
  change "-9223372036854775808" with (show_Z (- 9223372036854775808)).
  apply time_literal_round_trip. lia.
Defined.

(** No JSON string is a time: whatever is between the quotes, an integer
    or an RFC 3339 date, [DataPointTime.UnmarshalJSON] gets the opening
    quote first and answers with a syntax error. *)
Lemma quoted_time_is_rejected (content : string) :
  client.DataPointTime_UnmarshalJSON (String json.dquote content)
  = Err (Errorf ("failed to parse DataPointTime, raw: " +:+ String json.dquote content
                 +:+ ", err:") strconv.ErrSyntax).
Proof. reflexivity. Qed.

Lemma Unix_in_range (ts : Z) :
  - 2 ^ 62 <= ts <= 2 ^ 62 ->
  time.Unix ts = time.mkTime (ts + time.unixToInternal) 0.
Proof.
  intros Hrange. unfold time.Unix, time.wrap_int64, time.unixToInternal. f_equal.
  assert (H64 : 2 ^ 64 = 2 * 2 ^ 63) by reflexivity.
  assert (H63 : 2 ^ 63 = 2 * 2 ^ 62) by reflexivity.
  assert (H62 : 2 ^ 62 = 4611686018427387904) by reflexivity.
  rewrite Z.mod_small; lia.
Qed.

Lemma one_hour_before (s ns : Z) :
  0 <= ns < 1000000000 ->
  time.Add (time.mkTime s ns) (-1 * time.Hour) = time.mkTime (s - 3600) ns.
Proof.
  intros Hns. unfold time.Add. cbn [time.sec time.nsec].
  change (Z.quot (-1 * time.Hour) 1000000000) with (-3600).
  change (Z.rem (-1 * time.Hour) 1000000000) with 0.
  rewrite Z.add_0_r.
  destruct (Z.leb_spec 1000000000 ns); [lia|].
  destruct (Z.ltb_spec ns 0); [lia|].
  f_equal; lia.
Qed.

(** X7.  The age limit is one hour to the nanosecond.  For a record with
    no blocked tag, timestamped [ts] seconds after the epoch, collected
    when the clock reads [n] seconds and [ns] nanoseconds, the one write
    goes to the table of discarded records exactly when the record's
    instant is strictly before the clock's minus 3600 seconds; a record
    that is one hour old to the nanosecond is kept. *)
Theorem age_limit_is_one_hour_exactly (env : Env) (dp : client.DataPoint) (ts n ns : Z)
  (Hfetch : client.DataPoint_fetch (producer env) = Ok dp)
  (Htime : client.Value_Value (client.DataPoint_Time dp) = time.Unix ts)
  (Htags : existsb spec.blocked (client.Value_Value (client.DataPoint_Tags dp)) = false)
  (Hts : - 2 ^ 62 <= ts <= 2 ^ 62)
  (Hclock : wall_clock env 0%nat = time.mkTime (n + time.unixToInternal) ns)
  (Hns : 0 <= ns < 1000000000) :
  exists p,
    writes (snd (usecase.Collect env world0)) = [[p]]
    /\ (influxdb3.Measurement p = "datapoint_discarded"
        <-> ts < n - 3600 \/ (ts = n - 3600 /\ 0 < ns))
    /\ (influxdb3.Measurement p = "datapoint"
        <-> n - 3600 < ts \/ (ts = n - 3600 /\ ns = 0)).
Proof.
  rewrite (Collect_run env dp Hfetch). cbn [snd writes].
  eexists. split; [reflexivity|].
  cbn [collected_point influxdb3.Measurement]. unfold spec.classify.
  rewrite Htime, Htags, Hclock, (Unix_in_range ts Hts), (one_hour_before _ ns Hns).
  unfold time.Before. cbn [time.sec time.nsec].
  destruct (Z.ltb_spec (ts + time.unixToInternal) (n + time.unixToInternal - 3600));
    destruct (Z.eqb_spec (ts + time.unixToInternal) (n + time.unixToInternal - 3600));
    destruct (Z.ltb_spec 0 ns); cbn [orb andb spec.destination];
    (split; split; intros H'; first [reflexivity | discriminate H' | lia]).
Qed.

Lemma age_limit_is_one_hour_exactly_witness :
  exists p,
    writes (snd (usecase.Collect
                   (quiet_env body_integer_time (time.Unix 1700003600)) world0)) = [[p]]
    /\ influxdb3.Measurement p = "datapoint".
Proof.
  assert (Hfetch :
    client.DataPoint_fetch
      (producer (quiet_env body_integer_time (time.Unix 1700003600)))
    = Ok {| client.DataPoint_Time := client.mkValue (time.Unix 1700000000) true;
            client.DataPoint_Value := client.mkValue bits_3_14 true;
            client.DataPoint_Tags := client.mkValue ["ok"] true |})
    by (vm_compute; reflexivity).
  destruct (age_limit_is_one_hour_exactly
              (quiet_env body_integer_time (time.Unix 1700003600)) _
              1700000000 1700003600 0 Hfetch)
    as (p & Hw & _ & Hkept); try (vm_compute; reflexivity); try lia.
  exists p. split; [exact Hw|]. apply Hkept. right. split; reflexivity.
Defined.

(** ** The range query and its handler *)

(** X8.  The statement that [Query] builds binds exactly the bounds it is
    given, and it is a well-formed SELECT in every case but one: an until
    bound without a start bound. *)
Theorem Query_statement_shape (start until : option time.Time) :
  dom (snd (repository.Query_statement start until)) = bound_names start until
  /\ sql.well_formed (fst (repository.Query_statement start until))
                     (snd (repository.Query_statement start until))
     = negb (match start, until with None, Some _ => true | _, _ => false end).
Proof.
  destruct start as [s|], until as [u|]; split; try (vm_compute; reflexivity);
    cbn [repository.Query_statement snd bound_names];
    rewrite ?dom_insert_L, ?dom_empty_L; set_solver.
Qed.

(** X9.  A start bound that does not parse ends the request with status
    400 and a message that names the start time, whatever the until bound
    is; an until bound that does not parse does the same, naming the until
    time, when the start bound is absent or parses.  The store is not
    asked, nothing is logged, nothing is written to the response. *)
Theorem malformed_bound_is_a_400
  (parse_rfc3339 : string -> Result time.Time)
  (format_rfc3339 : time.Time -> string)
  (marshal : http.DataPointModel -> option string)
  (narrow : Z -> float32) (write_ok : nat -> bool)
  (params : http.DataPointQueryParams) (env : Env) (wd : World)
  (text : string) (err : error)
  (Hbad : parse_rfc3339 text = Err err) :
  (http.Start params = Some text ->
   http.DataPointQuery parse_rfc3339 format_rfc3339 marshal narrow write_ok params env wd
   = (http.ReplyError 400
        ("failed to parse start time: failed to parse time: " +:+ error_message err), wd))
  /\ ((http.Start params = None
       \/ exists s t, http.Start params = Some s /\ parse_rfc3339 s = Ok t) ->
      http.Until params = Some text ->
      http.DataPointQuery parse_rfc3339 format_rfc3339 marshal narrow write_ok params env wd
      = (http.ReplyError 400
           ("failed to parse until time: failed to parse time: " +:+ error_message err), wd)).
Proof.
  split.
  - intros Hstart. unfold http.DataPointQuery, http.parseTime.
    rewrite Hstart, Hbad. reflexivity.
  - intros Hstart Huntil. unfold http.DataPointQuery, http.parseTime.
    destruct Hstart as [Hstart | (s & t & Hstart & Hs)].
    + rewrite Hstart, Huntil, Hbad. reflexivity.
    + rewrite Hstart, Hs, Huntil, Hbad. reflexivity.
Qed.

Lemma malformed_bound_is_a_400_witness :
  http.DataPointQuery (fun _ => Err (LibErr "cannot parse")) demo_format demo_marshal
    (fun v => v) (fun _ => true) (http.mkParams (Some "yesterday") (Some "today"))
    (demo_store demo_rows) world0
  = (http.ReplyError 400
       "failed to parse start time: failed to parse time: cannot parse", world0).
Proof.
  apply (proj1 (malformed_bound_is_a_400 (fun _ => Err (LibErr "cannot parse"))
                  demo_format demo_marshal (fun v => v) (fun _ => true)
                  (http.mkParams (Some "yesterday") (Some "today"))
                  (demo_store demo_rows) world0 "yesterday" (LibErr "cannot parse")
                  eq_refl)).
  reflexivity.
Defined.

(** X10.  When the store refuses the query, the request ends with status
    500; nothing is written to the response, and the message carries the
    prefix of the use case and the prefix of the handler, which are the
    same words, one after the other, before the repository's. *)
Theorem store_failure_is_a_500
  (parse_rfc3339 : string -> Result time.Time)
  (format_rfc3339 : time.Time -> string)
  (marshal : http.DataPointModel -> option string)
  (narrow : Z -> float32) (write_ok : nat -> bool)
  (params : http.DataPointQueryParams) (env : Env) (wd : World)
  (start until : option time.Time) (err : error)
  (Hstart : http.parseTime parse_rfc3339 (http.Start params) = Ok start)
  (Huntil : http.parseTime parse_rfc3339 (http.Until params) = Ok until)
  (Hquery : store_query env (fst (repository.Query_statement start until))
              (snd (repository.Query_statement start until)) = Err err) :
  http.DataPointQuery parse_rfc3339 format_rfc3339 marshal narrow write_ok params env wd
  = (http.ReplyError 500
       ("failed to query datapoints: failed to query datapoints: failed to execute query"
        +:+ String (ascii_of_nat 10) (error_message err)), wd).
Proof.
  unfold http.DataPointQuery. rewrite Hstart, Huntil.
  unfold usecase.Query, repository.Query, bind, QueryWithParameters, ret.
  destruct (repository.Query_statement start until) as [query parameters].
  cbn [fst snd] in Hquery. rewrite Hquery. reflexivity.
Qed.

Lemma store_failure_is_a_500_witness :
  http.DataPointQuery (fun _ => Err (LibErr "unused")) demo_format demo_marshal
    (fun v => v) (fun _ => true) (http.mkParams None None)
    {| producer := client.TransportError (LibErr "unused");
       wall_clock := fun _ => time.mkTime 0 0;
       store_write := fun _ _ => None;
       store_query := fun _ _ => Err (LibErr "connection refused") |} world0
  = (http.ReplyError 500
       ("failed to query datapoints: failed to query datapoints: failed to execute query"
        +:+ String (ascii_of_nat 10) "connection refused"), world0).
Proof.
  apply (store_failure_is_a_500 (fun _ => Err (LibErr "unused")) demo_format demo_marshal
           (fun v => v) (fun _ => true) (http.mkParams None None) _ world0 None None
           (LibErr "connection refused")); reflexivity.
Defined.

(** ** The streamer when writes fail, and its log *)

(** The loop of the streamer under any writer: what it leaves in the body
    is the start of what it would have added, and all of it when the loop
    ran to its end. *)
Lemma stream_rows_prefix
  (format_rfc3339 : time.Time -> string) (marshal : http.DataPointModel -> option string)
  (narrow : Z -> float32) (write_ok : nat -> bool) (rows : list influxdb3.Row) :
  forall (items : list string) (i : nat) (w : http.ResponseWriter) (env : Env) (wd : World),
    spec.encode_all marshal (List.map (model_of format_rfc3339) (spec.extracted narrow rows))
    = Some items ->
    exists w' finished wd' rest,
      http.stream_rows format_rfc3339 marshal narrow write_ok rows i w env wd
      = (w', finished, wd')
      /\ http.content_type w' = http.content_type w
      /\ http.body w +:+ continuation i items = http.body w' +:+ rest
      /\ (finished = true -> rest = EmptyString).
Proof.
  induction rows as [|row rest IH]; intros items i w env wd Hitems.
  - cbn in Hitems. injection Hitems as <-.
    exists w, true, wd, EmptyString. cbn [http.stream_rows continuation ret].
    repeat split.
  - cbn [http.stream_rows spec.extracted] in *.
    destruct (iter.Value narrow row) as [dp|err] eqn:Hrow.
    + cbn [List.map spec.encode_all] in Hitems.
      destruct (marshal (model_of format_rfc3339 dp)) as [s|] eqn:Hs; [|discriminate].
      destruct (spec.encode_all marshal _) as [ss|] eqn:Hss; [|discriminate].
      injection Hitems as <-.
      unfold http.Encode, http.Write.
      change {| http.Time := format_rfc3339 (dto.Time dp); http.Value := dto.Value dp |}
        with (model_of format_rfc3339 dp).
      cbn [continuation].
      destruct (Nat.ltb 0 i) eqn:Hi.
      * destruct (write_ok (http.write_calls w)) eqn:Hw1.
        -- cbn [http.write_calls http.body http.content_type]. rewrite Hs.
           destruct (write_ok (S (http.write_calls w))) eqn:Hw2.
           ++ destruct (IH ss (S i)
                          {| http.content_type := http.content_type w;
                             http.body := (http.body w +:+ ",") +:+ s;
                             http.write_calls := S (S (http.write_calls w)) |}
                          env wd eq_refl) as (w' & fl & wd' & r & Hrun & Hct & Hbody & Hfin).
              exists w', fl, wd', r. rewrite Hrun.
              cbn [http.content_type http.body] in Hct, Hbody.
              split; [reflexivity|]. split; [exact Hct|]. split; [|exact Hfin].
              rewrite <- Hbody, !append_assoc. reflexivity.
           ++ eexists. exists false. eexists. exists (s +:+ continuation (S i) ss).
              unfold bind, http.ErrorContext, ret.
              split; [reflexivity|]. split; [reflexivity|]. split; [|discriminate].
              cbn [http.body]. rewrite !append_assoc. reflexivity.
        -- eexists. exists false. eexists. exists ("," +:+ s +:+ continuation (S i) ss).
           unfold bind, http.ErrorContext, ret.
           split; [reflexivity|]. split; [reflexivity|]. split; [reflexivity | discriminate].
      * rewrite Hs. destruct (write_ok (http.write_calls w)) eqn:Hw1.
        -- destruct (IH ss (S i)
                       {| http.content_type := http.content_type w;
                          http.body := http.body w +:+ s;
                          http.write_calls := S (http.write_calls w) |}
                       env wd eq_refl) as (w' & fl & wd' & r & Hrun & Hct & Hbody & Hfin).
           exists w', fl, wd', r. rewrite Hrun.
           cbn [http.content_type http.body] in Hct, Hbody.
           split; [reflexivity|]. split; [exact Hct|]. split; [|exact Hfin].
           rewrite <- Hbody, !append_assoc. reflexivity.
        -- eexists. exists false. eexists. exists (s +:+ continuation (S i) ss).
           unfold bind, http.ErrorContext, ret.
           split; [reflexivity|]. split; [reflexivity|]. split; [reflexivity | discriminate].
    + unfold bind, http.ErrorContext.
      destruct (IH items i w env
                  {| clock_reads := clock_reads wd; writes := writes wd;
                     logs := logs wd ++
                       [mkLog "ERROR" "Error retrieving item"
                          [("iter_counter", AnyInt (Z.of_nat i)); ("error", AnyError err)]] |}
                  Hitems) as (w' & fl & wd' & r & Hrun & Hct & Hbody & Hfin).
      exists w', fl, wd', r. rewrite Hrun. repeat split; assumption.
Qed.

(** X11.  Whatever writes on the response fail, the handler writes nothing
    that does not belong to the array: once the query has succeeded, the
    body it leaves is a prefix of the array of the extracted rows, cut
    where the first failed write was, and the content type is set. *)
Theorem response_is_a_prefix_of_the_array
  (parse_rfc3339 : string -> Result time.Time)
  (format_rfc3339 : time.Time -> string)
  (marshal : http.DataPointModel -> option string)
  (narrow : Z -> float32) (write_ok : nat -> bool)
  (params : http.DataPointQueryParams) (env : Env) (wd : World)
  (start until : option time.Time) (rows : list influxdb3.Row) (items : list string)
  (Hstart : http.parseTime parse_rfc3339 (http.Start params) = Ok start)
  (Huntil : http.parseTime parse_rfc3339 (http.Until params) = Ok until)
  (Hquery : store_query env (fst (repository.Query_statement start until))
              (snd (repository.Query_statement start until)) = Ok rows)
  (Hitems : spec.encode_all marshal
              (List.map (model_of format_rfc3339) (spec.extracted narrow rows))
            = Some items) :
  exists w rest,
    fst (http.DataPointQuery parse_rfc3339 format_rfc3339 marshal narrow write_ok
           params env wd) = http.ReplyStream w
    /\ http.content_type w = Some "application/json"
    /\ spec.array_of items = http.body w +:+ rest.
Proof.
  unfold http.DataPointQuery. rewrite Hstart, Huntil.
  unfold usecase.Query, repository.Query, bind, QueryWithParameters, ret.
  destruct (repository.Query_statement start until) as [query parameters] eqn:Hstmt.
  cbn [fst snd] in Hquery. rewrite Hquery.
  unfold iter.NewDataPointIter, http.Write at 1.
  cbn [http.write_calls http.body http.content_type http.writer0].
  destruct (write_ok 0%nat) eqn:Hw0.
  - destruct (stream_rows_prefix format_rfc3339 marshal narrow write_ok rows items 0
                {| http.content_type := Some "application/json";
                   http.body := EmptyString +:+ "[";
                   http.write_calls := 1 |} env wd Hitems)
      as (w' & fl & wd' & r & Hrun & Hct & Hbody & Hfin).
    rewrite Hrun. cbn [http.content_type http.body] in Hct, Hbody.
    rewrite continuation_0 in Hbody.
    destruct fl.
    + rewrite (Hfin eq_refl), append_empty_r in Hbody.
      unfold http.Write.
      destruct (write_ok (http.write_calls w')).
      * eexists. exists EmptyString. cbn [fst http.content_type http.body].
        split; [reflexivity|]. split; [exact Hct|].
        unfold spec.array_of. rewrite append_empty_r, <- Hbody, !append_assoc. reflexivity.
      * exists w', "]". cbn [fst]. split; [reflexivity|]. split; [exact Hct|].
        unfold spec.array_of. rewrite <- Hbody, !append_assoc. reflexivity.
    + exists w', (r +:+ "]"). cbn [fst]. split; [reflexivity|]. split; [exact Hct|].
      unfold spec.array_of. rewrite <- (append_assoc (http.body w') r "]"), <- Hbody, !append_assoc. reflexivity.
  - eexists. exists (spec.array_of items). cbn [fst http.content_type http.body].
    split; [reflexivity|]. split; reflexivity.
Qed.

Lemma response_is_a_prefix_of_the_array_witness :
  exists w rest,
    fst (http.DataPointQuery (fun _ => Err (LibErr "unused")) demo_format demo_marshal
           (fun v => v) (fun n => Nat.ltb n 3) (http.mkParams None None)
           (demo_store demo_rows) world0) = http.ReplyStream w
    /\ http.content_type w = Some "application/json"
    /\ spec.array_of [wire "{'time':'3','value':30}"; wire "{'time':'2','value':20}";
                      wire "{'time':'1','value':10}"] = http.body w +:+ rest.
Proof.
  apply (response_is_a_prefix_of_the_array
           (fun _ => Err (LibErr "unused")) demo_format demo_marshal (fun v => v)
           (fun n => Nat.ltb n 3) (http.mkParams None None) (demo_store demo_rows)
           world0 None None demo_rows);
    vm_compute; reflexivity.
Defined.

(** The world that the loop of the streamer leaves, when no write fails
    and every extracted row encodes: only the log has grown. *)
Lemma stream_rows_log
  (format_rfc3339 : time.Time -> string) (marshal : http.DataPointModel -> option string)
  (narrow : Z -> float32) (rows : list influxdb3.Row) :
  forall (items : list string) (i : nat) (w : http.ResponseWriter) (env : Env) (wd : World),
    spec.encode_all marshal (List.map (model_of format_rfc3339) (spec.extracted narrow rows))
    = Some items ->
    snd (http.stream_rows format_rfc3339 marshal narrow (fun _ => true) rows i w env wd)
    = {| clock_reads := clock_reads wd; writes := writes wd;
         logs := logs wd ++ skip_log narrow rows i |}.
Proof.
  induction rows as [|row rest IH]; intros items i w env wd Hitems.
  - cbn. rewrite app_nil_r. destruct wd. reflexivity.
  - cbn [http.stream_rows spec.extracted skip_log] in *.
    destruct (iter.Value narrow row) as [dp|err] eqn:Hrow.
    + cbn [List.map spec.encode_all] in Hitems.
      destruct (marshal (model_of format_rfc3339 dp)) as [s|] eqn:Hs; [|discriminate].
      destruct (spec.encode_all marshal _) as [ss|] eqn:Hss; [|discriminate].
      unfold http.Encode, http.Write.
      change {| http.Time := format_rfc3339 (dto.Time dp); http.Value := dto.Value dp |}
        with (model_of format_rfc3339 dp).
      destruct (Nat.ltb 0 i); cbn [http.write_calls http.body http.content_type];
        rewrite Hs; apply (IH ss); reflexivity.
    + unfold bind, http.ErrorContext.
      rewrite (IH items i w env _ Hitems). cbn [clock_reads writes logs].
      rewrite <- app_assoc. reflexivity.
Qed.

(** X12.  A row whose extraction fails costs one error line in the log and
    nothing else.  When no write fails and every extracted row encodes,
    the request leaves the clock and the store as they were and adds to
    the log exactly one line per such row, in cursor order; the counter in
    the line is the number of items written before it, so that the lines
    of two failing rows with no good row between them carry the same
    number. *)
Theorem skipped_rows_are_logged
  (parse_rfc3339 : string -> Result time.Time)
  (format_rfc3339 : time.Time -> string)
  (marshal : http.DataPointModel -> option string)
  (narrow : Z -> float32)
  (params : http.DataPointQueryParams) (env : Env) (wd : World)
  (start until : option time.Time) (rows : list influxdb3.Row) (items : list string)
  (Hstart : http.parseTime parse_rfc3339 (http.Start params) = Ok start)
  (Huntil : http.parseTime parse_rfc3339 (http.Until params) = Ok until)
  (Hquery : store_query env (fst (repository.Query_statement start until))
              (snd (repository.Query_statement start until)) = Ok rows)
  (Hitems : spec.encode_all marshal
              (List.map (model_of format_rfc3339) (spec.extracted narrow rows))
            = Some items) :
  snd (http.DataPointQuery parse_rfc3339 format_rfc3339 marshal narrow (fun _ => true)
         params env wd)
  = {| clock_reads := clock_reads wd; writes := writes wd;
       logs := logs wd ++ skip_log narrow rows 0 |}
  /\ List.length (skip_log narrow rows 0)
     = (List.length rows - List.length (spec.extracted narrow rows))%nat.
Proof.
  split.
  - unfold http.DataPointQuery. rewrite Hstart, Huntil.
    unfold usecase.Query, repository.Query, bind, QueryWithParameters, ret.
    destruct (repository.Query_statement start until) as [query parameters] eqn:Hstmt.
    cbn [fst snd] in Hquery. rewrite Hquery.
    unfold iter.NewDataPointIter, http.Write at 1.
    cbn [http.write_calls http.body http.content_type http.writer0].
    pose proof (stream_rows_log format_rfc3339 marshal narrow rows items 0
                  {| http.content_type := Some "application/json";
                     http.body := EmptyString +:+ "[";
                     http.write_calls := 1 |} env wd Hitems) as Hlog.
    destruct (http.stream_rows _ _ _ _ rows 0 _ env wd) as [[w' fl] wd'].
    cbn [snd] in Hlog. subst wd'.
    destruct (stream_rows_body format_rfc3339 marshal narrow rows items 0
                {| http.content_type := Some "application/json";
                   http.body := EmptyString +:+ "[";
                   http.write_calls := 1 |} env wd Hitems) as (n & wd'' & Hrun).
    destruct fl; unfold http.Write; reflexivity.
  - clear. generalize 0%nat. induction rows as [|row rest IH]; intros i; [reflexivity|].
    cbn [skip_log spec.extracted List.length].
    destruct (iter.Value narrow row).
    + rewrite IH. cbn [List.length]. lia.
    + cbn [List.length]. rewrite IH.
      assert (List.length (spec.extracted narrow rest) <= List.length rest)%nat.
      { clear. induction rest as [|r rest IH]; cbn; [lia|].
        destruct (iter.Value narrow r); cbn; lia. }
      lia.
Qed.

Lemma skipped_rows_are_logged_witness :
  snd (http.DataPointQuery (fun _ => Err (LibErr "unused")) demo_format demo_marshal
         (fun v => v) (fun _ => true) (http.mkParams None None)
         (demo_store demo_rows) world0)
  = {| clock_reads := clock_reads world0; writes := writes world0;
       logs := logs world0 ++ skip_log (fun v => v) demo_rows 0 |}
  /\ List.length (skip_log (fun v => v) demo_rows 0)
     = (List.length demo_rows
        - List.length (spec.extracted (fun v => v) demo_rows))%nat.
Proof.
  apply (skipped_rows_are_logged
           (fun _ => Err (LibErr "unused")) demo_format demo_marshal (fun v => v)
           (http.mkParams None None) (demo_store demo_rows)
           world0 None None demo_rows
           [wire "{'time':'3','value':30}"; wire "{'time':'2','value':20}";
            wire "{'time':'1','value':10}"]);
    vm_compute; reflexivity.
Defined.

(** ** The guard of [Stop] *)

Section stop_safety.
Import collector.
Local Open Scope nat_scope.

Lemma has_room_receive (chans : gmap loc chan) (l l' : loc) (c : chan) :
  chans !! l' = Some c -> can_receive c = true ->
  has_room (chans !! l) -> has_room (<[l' := receive c]> chans !! l).
Proof.
  intros Hc Hrecv Hroom. unfold has_room in *.
  destruct (decide (l' = l)) as [->|Hne].
  - rewrite Hc in Hroom. injection Hroom as ->. discriminate Hrecv.
  - rewrite lookup_insert_ne by exact Hne. exact Hroom.
Qed.

Lemma is_open_receive (chans : gmap loc chan) (l l' : loc) (c : chan) :
  chans !! l' = Some c ->
  is_open (chans !! l) -> is_open (<[l' := receive c]> chans !! l).
Proof.
  intros Hc (x & Hx & Hopen). unfold is_open.
  destruct (decide (l' = l)) as [->|Hne].
  - rewrite lookup_insert_eq. rewrite Hc in Hx. injection Hx as ->.
    exists (receive x). split; [reflexivity|].
    unfold receive. destruct (Nat.ltb 0 (chan_len x)); exact Hopen.
  - rewrite lookup_insert_ne by exact Hne. exists x. split; assumption.
Qed.

Lemma threads_goto (P P' : pc -> Prop) (threads : list pc) (tid : nat) (p' : pc) :
  (forall t q, threads !! t = Some q -> P q) ->
  P' p' ->
  (forall t q, t <> tid -> threads !! t = Some q -> P q -> P' q) ->
  forall t q, <[tid := p']> threads !! t = Some q -> P' q.
Proof.
  intros Hold Hnew Hkeep t q Hq.
  apply list_lookup_insert_Some in Hq as [(-> & <- & _) | (Hne & Hq)].
  - exact Hnew.
  - apply (Hkeep t q); [congruence | exact Hq | exact (Hold t q Hq)].
Qed.

Lemma threads_spawn (P : pc -> Prop) (threads : list pc) (p' : pc) :
  P p' ->
  (forall t q, threads !! t = Some q -> P q) ->
  forall t q, (threads ++ [p']) !! t = Some q -> P q.
Proof.
  intros Hnew Hold t q Hq.
  apply lookup_app_Some in Hq as [Hq | (_ & Hq)].
  - exact (Hold t q Hq).
  - apply list_lookup_singleton_Some in Hq as [_ <-]. exact Hnew.
Qed.

Lemma exclusive_goto (threads : list pc) (tid : nat) (p p' : pc) :
  threads !! tid = Some p ->
  (in_stop p' = true ->
   in_stop p = true \/ forall t q, threads !! t = Some q -> in_stop q = false) ->
  exclusive threads -> exclusive (<[tid := p']> threads).
Proof.
  intros Hp Hin Hex t1 t2 p1 p2 H1 H2 I1 I2.
  apply list_lookup_insert_Some in H1 as [(-> & <- & _) | (Hne1 & H1)];
    apply list_lookup_insert_Some in H2 as [(-> & <- & _) | (Hne2 & H2)].
  - reflexivity.
  - destruct (Hin I1) as [Ip | Hnone].
    + exact (Hex _ _ _ _ Hp H2 Ip I2).
    + rewrite (Hnone _ _ H2) in I2. discriminate.
  - destruct (Hin I2) as [Ip | Hnone].
    + exact (Hex _ _ _ _ H1 Hp I1 Ip).
    + rewrite (Hnone _ _ H1) in I1. discriminate.
  - exact (Hex _ _ _ _ H1 H2 I1 I2).
Qed.

Lemma exclusive_spawn (threads : list pc) (p' : pc) :
  in_stop p' = false -> exclusive threads -> exclusive (threads ++ [p']).
Proof.
  intros Hout Hex t1 t2 p1 p2 H1 H2 I1 I2.
  apply lookup_app_Some in H1 as [H1 | (_ & H1)];
    [|apply list_lookup_singleton_Some in H1 as [_ <-]; congruence].
  apply lookup_app_Some in H2 as [H2 | (_ & H2)];
    [|apply list_lookup_singleton_Some in H2 as [_ <-]; congruence].
  exact (Hex _ _ _ _ H1 H2 I1 I2).
Qed.

Ltac si_split :=
  repeat match goal with
         | H : _ /\ _ |- _ => destruct H
         | |- _ /\ _ => split
         end.

Ltac si_fact :=
  si_split;
  first
    [ exact I
    | assumption
    | reflexivity
    | lia
    | congruence
    | rewrite lookup_insert_ne by lia; assumption
    | rewrite lookup_insert_eq; reflexivity
    | apply has_room_receive; assumption
    | apply is_open_receive; assumption
    | unfold has_room; rewrite lookup_insert_eq; reflexivity
    | unfold has_room, is_open in *; rewrite lookup_insert_ne by lia; assumption
    | unfold is_open; rewrite lookup_insert_eq; eexists; split; reflexivity
    | idtac ].

(** The other threads keep what holds of them. *)
Ltac si_others Hex Hp :=
  let t := fresh "t" in
  let q := fresh "q" in
  let Hnet := fresh "Hnet" in
  let Hq := fresh "Hq" in
  let Hq_ok := fresh "Hq_ok" in
  intros t q Hnet Hq Hq_ok;
  destruct q; cbn [thread_ok] in Hq_ok |- *; try exact I;
  try (exfalso; apply Hnet; exact (Hex t _ _ _ Hq Hp eq_refl eq_refl));
  si_fact.

Ltac si_threads Hok Hex Hp :=
  first
    [ exact Hok
    | eapply threads_goto; [ exact Hok | cbn [thread_ok]; si_fact | si_others Hex Hp ]
    | eapply threads_goto;
      [ eapply threads_spawn; [ | exact Hok]; exact I
      | cbn [thread_ok]; si_fact
      | si_others Hex Hp ]
    | let t := fresh "t" in
      let q := fresh "q" in
      let Hq := fresh "Hq" in
      let Hq_ok := fresh "Hq_ok" in
      intros t q Hq; generalize (Hok t q Hq); clear Hq;
      destruct q; cbn [thread_ok]; intros Hq_ok; try exact I; si_fact ].

Ltac si_nobody Hok :=
  let t := fresh "t" in
  let q := fresh "q" in
  let Hq := fresh "Hq" in
  let Hq_ok := fresh "Hq_ok" in
  intros t q Hq; generalize (Hok t q Hq); clear Hq;
  destruct q; cbn [thread_ok in_stop]; intros Hq_ok; try reflexivity;
  exfalso; si_split; congruence.

Ltac si_exclusive Hok Hex Hp :=
  first
    [ exact Hex
    | eapply exclusive_goto;
      [ exact Hp
      | cbn [in_stop]; first [discriminate | left; reflexivity | right; si_nobody Hok]
      | exact Hex ]
    | eapply (exclusive_goto (_ ++ [_]));
      [ apply lookup_app_l_Some; exact Hp
      | cbn [in_stop]; discriminate
      | apply exclusive_spawn; [reflexivity | exact Hex] ] ].

Ltac si_live Hgl :=
  first
    [ exact Hgl
    | rewrite lookup_insert_ne by lia; exact Hgl
    | right; rewrite lookup_insert_eq; reflexivity
    | left; rewrite lookup_insert_eq; reflexivity ].

Ltac si_idle Hidle :=
  let Hi := fresh "Hi" in
  intros Hi;
  try (rewrite lookup_insert_ne in Hi by lia);
  try (rewrite lookup_insert_eq in Hi);
  first
    [ exact (Hidle Hi)
    | discriminate Hi
    | exfalso; congruence
    | assumption
    | apply has_room_receive; [assumption | assumption | exact (Hidle Hi)]
    | unfold has_room; rewrite lookup_insert_eq; reflexivity
    | unfold has_room; rewrite lookup_insert_ne by lia; exact (Hidle Hi) ].

Ltac si_closed :=
  exfalso;
  match goal with
  | Hc : ?m !! ?l = Some ?c, Hr : has_room (?m !! ?l) |- _ =>
      unfold has_room in Hr; rewrite Hc in Hr; injection Hr as ->; discriminate
  | Hc : ?m !! ?l = Some ?c, Hr : is_open (?m !! ?l) |- _ =>
      let x := fresh "x" in
      let Hx := fresh "Hx" in
      let Ho := fresh "Ho" in
      destruct Hr as (x & Hx & Ho); rewrite Hc in Hx; injection Hx as ->; congruence
  end.

(** The cases of a step, the hypotheses left as they are. *)
Ltac si_step :=
  repeat match goal with
         | H : Some _ = Some _ |- _ => injection H as <-
         | H : None = Some _ |- _ => discriminate H
         | H : context [match ?x with _ => _ end] |- _ =>
             let E := fresh "E" in
             let v := fresh "v" in
             remember x as v eqn:E in H; symmetry in E; destruct v
         | H : ?o = OnceIdle |- _ => is_var o; subst o
         | H : ?o = OnceRunning |- _ => is_var o; subst o
         | H : ?o = OnceDone |- _ => is_var o; subst o
         end.

Lemma step_thread_stop_invariant (tid : nat) (choice : bool) (st st' : State) :
  stop_invariant st ->
  step_thread tid choice st = Some st' ->
  stop_invariant st'.
Proof.
  intros [Hiv Hlive Htr Hca Hsa Hpa Hne Hgl Hidle Hok Hex] Hstep.
  unfold step_thread in Hstep.
  destruct (threads st !! tid) as [p|] eqn:Hp; [|discriminate].
  pose proof (Hok tid p Hp) as Hme.
  destruct st as [[iv ch sa sp cx cf] chans onces ctxs tickers next threads trace crashed].
  cbn [pt collector.chans collector.onces collector.next collector.threads collector.trace
       collector.crashed interval stopCh startOnce stopOnce] in *.
  destruct p; cbn [thread_ok] in Hme.
  all: cbv [enter_once invoke goto emit panic bump set_chans set_tickers
         set_ctxs set_onces set_pt spawn reset1 reset2 reset3 reset4
         pt collector.chans collector.onces collector.ctxs collector.tickers
         collector.next collector.threads collector.trace collector.crashed
         interval stopCh startOnce stopOnce triggerCtx triggerCtxCancelFunc] in Hstep.
  all: si_step.
  all: try (exfalso; congruence).
  all: try (exfalso; apply Z.leb_le in E; lia).
  all: try (exfalso; destruct Hgl; congruence).
  all: si_split.
  all: try (si_closed; fail).
  all: try match goal with
           | H : _ !! _ = Some OnceIdle |- _ => pose proof (Hidle H)
           end.
  all: constructor;
    cbn [pt collector.chans collector.onces collector.next collector.threads
         collector.trace collector.crashed interval stopCh startOnce stopOnce].
  all: try exact Hiv.
  all: try exact Hlive.
  all: try exact Htr.
  all: try (intros tid0; apply not_in_snoc; [apply Htr | discriminate]).
  all: try lia.
  all: try (si_live Hgl; fail).
  all: try (si_idle Hidle; fail).
  all: try (si_threads Hok Hex Hp; fail).
  all: try (si_exclusive Hok Hex Hp; fail).
Qed.

Lemma step_stop_invariant (a : action) (st st' : State) :
  stop_invariant st -> step a st = Some st' -> stop_invariant st'.
Proof.
  intros Hinv Hstep. unfold step in Hstep.
  destruct (crashed st) eqn:Hc; [discriminate|].
  destruct a as [| |tid choice].
  - injection Hstep as <-.
    destruct Hinv as [Hiv Hlive Htr Hca Hsa Hpa Hne Hgl Hidle Hok Hex].
    constructor; cbn; try assumption.
    + intros tid. apply not_in_snoc; [apply Htr | discriminate].
    + eapply threads_spawn; [ | exact Hok]; exact I.
    + apply exclusive_spawn; [reflexivity | exact Hex].
  - injection Hstep as <-.
    destruct Hinv as [Hiv Hlive Htr Hca Hsa Hpa Hne Hgl Hidle Hok Hex].
    constructor; cbn; try assumption.
    + intros tid. apply not_in_snoc; [apply Htr | discriminate].
    + eapply threads_spawn; [ | exact Hok]; exact I.
    + apply exclusive_spawn; [reflexivity | exact Hex].
  - exact (step_thread_stop_invariant tid choice st st' Hinv Hstep).
Qed.

Lemma run_stop_invariant (sched : list action) :
  forall st st', stop_invariant st -> run sched st = Some st' -> stop_invariant st'.
Proof.
  induction sched as [|a sched IH]; intros st st' Hinv Hrun; cbn in Hrun.
  - injection Hrun as <-. exact Hinv.
  - destruct (step a st) as [st1|] eqn:Hstep; [|discriminate].
    exact (IH st1 st' (step_stop_invariant a st st1 Hinv Hstep) Hrun).
Qed.

Lemma new_trigger_stop_invariant (interval : Z) :
  (0 < interval)%Z -> stop_invariant (NewPeriodicTrigger interval).
Proof.
  intros Hpos. constructor.
  - exact Hpos.
  - reflexivity.
  - intros tid Hin. exact Hin.
  - vm_compute. lia.
  - vm_compute. lia.
  - vm_compute. lia.
  - vm_compute. discriminate.
  - left. vm_compute. reflexivity.
  - intros _. vm_compute. reflexivity.
  - intros tid p Hp. vm_compute in Hp. destruct tid; discriminate.
  - intros t1 t2 p1 p2 H1. vm_compute in H1. destruct t1; discriminate.
Qed.

Lemma run_app (s1 s2 : list action) (st : State) :
  run (s1 ++ s2) st = run s1 st ≫= run s2.
Proof.
  revert st. induction s1 as [|a s1 IH]; intros st; [reflexivity|].
  cbn [app run]. destruct (step a st) as [st1|]; [apply IH | reflexivity].
Qed.

(** The schedules that end in a panic, and the interval. *)
Lemma trigger_panics_iff (interval : Z) :
  (exists sched st,
     run sched (NewPeriodicTrigger interval) = Some st
     /\ (crashed st = true \/ exists tid, In (Panic tid) (trace st)))
  <-> (interval <= 0)%Z.
Proof.
  split.
  - intros (sched & st & Hrun & Hbad).
    destruct (Z_le_gt_dec interval 0) as [Hle | Hpos]; [exact Hle | exfalso].
    pose proof (run_stop_invariant sched _ st
                  (new_trigger_stop_invariant interval ltac:(lia)) Hrun) as Hinv.
    destruct Hbad as [Hc | (tid & Hin)].
    + rewrite (si_alive st Hinv) in Hc. discriminate.
    + exact (si_no_panic st Hinv tid Hin).
  - intros Hle.
    exists [CallStart; Run 0 false; Run 0 false; Run 0 false; Run 0 false].
    eexists. split.
    + change [CallStart; Run 0 false; Run 0 false; Run 0 false; Run 0 false]
        with ([CallStart; Run 0 false; Run 0 false; Run 0 false] ++ [Run 0 false]).
      rewrite run_app.
      set (r := run [CallStart; Run 0 false; Run 0 false; Run 0 false]
                  (NewPeriodicTrigger interval)).
      vm_compute in r. subst r.
      cbn [mbind option_bind run step crashed]. unfold step_thread.
      cbn [threads lookup list_lookup pt collector.interval].
      rewrite (proj2 (Z.leb_le interval 0) Hle).
      reflexivity.
    + left. reflexivity.
Qed.

(** X13.  The trigger can panic in one way only.  When the interval is
    positive no interleaving of calls of [Start] and [Stop] makes it panic:
    no [Stop] ever sends on a closed stop channel or closes it twice,
    because the channel a [Stop] finds behind its guard is always a new
    one.  When the interval is zero or negative the first [Start] panics
    in [NewTicker], after its first invocation of the task. *)
Theorem trigger_panics_only_on_a_non_positive_interval (interval : Z) :
  (exists sched st,
     run sched (NewPeriodicTrigger interval) = Some st
     /\ (crashed st = true \/ exists tid, In (Panic tid) (trace st)))
  <-> (interval <= 0)%Z.
Proof. exact (trigger_panics_iff interval). Qed.


Lemma stop_statement_runs (tid : nat) (choice : bool) (st : State) (p : pc) (o : loc) :
  stop_invariant st ->
  threads st !! tid = Some p ->
  stop_guard p = Some o ->
  exists st',
    step (Run tid choice) st = Some st'
    /\ threads st' = <[tid := after p]> (threads st)
    /\ trace st' = trace st ++ match p with
                               | AtStopUnlock _ => [StopReturned tid]
                               | _ => []
                               end
    /\ (in_stop (after p) = false -> in_stop p = true ->
        onces st' !! stopOnce (pt st') = Some OnceIdle).
Proof.
  intros [Hiv Hlive Htr Hca Hsa Hpa Hne Hgl Hidle Hok Hex] Hp Hg.
  pose proof (Hok tid p Hp) as Hme.
  unfold step, step_thread. rewrite Hlive, Hp.
  destruct st as [[iv ch sa sp cx cf] chans onces ctxs tickers next threads trace crashed].
  cbn [pt collector.chans collector.onces collector.next collector.threads collector.trace
       collector.crashed interval stopCh startOnce stopOnce] in *.
  destruct p; try discriminate Hg; cbn [thread_ok] in Hme; cbn [after in_stop].
  - destruct Hme as (_ & _ & Hroom). unfold has_room in Hroom. rewrite Hroom.
    eexists. split; [reflexivity|]. cbn. rewrite app_nil_r.
    split; [reflexivity|]. split; [reflexivity | discriminate].
  - destruct Hme as (_ & _ & x & Hx & Hopen). rewrite Hx, Hopen.
    eexists. split; [reflexivity|]. cbn. rewrite app_nil_r.
    split; [reflexivity|]. split; [reflexivity | discriminate].
  - eexists. split; [reflexivity|]. cbn. rewrite app_nil_r.
    split; [reflexivity|]. split; [reflexivity | discriminate].
  - eexists. split; [reflexivity|]. cbn. rewrite app_nil_r.
    split; [reflexivity|]. split; [reflexivity | discriminate].
  - eexists. split; [reflexivity|]. cbn. rewrite app_nil_r.
    split; [reflexivity|]. split; [reflexivity|].
    intros _ _. apply lookup_insert_eq.
  - eexists. split; [reflexivity|]. cbn. rewrite app_nil_r.
    split; [reflexivity|]. split; [reflexivity | discriminate].
  - eexists. split; [reflexivity|]. cbn.
    split; [reflexivity|]. split; [reflexivity | discriminate].
Qed.

Lemma Stop_enters (choice : bool) (st : State) :
  stop_invariant st ->
  onces st !! stopOnce (pt st) = Some OnceIdle ->
  exists st1,
    run [CallStop; Run (List.length (threads st)) choice] st = Some st1
    /\ threads st1 = threads st ++ [AtStopSend (stopOnce (pt st))]
    /\ trace st1 = trace st ++ [StopCalled (List.length (threads st))]
    /\ stop_invariant st1.
Proof.
  intros Hinv Hfree.
  set (tid := List.length (threads st)).
  assert (Hcall : step CallStop st
                  = Some (spawn AtStopDo (emit (StopCalled tid) st))).
  { unfold step. rewrite (si_alive st Hinv). reflexivity. }
  pose proof (step_stop_invariant _ _ _ Hinv Hcall) as Hinv0.
  set (st0 := spawn AtStopDo (emit (StopCalled tid) st)) in *.
  assert (Hp0 : threads st0 !! tid = Some AtStopDo).
  { unfold st0, spawn, emit. cbn [threads]. apply list_lookup_middle. reflexivity. }
  assert (Henter : exists st1,
             step (Run tid choice) st0 = Some st1
             /\ threads st1 = threads st ++ [AtStopSend (stopOnce (pt st))]
             /\ trace st1 = trace st0).
  { unfold step, step_thread. rewrite (si_alive st0 Hinv0), Hp0.
    unfold enter_once.
    change (onces st0) with (onces st). change (pt st0) with (pt st). rewrite Hfree.
    eexists. split; [reflexivity|]. cbn [threads trace goto set_onces].
    split; [|reflexivity].
    unfold st0, spawn, emit. cbn [threads]. unfold tid.
    rewrite insert_app_r_alt by lia. rewrite Nat.sub_diag. reflexivity. }
  destruct Henter as (st1 & Hs1 & Hp1 & Ht1).
  exists st1. cbn [run]. rewrite Hcall, Hs1.
  split; [reflexivity|]. split; [exact Hp1|].
  split; [exact Ht1 | exact (step_stop_invariant _ _ _ Hinv0 Hs1)].
Qed.

Lemma stop_runs_alone (tid : nat) (choice : bool) (o : loc) :
  forall n st p,
    stop_invariant st ->
    threads st !! tid = Some p ->
    stop_guard p = Some o ->
    statements_left p = n ->
    exists st',
      run (repeat (Run tid choice) n) st = Some st'
      /\ threads st' !! tid = Some Returned
      /\ trace st' = trace st ++ [StopReturned tid]
      /\ stop_invariant st'.
Proof.
  induction n as [|n IH]; intros st p Hinv Hp Hg Hn.
  - destruct p; discriminate.
  - destruct (stop_statement_runs tid choice st p o Hinv Hp Hg)
      as (st1 & Hs1 & Hth1 & Ht1 & _).
    pose proof (step_stop_invariant _ _ _ Hinv Hs1) as Hinv1.
    assert (Hp1 : threads st1 !! tid = Some (after p)).
    { rewrite Hth1. apply list_lookup_insert_eq. exact (lookup_lt_Some _ _ _ Hp). }
    cbn [repeat run]. rewrite Hs1.
    destruct p; try discriminate Hg; cbn [after] in Hp1; cbn [statements_left] in Hn;
      injection Hn as <-; injection Hg as ->;
      try (destruct (IH st1 _ Hinv1 Hp1 eq_refl eq_refl) as (st' & Hrun & Hret & Htr' & Hinv');
           exists st'; rewrite Hrun, Htr', Ht1, app_nil_r;
           split; [reflexivity|]; split; [exact Hret|]; split; [reflexivity | exact Hinv']).
    exists st1. cbn [repeat run].
    split; [reflexivity|]. split; [exact Hp1|]. split; [exact Ht1 | exact Hinv1].
Qed.

(** X14.  [Stop] waits for nothing but its own guard.  In any state
    the trigger can reach, with any number of calls of [Start] and [Stop]
    under way, a call of [Stop] that finds the stop guard free goes through
    its eight steps without any other thread taking one, and returns: the
    send finds room in the buffer, so that neither the goroutine of [start]
    nor the loop nor a running task has to move. *)
Theorem Stop_returns_without_waiting (interval : Z) (sched : list action) (st : State)
  (choice : bool)
  (Hpos : (0 < interval)%Z)
  (Hrun : run sched (NewPeriodicTrigger interval) = Some st)
  (Hfree : onces st !! stopOnce (pt st) = Some OnceIdle) :
  exists st',
    run (CallStop :: repeat (Run (List.length (threads st)) choice) 8) st = Some st'
    /\ threads st' !! List.length (threads st) = Some Returned
    /\ trace st' = trace st ++ [StopCalled (List.length (threads st));
                                StopReturned (List.length (threads st))]
    /\ crashed st' = false.
Proof.
  pose proof (run_stop_invariant sched _ st
                (new_trigger_stop_invariant interval Hpos) Hrun) as Hinv.
  set (tid := List.length (threads st)).
  destruct (Stop_enters choice st Hinv Hfree) as (st1 & Hs1 & Hth1 & Ht1 & Hinv1).
  fold tid in Hs1, Ht1.
  assert (Hp1 : threads st1 !! tid = Some (AtStopSend (stopOnce (pt st)))).
  { rewrite Hth1. apply list_lookup_middle. reflexivity. }
  destruct (stop_runs_alone tid choice (stopOnce (pt st)) 7 st1 _ Hinv1 Hp1 eq_refl eq_refl)
    as (st' & Hrun' & Hret & Htr' & Hinv').
  exists st'.
  change (CallStop :: repeat (Run tid choice) 8)
    with ([CallStop; Run tid choice] ++ repeat (Run tid choice) 7).
  rewrite run_app, Hs1. cbn [mbind option_bind]. rewrite Hrun'.
  split; [reflexivity|]. split; [exact Hret|]. split; [|exact (si_alive st' Hinv')].
  rewrite Htr', Ht1, <- app_assoc. reflexivity.
Qed.

Lemma Stop_returns_without_waiting_witness :
  exists st st',
    run ([CallStart] ++ repeat (Run 0 false) 5 ++ [Run 1 false])
      (NewPeriodicTrigger 1000) = Some st
    /\ threads st = [AtLoopSelect 1 4 5; AtListenRecv 0 4 5]
    /\ run (CallStop :: repeat (Run 2 true) 8) st = Some st'
    /\ threads st' !! 2 = Some Returned.
Proof.
  eexists. 
  assert (Hrun : run ([CallStart] ++ repeat (Run 0 false) 5 ++ [Run 1 false])
                   (NewPeriodicTrigger 1000) = Some ?[st]) by (vm_compute; reflexivity).
  destruct (Stop_returns_without_waiting 1000 _ _ true ltac:(lia) Hrun)
    as (st' & Hrun' & Hret & _); [vm_compute; reflexivity|].
  exists st'. split; [exact Hrun|]. split; [vm_compute; reflexivity|].
  split; [exact Hrun' | exact Hret].
Defined.

(** X15.  The guard of [Stop] does its work for the stop channel and
    the two guards: in any state the trigger can reach, at most one thread
    is between the send on the stop channel and the statement of [reset]
    that installs the new stop guard. *)
Theorem one_thread_between_send_and_new_guard (interval : Z) (sched : list action)
  (st : State) (t1 t2 : nat) (p1 p2 : pc)
  (Hpos : (0 < interval)%Z)
  (Hrun : run sched (NewPeriodicTrigger interval) = Some st)
  (H1 : threads st !! t1 = Some p1)
  (H2 : threads st !! t2 = Some p2)
  (I1 : in_stop p1 = true)
  (I2 : in_stop p2 = true) :
  t1 = t2.
Proof.
  exact (si_exclusive st
           (run_stop_invariant sched _ st (new_trigger_stop_invariant interval Hpos) Hrun)
           t1 t2 p1 p2 H1 H2 I1 I2).
Qed.

Lemma one_thread_between_send_and_new_guard_witness :
  exists st,
    run ([CallStop; CallStop] ++ repeat (Run 1 false) 4) (NewPeriodicTrigger 1000) = Some st
    /\ threads st = [AtStopDo; AtReset2 2]
    /\ 1 = 1.
Proof.
  eexists. split; [vm_compute; reflexivity|]. split; [vm_compute; reflexivity|].
  eapply (one_thread_between_send_and_new_guard 1000
            ([CallStop; CallStop] ++ repeat (Run 1 false) 4) _ 1 1 (AtReset2 2) (AtReset2 2));
    [lia | vm_compute; reflexivity | vm_compute; reflexivity | vm_compute; reflexivity
    | reflexivity | reflexivity].
Defined.

Lemma stop_statement_runs_last (choice : bool) (st : State) (ths : list pc) (p : pc)
  (o : loc) :
  stop_invariant st ->
  threads st = ths ++ [p] ->
  stop_guard p = Some o ->
  exists st',
    step (Run (List.length ths) choice) st = Some st'
    /\ threads st' = ths ++ [after p]
    /\ stop_invariant st'
    /\ (in_stop (after p) = false -> in_stop p = true ->
        onces st' !! stopOnce (pt st') = Some OnceIdle).
Proof.
  intros Hinv Hth Hg.
  assert (Hp : threads st !! List.length ths = Some p).
  { rewrite Hth. apply list_lookup_middle. reflexivity. }
  destruct (stop_statement_runs (List.length ths) choice st p o Hinv Hp Hg)
    as (st' & Hs & Hth' & _ & Hfree).
  exists st'. split; [exact Hs|]. split.
  - rewrite Hth', Hth, insert_app_r_alt by lia. rewrite Nat.sub_diag. reflexivity.
  - split; [exact (step_stop_invariant _ _ _ Hinv Hs) | exact Hfree].
Qed.

Lemma Stop_reaches_the_assignment (choice : bool) (st : State) :
  stop_invariant st ->
  onces st !! stopOnce (pt st) = Some OnceIdle ->
  exists st',
    run (CallStop :: repeat (Run (List.length (threads st)) choice) 6) st = Some st'
    /\ threads st' = threads st ++ [AtReset4 (stopOnce (pt st))]
    /\ stop_invariant st'
    /\ onces st' !! stopOnce (pt st') = Some OnceIdle.
Proof.
  intros Hinv Hfree.
  destruct (Stop_enters choice st Hinv Hfree) as (st1 & Hs1 & Hth1 & _ & Hinv1).
  destruct (stop_statement_runs_last choice st1 _ _ _ Hinv1 Hth1 eq_refl)
    as (st2 & Hs2 & Hth2 & Hinv2 & _).
  destruct (stop_statement_runs_last choice st2 _ _ _ Hinv2 Hth2 eq_refl)
    as (st3 & Hs3 & Hth3 & Hinv3 & _).
  destruct (stop_statement_runs_last choice st3 _ _ _ Hinv3 Hth3 eq_refl)
    as (st4 & Hs4 & Hth4 & Hinv4 & _).
  destruct (stop_statement_runs_last choice st4 _ _ _ Hinv4 Hth4 eq_refl)
    as (st5 & Hs5 & Hth5 & Hinv5 & _).
  destruct (stop_statement_runs_last choice st5 _ _ _ Hinv5 Hth5 eq_refl)
    as (st6 & Hs6 & Hth6 & Hinv6 & Hfree6).
  exists st6.
  change (CallStop :: repeat (Run (List.length (threads st)) choice) 6)
    with ([CallStop; Run (List.length (threads st)) choice]
          ++ repeat (Run (List.length (threads st)) choice) 5).
  rewrite run_app, Hs1. cbn [mbind option_bind repeat run].
  rewrite Hs2, Hs3, Hs4, Hs5, Hs6.
  split; [reflexivity|]. split; [exact Hth6|]. split; [exact Hinv6|].
  apply Hfree6; reflexivity.
Qed.

(** X16.  The guard of [Stop] does not protect the context.  From any
    state the trigger can reach in which the stop guard is free, two calls
    of [Stop], one after the other, are both about to assign the context
    and its cancel function at the same time, each behind a guard of its
    own: the first call installs the new stop guard before its last
    assignment, and the second call goes through that new guard. *)
Theorem two_Stops_assign_the_context_at_once (interval : Z) (sched : list action)
  (st : State) (choice : bool)
  (Hpos : (0 < interval)%Z)
  (Hrun : run sched (NewPeriodicTrigger interval) = Some st)
  (Hfree : onces st !! stopOnce (pt st) = Some OnceIdle) :
  exists st' o1 o2,
    run ((CallStop :: repeat (Run (List.length (threads st)) choice) 6)
         ++ CallStop :: repeat (Run (S (List.length (threads st))) choice) 6) st
    = Some st'
    /\ threads st' = threads st ++ [AtReset4 o1; AtReset4 o2]
    /\ o1 <> o2
    /\ crashed st' = false.
Proof.
  pose proof (run_stop_invariant sched _ st
                (new_trigger_stop_invariant interval Hpos) Hrun) as Hinv.
  destruct (Stop_reaches_the_assignment choice st Hinv Hfree)
    as (st1 & Hs1 & Hth1 & Hinv1 & Hfree1).
  destruct (Stop_reaches_the_assignment choice st1 Hinv1 Hfree1)
    as (st2 & Hs2 & Hth2 & Hinv2 & _).
  assert (Hlen : List.length (threads st1) = S (List.length (threads st))).
  { rewrite Hth1, length_app. cbn. lia. }
  rewrite Hlen in Hs2.
  exists st2, (stopOnce (pt st)), (stopOnce (pt st1)).
  rewrite run_app, Hs1. cbn [mbind option_bind]. rewrite Hs2.
  split; [reflexivity|]. split.
  - rewrite Hth2, Hth1, <- app_assoc. reflexivity.
  - split; [|exact (si_alive st2 Hinv2)].
    assert (Hp : threads st1 !! List.length (threads st) = Some (AtReset4 (stopOnce (pt st)))).
    { rewrite Hth1. apply list_lookup_middle. reflexivity. }
    exact (proj1 (si_threads st1 Hinv1 _ _ Hp)).
Qed.

Lemma two_Stops_assign_the_context_at_once_witness :
  exists st',
    run ((CallStop :: repeat (Run 0 false) 6) ++ CallStop :: repeat (Run 1 false) 6)
      (NewPeriodicTrigger 1000) = Some st'
    /\ threads st' = [AtReset4 2; AtReset4 6].
Proof.
  destruct (two_Stops_assign_the_context_at_once 1000 [] (NewPeriodicTrigger 1000) false)
    as (st' & o1 & o2 & Hrun & Hth & _ & _);
    [lia | reflexivity | vm_compute; reflexivity |].
  exists st'. split; [exact Hrun|].
  vm_compute in Hrun. injection Hrun as <-. reflexivity.
Defined.

End stop_safety.

(** ** The configuration *)

(** X17.  Whatever the configuration file holds, a configuration that
    [LoadConfigFromFile] returns has no empty InfluxDB host, database,
    data server host or port and no zero poll interval: an empty string or
    a zero in the file counts as absent and the default takes its place, so
    that a poll interval of zero cannot be configured, while a negative one
    can. *)
Theorem loaded_config_has_no_empty_setting (file : Result string) (cfg : cmd.Config)
  (Hload : cmd.LoadConfigFromFile file = Ok cfg) :
  cmd.InfluxDBClient_Host (cmd.InfluxDBClient cfg) <> EmptyString
  /\ cmd.InfluxDBClient_Database (cmd.InfluxDBClient cfg) <> EmptyString
  /\ cmd.DataServerClient_Host (cmd.DataServerClient cfg) <> EmptyString
  /\ cmd.HTTPServer_Port (cmd.HTTPServer cfg) <> EmptyString
  /\ cmd.PollIntervalMs (cmd.DataServerCollector cfg) <> 0.
Proof.
  unfold cmd.LoadConfigFromFile in Hload.
  destruct file as [b|err]; [|discriminate].
  destruct (cmd.Unmarshal b cmd.zero) as [c|err]; [|discriminate].
  injection Hload as <-.
  destruct c as [[h t d o] [dh] [p] [n]].
  cbn [cmd.Merge cmd.InfluxDBClient cmd.DataServerClient cmd.HTTPServer
       cmd.DataServerCollector cmd.InfluxDBClient_Host cmd.InfluxDBClient_Database
       cmd.DataServerClient_Host cmd.HTTPServer_Port cmd.PollIntervalMs
       cmd.DefaultConfig cmd.DefaultInfluxDBClientConfig cmd.DefaultDataServerConfig
       cmd.DefaultHTTPServerConfig cmd.DefaultDataServerCollectorConfig].
  repeat split.
  - destruct h; discriminate.
  - destruct d; discriminate.
  - destruct dh; discriminate.
  - destruct p; discriminate.
  - unfold cmd.merge_int. destruct (n =? 0) eqn:Hn; [discriminate|].
    apply Z.eqb_neq. exact Hn.
Qed.

Lemma loaded_config_has_no_empty_setting_witness :
  cmd.LoadConfigFromFile
    (Ok (wire "{'http_server':{'port':''},'data_server_collector':{'poll_interval_ms':0}}"))
  = Ok cmd.DefaultConfig
  /\ cmd.HTTPServer_Port (cmd.HTTPServer cmd.DefaultConfig) <> EmptyString
  /\ cmd.PollIntervalMs (cmd.DataServerCollector cmd.DefaultConfig) <> 0.
Proof.
  assert (Hload : cmd.LoadConfigFromFile
                    (Ok (wire "{'http_server':{'port':''},'data_server_collector':{'poll_interval_ms':0}}"))
                  = Ok cmd.DefaultConfig) by (vm_compute; reflexivity).
  split; [exact Hload|].
  destruct (loaded_config_has_no_empty_setting _ _ Hload) as (_ & _ & _ & Hp & Hn).
  split; [exact Hp | exact Hn].
Defined.

(** ** The poll interval, from the file to the ticker *)

Lemma pos_no_leading_zero (p : positive) (d : Decimal.uint) :
  Pos.to_uint p <> Decimal.D0 d.
Proof.
  intros Hd.
  pose proof (DecimalPos.Unsigned.to_of (Pos.to_uint p)) as Hto.
  rewrite DecimalPos.Unsigned.of_to in Hto. cbn [N.to_uint] in Hto.
  rewrite Hd in Hto. unfold Decimal.unorm in Hto.
  destruct (Decimal.nzhead (Decimal.D0 d)) eqn:Hnz;
    try (symmetry in Hto; exact (DecimalFacts.nzhead_nonzero _ _ (eq_trans Hnz Hto))).
  injection Hto as Hnil. subst d.
  pose proof (DecimalPos.Unsigned.of_to p) as Hof. rewrite Hd in Hof. discriminate Hof.
Qed.

Lemma digit_opens_a_number (c : ascii) :
  ascii_class.is_digit c = true ->
  Ascii.eqb c json.dquote = false /\ Ascii.eqb c "[" = false /\ Ascii.eqb c "{" = false
  /\ Ascii.eqb c "t" = false /\ Ascii.eqb c "f" = false /\ Ascii.eqb c "n" = false
  /\ Ascii.eqb c "-" = false.
Proof.
  destruct c as [[] [] [] [] [] [] [] []]; vm_compute; intros H;
    first [discriminate H | repeat split; reflexivity].
Qed.

Lemma span_digits_uint (d : Decimal.uint) :
  json.span_digits (NilEmpty.string_of_uint d +:+ "}}") = (NilEmpty.string_of_uint d, "}}").
Proof.
  induction d; cbn [NilEmpty.string_of_uint];
    [reflexivity | ..];
    match goal with
    | |- json.span_digits (String ?c ?r +:+ _) = _ =>
        change (json.span_digits (String c (r +:+ "}}")) = (String c r, "}}"));
        cbn [json.span_digits];
        change (ascii_class.is_digit c) with true; cbv beta iota;
        rewrite IHd; reflexivity
    end.
Qed.

(** The decimal text of a positive number: a digit that is not 0, then
    digits. *)
Lemma string_of_pos_shape (p : positive) :
  exists c r,
    NilEmpty.string_of_uint (Pos.to_uint p) = String c r
    /\ ascii_class.is_digit c = true
    /\ Ascii.eqb c "0" = false
    /\ json.span_digits (r +:+ "}}") = (r, "}}").
Proof.
  pose proof (DecimalPos.Unsigned.to_uint_nonnil p) as Hnil.
  pose proof (pos_no_leading_zero p) as Hnz.
  destruct (Pos.to_uint p) as [|d|d|d|d|d|d|d|d|d|d]; try contradiction;
    try (exfalso; exact (Hnz d eq_refl));
    eexists; eexists; cbn [NilEmpty.string_of_uint];
    (split; [reflexivity|]); (split; [reflexivity|]); (split; [reflexivity|]);
    apply span_digits_uint.
Qed.

Lemma scan_number_pos (p : positive) :
  json.scan_number (NilEmpty.string_of_uint (Pos.to_uint p) +:+ "}}")
  = Some (NilEmpty.string_of_uint (Pos.to_uint p), "}}").
Proof.
  destruct (string_of_pos_shape p) as (c & r & Hs & Hd & H0 & Hspan).
  destruct (digit_opens_a_number c Hd) as (_ & _ & _ & _ & _ & _ & Hminus).
  rewrite Hs. change (String c r +:+ "}}") with (String c (r +:+ "}}")).
  unfold json.scan_number. rewrite Hminus.
  unfold json.scan_int. rewrite H0, Hd, Hspan.
  change (json.scan_frac "}}") with (Some (EmptyString, "}}")).
  change (json.scan_exp "}}") with (Some (EmptyString, "}}")).
  change (Some (String c (r +:+ EmptyString), "}}") = Some (String c r, "}}")).
  rewrite append_empty_r. reflexivity.
Qed.

(** The scanner on the decimal text of an integer that closes two
    objects. *)
Lemma parse_value_show_Z (fuel : nat) (n : Z) :
  json.parse_value (S fuel) (show_Z n +:+ "}}")
  = Some (json.TNumber (show_Z n), show_Z n, "}}").
Proof.
  destruct n as [|p|p].
  - reflexivity.
  - unfold show_Z. cbn [Z.to_int NilEmpty.string_of_int].
    pose proof (scan_number_pos p) as Hscan.
    destruct (string_of_pos_shape p) as (c & r & Hs & Hd & _).
    destruct (digit_opens_a_number c Hd) as (Hq & Hb & Hc & Ht & Hf & Hn & _).
    rewrite Hs in *. change (String c r +:+ "}}") with (String c (r +:+ "}}")) in *.
    cbn [json.parse_value]. rewrite Hq, Hb, Hc, Ht, Hf, Hn, Hscan. reflexivity.
  - unfold show_Z. cbn [Z.to_int NilEmpty.string_of_int].
    destruct (string_of_pos_shape p) as (c & r & Hs & Hd & H0 & Hspan). rewrite Hs.
    change (String "-" (String c r) +:+ "}}") with (String "-" (String c (r +:+ "}}"))).
    cbn [json.parse_value].
    change (Ascii.eqb "-" json.dquote) with false.
    change (Ascii.eqb "-" "[") with false. change (Ascii.eqb "-" "{") with false.
    change (Ascii.eqb "-" "t") with false. change (Ascii.eqb "-" "f") with false.
    change (Ascii.eqb "-" "n") with false. cbv beta iota.
    unfold json.scan_number.
    change (Ascii.eqb "-" "-") with true. cbv beta iota.
    unfold json.scan_int. rewrite H0, Hd, Hspan.
    change (json.scan_frac "}}") with (Some (EmptyString, "}}")).
    change (json.scan_exp "}}") with (Some (EmptyString, "}}")).
    change (Some (json.TNumber (String "-" (String c (r +:+ EmptyString))),
                  String "-" (String c (r +:+ EmptyString)), "}}")
            = Some (json.TNumber (String "-" (String c r)), String "-" (String c r), "}}")).
    rewrite append_empty_r. reflexivity.
Qed.

Lemma digit_is_no_space (c : ascii) :
  ascii_class.is_digit c = true -> ascii_class.is_space c = false.
Proof.
  destruct c as [[] [] [] [] [] [] [] []]; vm_compute; intros H;
    first [discriminate H | reflexivity].
Qed.

Lemma span_space_show_Z (n : Z) (rest : string) :
  json.span_space (show_Z n +:+ rest) = (EmptyString, show_Z n +:+ rest).
Proof.
  destruct n as [|p|p].
  - reflexivity.
  - unfold show_Z. cbn [Z.to_int NilEmpty.string_of_int].
    destruct (string_of_pos_shape p) as (c & r & Hs & Hd & _). rewrite Hs.
    change (String c r +:+ rest) with (String c (r +:+ rest)).
    cbn [json.span_space]. rewrite (digit_is_no_space c Hd). reflexivity.
  - reflexivity.
Qed.

(** An object with one member, read by the scanner: the member's key, then
    its value, then the closing brace. *)
Lemma parse_members_single (fuel : nat) (s key vrest raw after : string) (t : json.tree) :
  json.scan_string_body s = Some (key, String ":" vrest) ->
  json.span_space vrest = (EmptyString, vrest) ->
  json.parse_value fuel vrest = Some (t, raw, String "}" after) ->
  exists text,
    json.parse_members (S fuel) (String json.dquote s)
    = Some ([(key, (raw, t))], text, after).
Proof.
  intros Hkey Hspace Hvalue.
  cbn [json.parse_members].
  change (Ascii.eqb json.dquote json.dquote) with true. cbv beta iota.
  rewrite Hkey.
  change (json.span_space (String ":" vrest)) with (EmptyString, String ":" vrest).
  cbv beta iota.
  change (Ascii.eqb ":" ":") with true. cbv beta iota.
  rewrite Hspace, Hvalue.
  change (json.span_space (String "}" after)) with (EmptyString, String "}" after).
  cbv beta iota.
  change (Ascii.eqb "}" ",") with false. change (Ascii.eqb "}" "}") with true.
  cbv beta iota.
  eexists. reflexivity.
Qed.

Lemma parse_value_object (fuel : nat) (s text rest : string)
  (ms : list (string * (string * json.tree))) :
  json.parse_members fuel (String json.dquote s) = Some (ms, text, rest) ->
  exists raw,
    json.parse_value (S fuel) (String "{" (String json.dquote s))
    = Some (json.TObject ms, raw, rest).
Proof.
  intros Hmembers.
  cbn [json.parse_value].
  change (Ascii.eqb "{" json.dquote) with false.
  change (Ascii.eqb "{" "[") with false.
  change (Ascii.eqb "{" "{") with true. cbv beta iota.
  change (json.span_space (String json.dquote s)) with (EmptyString, String json.dquote s).
  cbv beta iota.
  change (Ascii.eqb json.dquote "}") with false. cbv beta iota.
  rewrite Hmembers. eexists. reflexivity.
Qed.

Lemma parse_poll_interval_file (fuel : nat) (n : Z) :
  exists raw text,
    json.parse_value (S (S (S (S (S fuel))))) (poll_interval_file n)
    = Some (json.TObject
              [("data_server_collector",
                (raw, json.TObject
                        [("poll_interval_ms", (show_Z n, json.TNumber (show_Z n)))]))],
            text, EmptyString).
Proof.
  pose proof (parse_value_show_Z fuel n) as Hnumber.
  pose proof (span_space_show_Z n "}}") as Hspace.
  unfold poll_interval_file.
  set (P := wire "{'data_server_collector':{'poll_interval_ms':").
  vm_compute in P. subst P.
  revert Hnumber Hspace. generalize (show_Z n +:+ "}}") as tail.
  generalize (show_Z n) as lit. intros lit tail Hnumber Hspace.
  cbv [String.append]. fold String.append.
  destruct (parse_members_single (S fuel)
              (String "p" (String "o" (String "l" (String "l" (String "_"
               (String "i" (String "n" (String "t" (String "e" (String "r"
               (String "v" (String "a" (String "l" (String "_" (String "m"
               (String "s" (String json.dquote (String ":" tail))))))))))))))))))
              "poll_interval_ms" tail lit "}" (json.TNumber lit)
              eq_refl Hspace Hnumber) as (text1 & Hinner).
  destruct (parse_value_object _ _ _ _ _ Hinner) as (raw1 & Hobject).
  match goal with
  | |- exists _ _, json.parse_value _ (String "{" (String _ ?s)) = _ =>
      destruct (parse_members_single (S (S (S fuel))) s "data_server_collector" _ raw1
                  EmptyString _ eq_refl eq_refl Hobject) as (text2 & Houter)
  end.
  destruct (parse_value_object _ _ _ _ _ Houter) as (raw2 & Hdoc).
  exists raw1, raw2. exact Hdoc.
Qed.

Lemma Unmarshal_poll_interval_file (n : Z) :
  - 2 ^ 63 <= n < 2 ^ 63 ->
  cmd.Unmarshal (poll_interval_file n) cmd.zero
  = Ok (cmd.mkConfig (cmd.InfluxDBClient cmd.zero) (cmd.DataServerClient cmd.zero)
          (cmd.HTTPServer cmd.zero) (cmd.mkDataServerCollectorConfig n)).
Proof.
  intros Hrange. unfold cmd.Unmarshal, json.parse_document.
  assert (Hfuel : exists f, json.fuel_for (poll_interval_file n) = S (S (S (S (S f))))).
  { unfold json.fuel_for, poll_interval_file. rewrite length_append.
    set (P := wire "{'data_server_collector':{'poll_interval_ms':").
    vm_compute in P. subst P. cbn [String.length].
    match goal with |- exists f, S ?x = _ => exists (x - 4)%nat end. lia. }
  destruct Hfuel as (f & Hfuel). rewrite Hfuel.
  assert (Hskip : json.skip_space (poll_interval_file n) = poll_interval_file n).
  { unfold poll_interval_file.
    set (P := wire "{'data_server_collector':{'poll_interval_ms':").
    vm_compute in P. subst P. reflexivity. }
  rewrite Hskip.
  destruct (parse_poll_interval_file f n) as (raw & text & Hparse). rewrite Hparse.
  change (json.skip_space EmptyString) with EmptyString. cbv beta iota.
  cbn [cmd.decode_struct cmd.decode_fields fst snd].
  change (json.unquote "data_server_collector") with (Some "data_server_collector").
  cbv beta iota.
  change (ascii_class.lower_string "data_server_collector") with "data_server_collector".
  change (cmd.Config_field "data_server_collector" ?t ?c)
    with (match cmd.decode_struct cmd.DataServerCollectorConfig_field t
                  (cmd.DataServerCollector c) with
          | Ok x => Ok (cmd.mkConfig (cmd.InfluxDBClient c) (cmd.DataServerClient c)
                          (cmd.HTTPServer c) x)
          | Err e => Err e
          end).
  cbn [cmd.decode_struct cmd.decode_fields fst snd].
  change (json.unquote "poll_interval_ms") with (Some "poll_interval_ms").
  cbv beta iota.
  change (ascii_class.lower_string "poll_interval_ms") with "poll_interval_ms".
  change (cmd.DataServerCollectorConfig_field "poll_interval_ms" ?t ?c)
    with (match cmd.decode_int t (cmd.PollIntervalMs c) with
          | Ok k => Ok (cmd.mkDataServerCollectorConfig k)
          | Err e => Err e
          end).
  cbn [cmd.decode_int].
  rewrite (ParseInt_show_Z n Hrange). reflexivity.
Qed.

(** X18.  The poll interval, from the file to the ticker.  A
    configuration file that sets [poll_interval_ms] to [n] and nothing
    else loads as the default configuration with that poll interval, except
    that a zero gives the default of 1000; [main] turns the milliseconds
    into a duration without overflow, up to 9223372036854 of them either
    way; and the collector made with that duration can panic exactly when
    [n] is negative: the loader accepts a negative poll interval and the
    first [Start] then panics in [NewTicker]. *)
Theorem poll_interval_from_file_to_ticker (n : Z)
  (Hrange : - 9223372036854 <= n <= 9223372036854) :
  let ms := if n =? 0 then 1000 else n in
  cmd.LoadConfigFromFile (Ok (poll_interval_file n)) = Ok (with_poll_interval ms)
  /\ cmd.collector_interval (with_poll_interval ms) = 1000000 * ms
  /\ ((exists sched st,
         collector.run sched
           (collector.NewPeriodicTrigger (cmd.collector_interval (with_poll_interval ms)))
         = Some st
         /\ (collector.crashed st = true
             \/ exists tid, In (collector.Panic tid) (collector.trace st)))
      <-> n < 0).
Proof.
  intros ms.
  assert (Hms : - 9223372036854 <= ms <= 9223372036854 /\ ms <> 0 /\ (ms < 0 <-> n < 0)).
  { unfold ms. destruct (Z.eqb_spec n 0); lia. }
  assert (Hinterval : cmd.collector_interval (with_poll_interval ms) = 1000000 * ms).
  { unfold cmd.collector_interval, with_poll_interval, cmd.Millisecond, time.wrap_int64.
    cbn [cmd.DataServerCollector cmd.PollIntervalMs].
    assert (H64 : 2 ^ 64 = 18446744073709551616) by reflexivity.
    assert (H63 : 2 ^ 63 = 9223372036854775808) by reflexivity.
    rewrite Z.mod_small; lia. }
  split; [|split; [exact Hinterval|]].
  - unfold cmd.LoadConfigFromFile.
    rewrite Unmarshal_poll_interval_file by lia.
    unfold cmd.Merge, with_poll_interval, cmd.merge_int, ms.
    cbn [cmd.InfluxDBClient cmd.DataServerClient cmd.HTTPServer cmd.DataServerCollector
         cmd.PollIntervalMs].
    destruct (n =? 0); reflexivity.
  - rewrite Hinterval, trigger_panics_iff. lia.
Qed.

Lemma poll_interval_from_file_to_ticker_witness :
  let ms := if -5 =? 0 then 1000 else -5 in
  cmd.LoadConfigFromFile (Ok (poll_interval_file (-5))) = Ok (with_poll_interval ms)
  /\ cmd.collector_interval (with_poll_interval ms) = 1000000 * ms
  /\ ((exists sched st,
         collector.run sched
           (collector.NewPeriodicTrigger (cmd.collector_interval (with_poll_interval ms)))
         = Some st
         /\ (collector.crashed st = true
             \/ exists tid, In (collector.Panic tid) (collector.trace st)))
      <-> -5 < 0).
Proof. apply (poll_interval_from_file_to_ticker (-5)). lia. Defined.

(** ** The shutdown *)

Section shutdown.
Import process.







End shutdown.

(** ** The value member as base64 *)

Lemma forall_below (P : Z -> bool) (n : nat) :
  forallb P (below n) = true -> forall v, 0 <= v < Z.of_nat n -> P v = true.
Proof.
  intros Hall v Hv. rewrite forallb_forall in Hall. apply Hall.
  unfold below. apply in_map_iff. exists (Z.to_nat v).
  split; [lia|]. apply in_seq. lia.
Qed.

(** A character of the alphabet stands for its index, is not the padding
    character, and needs no escape. *)
Lemma base64_char_sextet (v : Z) :
  0 <= v < 64 ->
  base64.sextet (base64_char v) = Some v
  /\ base64.is_pad (base64_char v) = false
  /\ plain (base64_char v) = true.
Proof.
  intros Hv.
  pose proof (forall_below
                (fun v => match base64.sextet (base64_char v) with
                          | Some w => (w =? v)
                          | None => false
                          end
                          && negb (base64.is_pad (base64_char v))
                          && plain (base64_char v))%bool
                64 ltac:(vm_compute; reflexivity) v Hv) as Hcheck.
  cbv beta in Hcheck.
  apply andb_prop in Hcheck as [Hcheck Hplain].
  apply andb_prop in Hcheck as [Hsext Hpad].
  destruct (base64.sextet (base64_char v)) as [w|]; [|discriminate].
  apply Z.eqb_eq in Hsext. subst w.
  split; [reflexivity|]. split; [|exact Hplain].
  destruct (base64.is_pad (base64_char v)); [discriminate | reflexivity].
Qed.

(** How the decoder puts three bytes together from four sextets. *)
Lemma sextets_to_bytes (v1 v2 : Z) :
  0 <= v1 < 64 -> 0 <= v2 < 64 ->
  Z.lor (Z.shiftl v1 2) (Z.shiftr v2 4) mod 256 = (v1 * 4 + v2 / 16) mod 256
  /\ Z.lor (Z.shiftl v1 4) (Z.shiftr v2 2) mod 256 = (v1 * 16 + v2 / 4) mod 256
  /\ Z.lor (Z.shiftl v1 6) v2 mod 256 = (v1 * 64 + v2) mod 256.
Proof.
  intros H1 H2.
  pose proof (forall_below
                (fun a => forallb
                   (fun b =>
                      (Z.lor (Z.shiftl a 2) (Z.shiftr b 4) mod 256 =? (a * 4 + b / 16) mod 256)
                      && (Z.lor (Z.shiftl a 4) (Z.shiftr b 2) mod 256
                          =? (a * 16 + b / 4) mod 256)
                      && (Z.lor (Z.shiftl a 6) b mod 256 =? (a * 64 + b) mod 256))%bool
                   (below 64))
                64 ltac:(vm_compute; reflexivity) v1 H1) as Hcheck.
  cbv beta in Hcheck.
  pose proof (forall_below _ 64 Hcheck v2 H2) as Hcheck2. cbv beta in Hcheck2.
  apply andb_prop in Hcheck2 as [Hcheck2 Hc]. apply andb_prop in Hcheck2 as [Ha Hb].
  apply Z.eqb_eq in Ha, Hb, Hc. repeat split; assumption.
Qed.

Lemma z2b_mod (a b : Z) : a mod 256 = b mod 256 -> base64.z2b a = base64.z2b b.
Proof. intros H. unfold base64.z2b. rewrite H. reflexivity. Qed.

Lemma z2b_b2z (a : byte) : base64.z2b (binary.b2z a) = a.
Proof.
  unfold base64.z2b, binary.b2z.
  pose proof (Byte.to_N_bounded a) as Hb.
  rewrite Z.mod_small by lia. rewrite N2Z.id, Byte.of_to_N. reflexivity.
Qed.

Lemma b2z_range (a : byte) : 0 <= binary.b2z a < 256.
Proof. unfold binary.b2z. pose proof (Byte.to_N_bounded a). lia. Qed.

Ltac euclid := Z.to_euclidean_division_equations; lia.

Lemma decoded_first (x y : Z) :
  0 <= x < 256 -> 0 <= y < 256 ->
  base64.z2b (Z.lor (Z.shiftl (x / 4) 2) (Z.shiftr (x mod 4 * 16 + y / 16) 4))
  = base64.z2b x.
Proof.
  intros Hx Hy. apply z2b_mod.
  destruct (sextets_to_bytes (x / 4) (x mod 4 * 16 + y / 16)) as (H & _ & _);
    [euclid | euclid |].
  rewrite H. f_equal. euclid.
Qed.

Lemma decoded_second (x y z : Z) :
  0 <= x < 256 -> 0 <= y < 256 -> 0 <= z < 256 ->
  base64.z2b (Z.lor (Z.shiftl (x mod 4 * 16 + y / 16) 4)
                    (Z.shiftr (y mod 16 * 4 + z / 64) 2))
  = base64.z2b y.
Proof.
  intros Hx Hy Hz. apply z2b_mod.
  destruct (sextets_to_bytes (x mod 4 * 16 + y / 16) (y mod 16 * 4 + z / 64))
    as (_ & H & _); [euclid | euclid |].
  rewrite H. euclid.
Qed.

Lemma decoded_third (y z : Z) :
  0 <= y < 256 -> 0 <= z < 256 ->
  base64.z2b (Z.lor (Z.shiftl (y mod 16 * 4 + z / 64) 6) (z mod 64)) = base64.z2b z.
Proof.
  intros Hy Hz. apply z2b_mod.
  destruct (sextets_to_bytes (y mod 16 * 4 + z / 64) (z mod 64))
    as (_ & _ & H); [euclid | euclid |].
  rewrite H. euclid.
Qed.

Ltac sextet_of v :=
  let H := fresh "Hs" in
  let Hp := fresh "Hp" in
  destruct (base64_char_sextet v) as (H & Hp & _); [euclid|];
  rewrite ?H, ?Hp; clear H Hp.

(** The decoder undoes the encoder, for every list of bytes. *)
Lemma decode_EncodeToString_bounded (n : nat) :
  forall bs, (List.length bs <= n)%nat ->
             base64.decode (base64_EncodeToString bs) = Some bs.
Proof.
  induction n as [|n IH]; intros bs Hlen.
  - destruct bs; [reflexivity | cbn in Hlen; lia].
  - destruct bs as [|a [|b [|c rest]]]; [reflexivity | | |].
    + pose proof (b2z_range a) as Ha.
      cbn [base64_EncodeToString]. cbv zeta. cbn [base64.decode].
      sextet_of (binary.b2z a / 4). sextet_of (binary.b2z a mod 4 * 16).
      change (base64.is_pad "=") with true. cbn [base64.is_empty andb].
      replace (binary.b2z a mod 4 * 16) with (binary.b2z a mod 4 * 16 + 0 / 16)
        by (change (0 / 16) with 0; lia).
      rewrite (decoded_first _ 0 Ha ltac:(lia)), z2b_b2z. reflexivity.
    + pose proof (b2z_range a) as Ha. pose proof (b2z_range b) as Hb.
      cbn [base64_EncodeToString]. cbv zeta. cbn [base64.decode].
      sextet_of (binary.b2z a / 4).
      sextet_of (binary.b2z a mod 4 * 16 + binary.b2z b / 16).
      sextet_of (binary.b2z b mod 16 * 4).
      change (base64.is_pad "=") with true. cbn [base64.is_empty].
      rewrite (decoded_first _ _ Ha Hb).
      replace (binary.b2z b mod 16 * 4) with (binary.b2z b mod 16 * 4 + 0 / 64)
        by (change (0 / 64) with 0; lia).
      rewrite (decoded_second _ _ 0 Ha Hb ltac:(lia)), !z2b_b2z. reflexivity.
    + pose proof (b2z_range a) as Ha. pose proof (b2z_range b) as Hb.
      pose proof (b2z_range c) as Hc.
      cbn [base64_EncodeToString]. cbv zeta. cbn [base64.decode].
      sextet_of (binary.b2z a / 4).
      sextet_of (binary.b2z a mod 4 * 16 + binary.b2z b / 16).
      sextet_of (binary.b2z b mod 16 * 4 + binary.b2z c / 64).
      sextet_of (binary.b2z c mod 64).
      rewrite (decoded_first _ _ Ha Hb), (decoded_second _ _ _ Ha Hb Hc),
        (decoded_third _ _ Hb Hc), !z2b_b2z.
      rewrite (IH rest) by (cbn in Hlen; lia). reflexivity.
Qed.

Lemma all_plain_EncodeToString_bounded (n : nat) :
  forall bs, (List.length bs <= n)%nat -> all_plain (base64_EncodeToString bs) = true.
Proof.
  assert (Hchar : forall v, 0 <= v < 64 -> plain (base64_char v) = true).
  { intros v Hv. apply (base64_char_sextet v Hv). }
  induction n as [|n IH]; intros bs Hlen.
  - destruct bs; [reflexivity | cbn in Hlen; lia].
  - destruct bs as [|a [|b [|c rest]]]; [reflexivity | | |];
      pose proof (b2z_range a) as Ha;
      try pose proof (b2z_range b) as Hb; try pose proof (b2z_range c) as Hc;
      cbn [base64_EncodeToString]; cbv zeta; cbn [all_plain];
      rewrite ?Hchar by euclid; cbn [andb].
    + reflexivity.
    + reflexivity.
    + apply IH. cbn in Hlen. lia.
Qed.

Lemma scan_string_body_plain (s rest : string) :
  all_plain s = true ->
  json.scan_string_body (s +:+ String json.dquote rest) = Some (s, rest).
Proof.
  induction s as [|c s IH]; intros Hplain.
  - reflexivity.
  - cbn [all_plain] in Hplain. apply andb_prop in Hplain as [Hc Hs].
    unfold plain in Hc.
    apply andb_prop in Hc as [Hc Hctl]. apply andb_prop in Hc as [Hq Hb].
    apply negb_true_iff in Hq, Hb, Hctl.
    change (String c s +:+ String json.dquote rest)
      with (String c (s +:+ String json.dquote rest)).
    cbn [json.scan_string_body]. rewrite Hq, Hb, Hctl, (IH Hs). reflexivity.
Qed.

Lemma unquote_plain (s : string) : all_plain s = true -> json.unquote s = Some s.
Proof.
  induction s as [|c s IH]; intros Hplain; [reflexivity|].
  cbn [all_plain] in Hplain. apply andb_prop in Hplain as [Hc Hs].
  unfold plain in Hc.
  apply andb_prop in Hc as [Hc _]. apply andb_prop in Hc as [_ Hb].
  apply negb_true_iff in Hb.
  cbn [json.unquote]. rewrite Hb, (IH Hs). reflexivity.
Qed.

(** What [json.Marshal] writes for a byte slice, [json.Unmarshal] reads
    back. *)
Lemma Unmarshal_bytes_toJSONByteArray (bs : list byte) :
  json.Unmarshal_bytes (toJSONByteArray bs) = Ok bs.
Proof.
  pose proof (all_plain_EncodeToString_bounded _ bs (le_n _)) as Hplain.
  unfold json.Unmarshal_bytes, json.parse_document, toJSONByteArray, json.fuel_for.
  change (json.skip_space (String json.dquote ?s)) with (String json.dquote s).
  cbn [String.length Nat.mul Nat.add json.parse_value].
  change (Ascii.eqb json.dquote json.dquote) with true. cbv beta iota.
  unfold json.str1. rewrite (scan_string_body_plain _ EmptyString Hplain).
  change (json.skip_space EmptyString) with EmptyString. cbv beta iota.
  rewrite (unquote_plain _ Hplain), (decode_EncodeToString_bounded _ bs (le_n _)).
  reflexivity.
Qed.

(** X21.  The measurement in the form the data server's tests send it.
    For every float32 [f], given by its bit pattern, the value member that
    [json.Marshal] makes of the four little-endian bytes of [f], a base64
    string, decodes to [f] itself, bit for bit, marked processed. *)
Theorem measurement_round_trip_base64 (f : float32) (Hf : 0 <= f < 2 ^ 32) :
  client.DataPointValue_UnmarshalJSON (toJSONByteArray (spec.float32ToBytes f))
  = Ok {| client.Value_Value := f; client.Value_Processed := true |}.
Proof.
  unfold client.DataPointValue_UnmarshalJSON.
  rewrite Unmarshal_bytes_toJSONByteArray.
  change (List.length (spec.float32ToBytes f)) with 4%nat.
  cbn [Nat.eqb negb].
  rewrite (le_bytes_round_trip f Hf). reflexivity.
Qed.

Lemma measurement_round_trip_base64_witness :
  toJSONByteArray (spec.float32ToBytes bits_3_14) = wire "'w/VIQA=='"
  /\ client.DataPointValue_UnmarshalJSON (toJSONByteArray (spec.float32ToBytes bits_3_14))
     = Ok {| client.Value_Value := bits_3_14; client.Value_Processed := true |}.
Proof.
  split; [vm_compute; reflexivity|].
  apply measurement_round_trip_base64. vm_compute. split; [discriminate | reflexivity].
Defined.

(** ** [Start], once more *)

